(** * Manifest store of the Apple Foundation Model fork of ollama

    A shallow embedding of [server/manifest.go] (the second unit of
    [src/runner/apple/runner.go]): [Manifest.Size], [Manifest.Remove],
    [Manifest.RemoveLayers], [ParseNamedManifest], [WriteManifest],
    [Manifests], [createAppleManifests] and [GenerateFakeDigest], together
    with the pieces of the Go standard library they call ([crypto/sha256],
    [encoding/hex], [encoding/json], [os], [path/filepath]); and of the
    runner of the model (the first unit, package [proprietary]):
    [NewServer], [Ping], [Close], [Tokenize] and [Detokenize]. *)

From Stdlib Require Import ZArith Ascii String List Lia Bool.
From Stdlib Require Import DecimalString DecimalFacts DecimalPos DecimalZ.
From stdpp Require Import base option list strings gmap.

Local Open Scope Z_scope.
#[local] Set Warnings "-register-all".

(** ** Bytes

    A Go [string] is an immutable sequence of bytes and is modelled by
    Rocq's [string] (a sequence of [ascii], one per byte).  A [[]byte] and
    the content of a file are [list ascii]. *)

Definition bytes := list ascii.

Definition byte_val (c : ascii) : Z := Z.of_N (N_of_ascii c).
Definition byte_of (z : Z) : ascii := ascii_of_N (Z.to_N (z mod 256)).

Definition str (s : string) : bytes := list_ascii_of_string s.
Definition unstr (b : bytes) : string := string_of_list_ascii b.

(** ** crypto/sha256 (FIPS 180-4), on 32-bit words kept in [Z] *)

Module SHA256.

Definition mask32 : Z := 0xffffffff.
Definition add32 (a b : Z) : Z := Z.land (a + b) mask32.
Definition rotr (n x : Z) : Z :=
  Z.land (Z.lor (Z.shiftr x n) (Z.shiftl x (32 - n))) mask32.
Definition shr (n x : Z) : Z := Z.shiftr x n.
Definition not32 (x : Z) : Z := Z.lxor x mask32.

Definition Ch (x y z : Z) : Z := Z.lxor (Z.land x y) (Z.land (not32 x) z).
Definition Maj (x y z : Z) : Z :=
  Z.lxor (Z.lxor (Z.land x y) (Z.land x z)) (Z.land y z).
Definition Sigma0 (x : Z) : Z := Z.lxor (Z.lxor (rotr 2 x) (rotr 13 x)) (rotr 22 x).
Definition Sigma1 (x : Z) : Z := Z.lxor (Z.lxor (rotr 6 x) (rotr 11 x)) (rotr 25 x).
Definition sigma0 (x : Z) : Z := Z.lxor (Z.lxor (rotr 7 x) (rotr 18 x)) (shr 3 x).
Definition sigma1 (x : Z) : Z := Z.lxor (Z.lxor (rotr 17 x) (rotr 19 x)) (shr 10 x).

(** The first 64 primes. *)
Definition is_prime (n : nat) : bool :=
  forallb (fun d => negb (Nat.eqb (n mod d) 0)) (seq 2 (n - 2)).
Definition primes : list Z := map Z.of_nat (filter is_prime (seq 2 310)).

(** The integer cube root of a number below [2 ^ (3 * bits)], bit by bit
    from the top. *)
Fixpoint cube_root (bits : nat) (n r : Z) : Z :=
  match bits with
  | O => r
  | S b =>
      let r' := r + 2 ^ Z.of_nat b in
      cube_root b n (if r' * r' * r' <=? n then r' else r)
  end.

(** The round constants: the first 32 bits of the fractional parts of the
    cube roots of the first 64 primes. *)
Definition K : list Z :=
  Eval vm_compute in map (fun p => cube_root 36 (p * 2 ^ 96) 0 mod 2 ^ 32) primes.

(** The initial hash value: the first 32 bits of the fractional parts of
    the square roots of the first 8 primes. *)
Definition H0 : list Z :=
  Eval vm_compute in map (fun p => Z.sqrt (p * 2 ^ 64) mod 2 ^ 32) (firstn 8 primes).

(** Big-endian encoding of [x] on [n] bytes. *)
Fixpoint be_bytes (n : nat) (x : Z) : list Z :=
  match n with
  | O => []
  | S n' => Z.land (Z.shiftr x (8 * Z.of_nat n')) 255 :: be_bytes n' x
  end.

(** The padded message: the bytes, [0x80], zeros up to 56 modulo 64, then
    the bit length on 8 bytes. *)
Definition pad (msg : list Z) : list Z :=
  let len := Z.of_nat (length msg) in
  let zeros := Z.to_nat ((55 - len) mod 64) in
  msg ++ 128 :: repeat 0 zeros ++ be_bytes 8 (8 * len).

Fixpoint words (fuel : nat) (bs : list Z) : list Z :=
  match fuel, bs with
  | S f, a :: b :: c :: d :: rest =>
      (Z.shiftl a 24 + Z.shiftl b 16 + Z.shiftl c 8 + d) :: words f rest
  | _, _ => []
  end.

Definition nthZ (l : list Z) (i : nat) : Z := nth i l 0.

(** Message schedule: [w] holds W[0..t-1] in reverse order. *)
Fixpoint schedule (n : nat) (w : list Z) : list Z :=
  match n with
  | O => w
  | S n' =>
      let x := add32 (add32 (sigma1 (nthZ w 1)) (nthZ w 6))
                     (add32 (sigma0 (nthZ w 14)) (nthZ w 15)) in
      schedule n' (x :: w)
  end.

Definition round (st : list Z) (kw : Z * Z) : list Z :=
  match st with
  | [a; b; c; d; e; f; g; h] =>
      let t1 := add32 (add32 (add32 h (Sigma1 e)) (add32 (Ch e f g) (fst kw))) (snd kw) in
      let t2 := add32 (Sigma0 a) (Maj a b c) in
      [add32 t1 t2; a; b; c; add32 d t1; e; f; g]
  | _ => st
  end.

Fixpoint zip_add (xs ys : list Z) : list Z :=
  match xs, ys with
  | x :: xs', y :: ys' => add32 x y :: zip_add xs' ys'
  | _, _ => []
  end.

Definition block (h : list Z) (blk : list Z) : list Z :=
  let w := rev (schedule 48 (rev (words 16 blk))) in
  zip_add h (fold_left round (combine K w) h).

Fixpoint blocks (fuel : nat) (h : list Z) (bs : list Z) : list Z :=
  match fuel with
  | O => h
  | S f =>
      match bs with
      | [] => h
      | _ => blocks f (block h (firstn 64 bs)) (skipn 64 bs)
      end
  end.

Definition digest (msg : list Z) : list Z :=
  let p := pad msg in
  flat_map (be_bytes 4) (blocks (length p) H0 p).

End SHA256.

(** [sha256.Sum256(b)], and what [sha256.New()] returns from [Sum(nil)]
    after [b] was written to it. *)
Definition sha256_Sum256 (b : bytes) : bytes :=
  map byte_of (SHA256.digest (map byte_val b)).

(** ** encoding/hex *)

Definition hexdigit (n : Z) : ascii :=
  nth (Z.to_nat n) (str "0123456789abcdef") "0"%char.

Definition hex_EncodeToString (b : bytes) : string :=
  unstr (flat_map (fun c => [hexdigit (byte_val c / 16); hexdigit (byte_val c mod 16)]) b).



(** ** unicode/utf8 *)

Definition in_range (lo hi : Z) (c : ascii) : bool :=
  (lo <=? byte_val c) && (byte_val c <=? hi).

Definition cont_bits (c : ascii) : Z := Z.land (byte_val c) 0x3F.

(** [utf8.DecodeRune]: the rune at the head of [b] and its width in bytes;
    [None] stands for Go's [(RuneError, 1)] (and [(RuneError, 0)] on the
    empty input): the head is not the start of a well-formed encoding. *)
Definition utf8_DecodeRune (b : bytes) : option (Z * nat) :=
  match b with
  | [] => None
  | b0 :: t =>
      let x := byte_val b0 in
      if x <? 0x80 then Some (x, 1%nat)
      else if (0xC2 <=? x) && (x <=? 0xDF) then
        match t with
        | b1 :: _ =>
            if in_range 0x80 0xBF b1
            then Some (Z.lor (Z.shiftl (Z.land x 0x1F) 6) (cont_bits b1), 2%nat)
            else None
        | _ => None
        end
      else if (0xE0 <=? x) && (x <=? 0xEF) then
        match t with
        | b1 :: b2 :: _ =>
            if in_range (if x =? 0xE0 then 0xA0 else 0x80)
                        (if x =? 0xED then 0x9F else 0xBF) b1
               && in_range 0x80 0xBF b2
            then Some (Z.lor (Z.shiftl (Z.land x 0x0F) 12)
                             (Z.lor (Z.shiftl (cont_bits b1) 6) (cont_bits b2)), 3%nat)
            else None
        | _ => None
        end
      else if (0xF0 <=? x) && (x <=? 0xF4) then
        match t with
        | b1 :: b2 :: b3 :: _ =>
            if in_range (if x =? 0xF0 then 0x90 else 0x80)
                        (if x =? 0xF4 then 0x8F else 0xBF) b1
               && in_range 0x80 0xBF b2 && in_range 0x80 0xBF b3
            then Some (Z.lor (Z.shiftl (Z.land x 0x07) 18)
                             (Z.lor (Z.shiftl (cont_bits b1) 12)
                                    (Z.lor (Z.shiftl (cont_bits b2) 6) (cont_bits b3))), 4%nat)
            else None
        | _ => None
        end
      else None
  end.

(** [utf8.EncodeRune] (surrogates and values past U+10FFFF become U+FFFD). *)
Definition utf8_EncodeRune (r : Z) : bytes :=
  let r := if (r <? 0) || (0x10FFFF <? r) || ((0xD800 <=? r) && (r <=? 0xDFFF))
           then 0xFFFD else r in
  if r <? 0x80 then [byte_of r]
  else if r <? 0x800 then
    [byte_of (Z.lor 0xC0 (Z.shiftr r 6)); byte_of (Z.lor 0x80 (Z.land r 0x3F))]
  else if r <? 0x10000 then
    [byte_of (Z.lor 0xE0 (Z.shiftr r 12));
     byte_of (Z.lor 0x80 (Z.land (Z.shiftr r 6) 0x3F));
     byte_of (Z.lor 0x80 (Z.land r 0x3F))]
  else
    [byte_of (Z.lor 0xF0 (Z.shiftr r 18));
     byte_of (Z.lor 0x80 (Z.land (Z.shiftr r 12) 0x3F));
     byte_of (Z.lor 0x80 (Z.land (Z.shiftr r 6) 0x3F));
     byte_of (Z.lor 0x80 (Z.land r 0x3F))].

(** [utf8.Valid]. *)
Fixpoint utf8_Valid_fuel (fuel : nat) (b : bytes) : bool :=
  match fuel with
  | O => match b with [] => true | _ => false end
  | S f =>
      match b with
      | [] => true
      | _ => match utf8_DecodeRune b with
             | Some (_, n) => utf8_Valid_fuel f (skipn n b)
             | None => false
             end
      end
  end.

Definition utf8_Valid (b : bytes) : bool := utf8_Valid_fuel (length b) b.
Definition utf8_ValidString (s : string) : bool := utf8_Valid (str s).

(** ** encoding/json: the encoder *)

Definition quote_char : ascii := "034"%char.
Definition backslash : ascii := "092"%char.

(** [htmlSafeSet]: the ASCII bytes the encoder (HTML escaping on, the
    default of [json.NewEncoder]) writes as they are. *)
Definition htmlSafe (c : ascii) : bool :=
  let x := byte_val c in
  (0x20 <=? x) && (x <? 0x80)
  && negb ((x =? 34) || (x =? 38) || (x =? 60) || (x =? 62) || (x =? 92)).

(** What [appendString] writes for one byte below [utf8.RuneSelf]. *)
Definition escape_ascii (c : ascii) : bytes :=
  let x := byte_val c in
  if htmlSafe c then [c]
  else if (x =? 92) || (x =? 34) then [backslash; c]
  else if x =? 8 then str "\b"
  else if x =? 12 then str "\f"
  else if x =? 10 then str "\n"
  else if x =? 13 then str "\r"
  else if x =? 9 then str "\t"
  else str "\u00" ++ [hexdigit (x / 16); hexdigit (x mod 16)].

(** The six bytes backslash, u, f, f, f, d. *)
Definition escape_fffd : bytes := backslash :: str "ufffd".

(** [appendString] between the quotes: bytes that do not start a
    well-formed UTF-8 encoding are written as the escape of U+FFFD. *)
Fixpoint appendString_fuel (fuel : nat) (src : bytes) : bytes :=
  match fuel with
  | O => []
  | S f =>
      match src with
      | [] => []
      | b :: rest =>
          if byte_val b <? 0x80 then escape_ascii b ++ appendString_fuel f rest
          else
            match utf8_DecodeRune src with
            | None => escape_fffd ++ appendString_fuel f rest
            | Some (c, size) =>
                if (c =? 0x2028) || (c =? 0x2029)
                then str "\u202" ++ hexdigit (Z.land c 0xF) :: appendString_fuel f (skipn size src)
                else firstn size src ++ appendString_fuel f (skipn size src)
            end
      end
  end.

Definition appendString (s : string) : bytes :=
  quote_char :: appendString_fuel (String.length s) (str s) ++ [quote_char].

(** [strconv.AppendInt(_, z, 10)]. *)
Definition appendInt (z : Z) : bytes := str (NilZero.string_of_int (Z.to_int z)).

Definition appendBool (b : bool) : bytes := if b then str "true" else str "false".

(** ** The data model *)

(** A filesystem path, cleaned and split at the separator: the list of its
    components.  The empty path [""] is [[]], and [filepath.Join] is
    concatenation. *)
Abbreviation path := (list string).

Definition filepath_Join (a b : path) : path := a ++ b.
Definition filepath_Dir (p : path) : path := removelast p.
Definition path_string (p : path) : string := String.concat "/" p.

(** A Go slice: [None] is the nil slice. *)
Definition slice (A : Type) := option (list A).
Definition elems {A} (s : slice A) : list A := default [] s.
(** [append(s, x)] *)
Definition append {A} (s : slice A) (x : A) : slice A := Some (elems s ++ [x]).

Module Layer.
(** Modelled from the spec: the type [Layer] is declared outside
    [src/]; the spec gives it a media type, a digest and a byte size,
    written in this order in the manifest file. *)
Record t := mk { MediaType : string; Digest : string; Size : Z }.
Definition zero : t := mk "" "" 0.
End Layer.
Definition Layer := Layer.t.

(** [os.FileInfo], as far as the program reads it. *)
Record FileInfo := mkFileInfo {
  fi_Name : string; fi_Size : Z; fi_Mode : Z; fi_ModTime : Z; fi_IsDir : bool }.

Module Manifest.
Record t := mk {
  SchemaVersion : Z;
  MediaType : string;
  Config : Layer;
  Layers : slice Layer;
  IsAppleFoundationModel : bool;
  filepath : path;
  fi : option FileInfo;
  digest : string }.
Definition zero : t := mk 0 "" Layer.zero None false [] None "".
End Manifest.
Definition Manifest := Manifest.t.

Definition int64_min : Z := - 2 ^ 63.
Definition int64_max : Z := 2 ^ 63 - 1.
Definition is_int64 (z : Z) : bool := (int64_min <=? z) && (z <=? int64_max).
(** Two's-complement wrap-around of int64 arithmetic. *)
Definition wrap64 (z : Z) : Z := (z + 2 ^ 63) mod 2 ^ 64 - 2 ^ 63.
Definition add64 (a b : Z) : Z := wrap64 (a + b).

(** [func Size() (size int64)] on a [Manifest] *)
Definition Size (m : Manifest) : Z :=
  fold_left (fun size layer => add64 size (Layer.Size layer))
            (elems (append (Manifest.Layers m) (Manifest.Config m))) 0.

(** [json.Marshal] of a [Layer] and of a [Manifest]: the exported fields
    in declaration order, under their tags ([IsAppleFoundationModel] has
    none and goes under its own name); the unexported fields are left out. *)
Definition encode_Layer (l : Layer) : bytes :=
  str "{" ++ appendString "mediaType" ++ str ":" ++ appendString (Layer.MediaType l)
  ++ str "," ++ appendString "digest" ++ str ":" ++ appendString (Layer.Digest l)
  ++ str "," ++ appendString "size" ++ str ":" ++ appendInt (Layer.Size l) ++ str "}".

Fixpoint encode_elems (ls : list Layer) : bytes :=
  match ls with
  | [] => []
  | [l] => encode_Layer l
  | l :: ls' => encode_Layer l ++ str "," ++ encode_elems ls'
  end.

Definition encode_Layers (ls : slice Layer) : bytes :=
  match ls with
  | None => str "null"
  | Some l => str "[" ++ encode_elems l ++ str "]"
  end.

Definition encode_Manifest (m : Manifest) : bytes :=
  str "{" ++ appendString "schemaVersion" ++ str ":" ++ appendInt (Manifest.SchemaVersion m)
  ++ str "," ++ appendString "mediaType" ++ str ":" ++ appendString (Manifest.MediaType m)
  ++ str "," ++ appendString "config" ++ str ":" ++ encode_Layer (Manifest.Config m)
  ++ str "," ++ appendString "layers" ++ str ":" ++ encode_Layers (Manifest.Layers m)
  ++ str "," ++ appendString "IsAppleFoundationModel" ++ str ":"
  ++ appendBool (Manifest.IsAppleFoundationModel m) ++ str "}".

(** [json.NewEncoder(f).Encode(m)] writes the encoding and a newline. *)
Definition Encoder_Encode (m : Manifest) : bytes :=
  encode_Manifest m ++ ["010"%char].

Definition demo_manifest : Manifest :=
  Manifest.mk 2 "application/vnd.docker.distribution.manifest.v2+json"
    (Layer.mk "cfg" "sha256:aa" 10) (Some [Layer.mk "weights" "sha256:bb" 2048])
    false [] None "".



(** ** encoding/json: the decoder *)

Inductive json : Type :=
| JNull
| JBool (b : bool)
| JNumber (lit : bytes)
| JString (s : bytes)
| JArray (vs : list json)
| JObject (kvs : list (bytes * json)).

Definition is_char (c d : ascii) : bool := byte_val c =? byte_val d.

Definition isSpace (c : ascii) : bool :=
  is_char c " " || is_char c "009" || is_char c "013" || is_char c "010".

Fixpoint skip_ws (l : bytes) : bytes :=
  match l with
  | c :: r => if isSpace c then skip_ws r else l
  | [] => []
  end.

Definition isDigit (c : ascii) : bool := in_range 48 57 c.

Definition hexval (c : ascii) : option Z :=
  let x := byte_val c in
  if (48 <=? x) && (x <=? 57) then Some (x - 48)
  else if (97 <=? x) && (x <=? 102) then Some (x - 87)
  else if (65 <=? x) && (x <=? 70) then Some (x - 55)
  else None.

(** [getu4] on the four bytes after a backslash and [u]. *)
Definition getu4 (h1 h2 h3 h4 : ascii) : option Z :=
  match hexval h1, hexval h2, hexval h3, hexval h4 with
  | Some a, Some b, Some c, Some d => Some (((a * 16 + b) * 16 + c) * 16 + d)
  | _, _, _, _ => None
  end.

Definition simple_escape (e : ascii) : option ascii :=
  if is_char e quote_char || is_char e backslash || is_char e "/" then Some e
  else if is_char e "b" then Some "008"%char
  else if is_char e "f" then Some "012"%char
  else if is_char e "n" then Some "010"%char
  else if is_char e "r" then Some "013"%char
  else if is_char e "t" then Some "009"%char
  else None.

Definition isSurrogate (r : Z) : bool := (0xD800 <=? r) && (r <? 0xE000).

(** The second half of a surrogate pair: [l] starts with an escape of a
    low surrogate that combines with the high surrogate [r1]
    ([utf16.DecodeRune]). *)
Definition low_surrogate (r1 : Z) (l : bytes) : option (Z * bytes) :=
  match l with
  | b :: u :: g1 :: g2 :: g3 :: g4 :: r3 =>
      if is_char b backslash && is_char u "u" then
        match getu4 g1 g2 g3 g4 with
        | Some r2 =>
            if (0xD800 <=? r1) && (r1 <? 0xDC00) && (0xDC00 <=? r2) && (r2 <? 0xE000)
            then Some (Z.lor (Z.shiftl (r1 - 0xD800) 10) (r2 - 0xDC00) + 0x10000, r3)
            else None
        | None => None
        end
      else None
  | _ => None
  end.

Definition prepend (pre : bytes) (r : option (bytes * bytes)) : option (bytes * bytes) :=
  match r with
  | Some (s, rest) => Some (pre ++ s, rest)
  | None => None
  end.

(** A string literal after its opening quote: the scanner's string states
    and [unquote] in one pass.  The result is the unquoted content and the
    input after the closing quote; [None] is a syntax error or the end of
    the input.  Each rune outside the escapes is decoded and
    encoded again, so bytes that are not well-formed UTF-8 come out as
    U+FFFD. *)
Fixpoint string_body (fuel : nat) (l : bytes) : option (bytes * bytes) :=
  match fuel with
  | O => None
  | S f =>
      match l with
      | [] => None
      | c :: r =>
          if is_char c quote_char then Some ([], r)
          else if is_char c backslash then
            match r with
            | [] => None
            | e :: r1 =>
                if is_char e "u" then
                  match r1 with
                  | h1 :: h2 :: h3 :: h4 :: r2 =>
                      match getu4 h1 h2 h3 h4 with
                      | None => None
                      | Some rr =>
                          if isSurrogate rr then
                            match low_surrogate rr r2 with
                            | Some (dec, r3) => prepend (utf8_EncodeRune dec) (string_body f r3)
                            | None => prepend (utf8_EncodeRune 0xFFFD) (string_body f r2)
                            end
                          else prepend (utf8_EncodeRune rr) (string_body f r2)
                      end
                  | _ => None
                  end
                else
                  match simple_escape e with
                  | Some b => prepend [b] (string_body f r1)
                  | None => None
                  end
            end
          else if byte_val c <? 0x20 then None
          else if byte_val c <? 0x80 then prepend [c] (string_body f r)
          else
            match utf8_DecodeRune l with
            | Some (rr, n) => prepend (utf8_EncodeRune rr) (string_body f (skipn n l))
            | None => prepend (utf8_EncodeRune 0xFFFD) (string_body f r)
            end
      end
  end.

Fixpoint span_digits (l : bytes) : bytes * bytes :=
  match l with
  | c :: r => if isDigit c then let '(ds, r') := span_digits r in (c :: ds, r') else ([], l)
  | [] => ([], [])
  end.

(** The exponent of a number literal, if any. *)
Definition scan_exp (acc l : bytes) : option (bytes * bytes) :=
  match l with
  | c :: r =>
      if is_char c "e" || is_char c "E" then
        let '(sg, r1) :=
          match r with
          | s :: r' => if is_char s "+" || is_char s "-" then ([s], r') else ([], r)
          | [] => ([], r)
          end in
        match span_digits r1 with
        | ([], _) => None
        | (ds, r') => Some (acc ++ c :: sg ++ ds, r')
        end
      else Some (acc, l)
  | [] => Some (acc, [])
  end.

(** The fraction of a number literal, if any, then its exponent. *)
Definition scan_frac (acc l : bytes) : option (bytes * bytes) :=
  match l with
  | c :: r =>
      if is_char c "." then
        match span_digits r with
        | ([], _) => None
        | (ds, r') => scan_exp (acc ++ c :: ds) r'
        end
      else scan_exp acc l
  | [] => Some (acc, [])
  end.

(** A number literal: the literal and the input after it. *)
Definition scan_number (l : bytes) : option (bytes * bytes) :=
  let '(sign, l1) :=
    match l with
    | c :: r => if is_char c "-" then ([c], r) else ([], l)
    | [] => ([], l)
    end in
  match l1 with
  | d :: r =>
      if is_char d "0" then scan_frac (sign ++ [d]) r
      else if isDigit d then let '(ds, r') := span_digits r in scan_frac (sign ++ d :: ds) r'
      else None
  | [] => None
  end.

Fixpoint strip_prefix (pre l : bytes) : option bytes :=
  match pre, l with
  | [], _ => Some l
  | p :: pre', c :: l' => if is_char p c then strip_prefix pre' l' else None
  | _ :: _, [] => None
  end.

(** The scanner gives up on an object or an array that is nested in more
    than [maxNestingDepth] others, itself counted. *)
Definition maxNestingDepth : Z := 10000.

(** One JSON value, after optional white space: the value and the input
    after it.  [depth] counts the objects and arrays around the value;
    [fuel] bounds the recursion. *)
Fixpoint parse_value (fuel : nat) (depth : Z) (l : bytes) : option (json * bytes) :=
  match fuel with
  | O => None
  | S f =>
      match skip_ws l with
      | [] => None
      | c :: r =>
          if is_char c "{" then
            if maxNestingDepth <=? depth then None
            else
              match skip_ws r with
              | c' :: r' =>
                  if is_char c' "}" then Some (JObject [], r')
                  else match parse_members f (depth + 1) (c' :: r') with
                       | Some (kvs, r'') => Some (JObject kvs, r'')
                       | None => None
                       end
              | [] => None
              end
          else if is_char c "[" then
            if maxNestingDepth <=? depth then None
            else
              match skip_ws r with
              | c' :: r' =>
                  if is_char c' "]" then Some (JArray [], r')
                  else match parse_elements f (depth + 1) (c' :: r') with
                       | Some (vs, r'') => Some (JArray vs, r'')
                       | None => None
                       end
              | [] => None
              end
          else if is_char c quote_char then
            match string_body (length r) r with
            | Some (s, r') => Some (JString s, r')
            | None => None
            end
          else if is_char c "t" then
            match strip_prefix (str "rue") r with Some r' => Some (JBool true, r') | None => None end
          else if is_char c "f" then
            match strip_prefix (str "alse") r with Some r' => Some (JBool false, r') | None => None end
          else if is_char c "n" then
            match strip_prefix (str "ull") r with Some r' => Some (JNull, r') | None => None end
          else
            match scan_number (c :: r) with
            | Some (lit, r') => Some (JNumber lit, r')
            | None => None
            end
      end
  end
with parse_members (fuel : nat) (depth : Z) (l : bytes)
  : option (list (bytes * json) * bytes) :=
  match fuel with
  | O => None
  | S f =>
      match l with
      | q :: r =>
          if is_char q quote_char then
            match string_body (length r) r with
            | Some (k, r1) =>
                match skip_ws r1 with
                | colon :: r2 =>
                    if is_char colon ":" then
                      match parse_value f depth r2 with
                      | Some (v, r3) =>
                          match skip_ws r3 with
                          | d :: r4 =>
                              if is_char d "," then
                                match parse_members f depth (skip_ws r4) with
                                | Some (kvs, r5) => Some ((k, v) :: kvs, r5)
                                | None => None
                                end
                              else if is_char d "}" then Some ([(k, v)], r4)
                              else None
                          | [] => None
                          end
                      | None => None
                      end
                    else None
                | [] => None
                end
            | None => None
            end
          else None
      | [] => None
      end
  end
with parse_elements (fuel : nat) (depth : Z) (l : bytes) : option (list json * bytes) :=
  match fuel with
  | O => None
  | S f =>
      match parse_value f depth l with
      | Some (v, r1) =>
          match skip_ws r1 with
          | d :: r2 =>
              if is_char d "," then
                match parse_elements f depth r2 with
                | Some (vs, r3) => Some (v :: vs, r3)
                | None => None
                end
              else if is_char d "]" then Some ([v], r2)
              else None
          | [] => None
          end
      | None => None
      end
  end.

(** *** Storing a JSON value into a Go value ([decodeState.value]) *)

(** [foldName]: ASCII letters in upper case; U+017F (long s) and U+212A
    (Kelvin sign) are the two runes beyond ASCII whose case folding is an
    ASCII letter.  No other byte past 0x7F folds to ASCII, and it is kept. *)
Fixpoint foldName (k : bytes) : bytes :=
  match k with
  | [] => []
  | c :: r =>
      let x := byte_val c in
      if (97 <=? x) && (x <=? 122) then byte_of (x - 32) :: foldName r
      else
        match r with
        | c1 :: r1 =>
            if (x =? 0xC5) && (byte_val c1 =? 0xBF) then "S"%char :: foldName r1
            else
              match r1 with
              | c2 :: r2 =>
                  if (x =? 0xE2) && (byte_val c1 =? 0x84) && (byte_val c2 =? 0xAA)
                  then "K"%char :: foldName r2
                  else c :: foldName r
              | [] => c :: foldName r
              end
        | [] => c :: foldName r
        end
  end.

Fixpoint bytes_eqb (a b : bytes) : bool :=
  match a, b with
  | [], [] => true
  | x :: a', y :: b' => is_char x y && bytes_eqb a' b'
  | _, _ => false
  end.

(** The key [k] of an object selects the field tagged [field]. *)
Definition key_is (field : string) (k : bytes) : bool :=
  bytes_eqb (foldName k) (foldName (str field)).

(** [strconv.ParseInt(lit, 10, 64)] on a number literal. *)
Definition parse_int (lit : bytes) : option Z :=
  match NilZero.int_of_string (unstr lit) with
  | Some d => if is_int64 (Z.of_int d) then Some (Z.of_int d) else None
  | None => None
  end.

(** Each [store_*] gives the new value of a field of that Go type from a
    JSON value, [None] for an [UnmarshalTypeError]; [null] changes nothing
    in a number, a string, a boolean or a struct, and makes a slice nil. *)
Definition store_int (v : json) (cur : Z) : option Z :=
  match v with
  | JNull => Some cur
  | JNumber lit => parse_int lit
  | _ => None
  end.

Definition store_string (v : json) (cur : string) : option string :=
  match v with
  | JNull => Some cur
  | JString s => Some (unstr s)
  | _ => None
  end.

Definition store_bool (v : json) (cur : bool) : option bool :=
  match v with
  | JNull => Some cur
  | JBool b => Some b
  | _ => None
  end.

Definition store_Layer_field (cur : option Layer) (kv : bytes * json) : option Layer :=
  match cur with
  | None => None
  | Some l =>
      let '(k, v) := kv in
      if key_is "mediaType" k then
        option_map (fun s => Layer.mk s (Layer.Digest l) (Layer.Size l))
                   (store_string v (Layer.MediaType l))
      else if key_is "digest" k then
        option_map (fun s => Layer.mk (Layer.MediaType l) s (Layer.Size l))
                   (store_string v (Layer.Digest l))
      else if key_is "size" k then
        option_map (fun z => Layer.mk (Layer.MediaType l) (Layer.Digest l) z)
                   (store_int v (Layer.Size l))
      else Some l
  end.

Definition store_Layer (v : json) (cur : Layer) : option Layer :=
  match v with
  | JNull => Some cur
  | JObject kvs => fold_left store_Layer_field kvs (Some cur)
  | _ => None
  end.

(** The elements of an array are stored into the slice's backing array,
    element [i] into what the array holds at [i] (the zero value for a
    fresh element). *)
Fixpoint store_elems (vs : list json) (backing : list Layer) : option (list Layer) :=
  match vs with
  | [] => Some backing
  | v :: vs' =>
      match store_Layer v (hd Layer.zero backing) with
      | Some l =>
          match store_elems vs' (tl backing) with
          | Some ls => Some (l :: ls)
          | None => None
          end
      | None => None
      end
  end.

(** The decoded manifest with the backing array of its [Layers]. *)
Definition dstate : Type := Manifest * list Layer.

Definition set_Layers (m : Manifest) (ls : slice Layer) : Manifest :=
  Manifest.mk (Manifest.SchemaVersion m) (Manifest.MediaType m) (Manifest.Config m) ls
    (Manifest.IsAppleFoundationModel m) (Manifest.filepath m) (Manifest.fi m)
    (Manifest.digest m).

Definition store_Layers (v : json) (st : dstate) : option dstate :=
  let '(m, backing) := st in
  match v with
  | JNull => Some (set_Layers m None, [])
  | JArray [] => Some (set_Layers m (Some []), [])
  | JArray vs =>
      match store_elems vs backing with
      | Some b => Some (set_Layers m (Some (firstn (length vs) b)), b)
      | None => None
      end
  | _ => None
  end.

Definition store_Manifest_field (cur : option dstate) (kv : bytes * json) : option dstate :=
  match cur with
  | None => None
  | Some (m, backing) =>
      let '(k, v) := kv in
      if key_is "schemaVersion" k then
        option_map (fun z => (Manifest.mk z (Manifest.MediaType m) (Manifest.Config m)
                                (Manifest.Layers m) (Manifest.IsAppleFoundationModel m)
                                (Manifest.filepath m) (Manifest.fi m) (Manifest.digest m), backing))
                   (store_int v (Manifest.SchemaVersion m))
      else if key_is "mediaType" k then
        option_map (fun s => (Manifest.mk (Manifest.SchemaVersion m) s (Manifest.Config m)
                                (Manifest.Layers m) (Manifest.IsAppleFoundationModel m)
                                (Manifest.filepath m) (Manifest.fi m) (Manifest.digest m), backing))
                   (store_string v (Manifest.MediaType m))
      else if key_is "config" k then
        option_map (fun c => (Manifest.mk (Manifest.SchemaVersion m) (Manifest.MediaType m) c
                                (Manifest.Layers m) (Manifest.IsAppleFoundationModel m)
                                (Manifest.filepath m) (Manifest.fi m) (Manifest.digest m), backing))
                   (store_Layer v (Manifest.Config m))
      else if key_is "layers" k then store_Layers v (m, backing)
      else if key_is "IsAppleFoundationModel" k then
        option_map (fun b => (Manifest.mk (Manifest.SchemaVersion m) (Manifest.MediaType m)
                                (Manifest.Config m) (Manifest.Layers m) b
                                (Manifest.filepath m) (Manifest.fi m) (Manifest.digest m), backing))
                   (store_bool v (Manifest.IsAppleFoundationModel m))
      else Some (m, backing)
  end.

(** [d.unmarshal(&m)] for [var m Manifest]. *)
Definition unmarshal_Manifest (v : json) : option Manifest :=
  match v with
  | JNull => Some Manifest.zero
  | JObject kvs =>
      option_map fst (fold_left store_Manifest_field kvs (Some (Manifest.zero, [])))
  | _ => None
  end.

(** *** [Decoder.Decode] over a reader *)

(** The decoder reads its input into a buffer that grows from 512 bytes to
    [2 * cap + 512], one [Read] per growth, until the scanner has seen the
    end of the first value: [window need] is the size of the buffer once it
    holds [need] bytes. *)
Fixpoint window_from (fuel cap need : nat) : nat :=
  match fuel with
  | O => cap
  | S f => if (need <=? cap)%nat then cap else window_from f (2 * cap + 512) need
  end.

Definition window (need : nat) : nat := window_from need 512 need.

Definition composite (v : json) : bool :=
  match v with
  | JObject _ | JArray _ => true
  | _ => false
  end.

Inductive decode_error := SyntaxError | UnmarshalTypeError.

(** [json.NewDecoder(r).Decode(&m)] on a reader that yields [file]: the
    result and the bytes the decoder has read from [r] when it returns.
    [SyntaxError] stands for [*json.SyntaxError], [io.EOF] and
    [io.ErrUnexpectedEOF] alike.  The end of an object or an array is known
    at its closing bracket; the end of any other value only at the byte
    after it (or at the end of the input). *)
Definition Decoder_Decode (file : bytes) : (decode_error + Manifest) * bytes :=
  match parse_value (S (length file)) 0 file with
  | None => (inl SyntaxError, file)
  | Some (v, rest) =>
      let n := (length file - length rest)%nat in
      let need := if composite v then n else S n in
      (match unmarshal_Manifest v with
       | Some m => inr m
       | None => inl UnmarshalTypeError
       end, firstn (window need) file)
  end.


(** ** The world the store runs in: files, environment, log *)

Inductive errno := ENOENT | EISDIR | ENOTDIR | ENOTEMPTY | EEXIST | ELOOP.

Inductive error :=
| ErrUnqualifiedName (n : string)               (* model.Unqualified(n) *)
| PathError (op : string) (p : path) (e : errno) (* *fs.PathError *)
| DecodeError (e : decode_error)                (* from Decoder.Decode *)
| Errorf (text : string)                        (* fmt.Errorf(text), no error wrapped *)
| Wrapf (text : string) (wrapped : error)       (* fmt.Errorf("text %w", err) *)
| ErrOther (text : string).

Inductive result (A : Type) :=
| Ok (a : A)
| Err (e : error).
Arguments Ok {A} a.
Arguments Err {A} e.

(** A directory entry: a regular file with its content, mode and
    modification time, a directory, or a symbolic link that cannot be
    resolved (it is listed, and [stat] and [open] fail on it). *)
Inductive node :=
| File (content : bytes) (mode mtime : Z)
| Dir
| BadLink.

Inductive access :=
| AStat (p : path) | AOpen (p : path) | ARead (p : path) | ARemove (p : path)
| AMkdirAll (p : path) | ACreate (p : path) | AWrite (p : path) | AGlob (p : path).

Inductive level := Debug | Info | Warn.

Record World := mkWorld {
  fs : gmap path node;
  env : gmap string string;
  clock : Z;
  umask : Z;
  accesses : list access;   (* the file-system calls made so far, latest first *)
  logged : list (level * string) (* the records given to slog, latest first *) }.

#[global] Instance errno_eq_dec : EqDecision errno.
Proof. solve_decision. Defined.
#[global] Instance decode_error_eq_dec : EqDecision decode_error.
Proof. solve_decision. Defined.
#[global] Instance error_eq_dec : EqDecision error.
Proof. solve_decision. Defined.
#[global] Instance result_eq_dec {A} `{EqDecision A} : EqDecision (result A).
Proof. solve_decision. Defined.
#[global] Instance node_eq_dec : EqDecision node.
Proof. solve_decision. Defined.
#[global] Instance access_eq_dec : EqDecision access.
Proof. solve_decision. Defined.
#[global] Instance level_eq_dec : EqDecision level.
Proof. solve_decision. Defined.
#[global] Instance World_eq_dec : EqDecision World.
Proof. solve_decision. Defined.
#[global] Instance Layer_eq_dec : EqDecision Layer.
Proof. solve_decision. Defined.
#[global] Instance FileInfo_eq_dec : EqDecision FileInfo.
Proof. solve_decision. Defined.
#[global] Instance Manifest_eq_dec : EqDecision Manifest.
Proof. solve_decision. Defined.

(** Computations that read and change the world and may fail. *)
Definition M (A : Type) : Type := World -> result A * World.

Definition ret {A} (a : A) : M A := fun w => (Ok a, w).
Definition fail {A} (e : error) : M A := fun w => (Err e, w).
Definition bind {A B} (m : M A) (k : A -> M B) : M B :=
  fun w => match m w with
           | (Ok a, w') => k a w'
           | (Err e, w') => (Err e, w')
           end.

Notation "'do' x <- m ; k" := (bind m (fun x => k))
  (at level 10, x name, m at level 100, k at level 200).
Notation "'run' m ; k" := (bind m (fun _ => k))
  (at level 10, m at level 100, k at level 200).

Definition set_fs (f : gmap path node) (w : World) : World :=
  mkWorld f (env w) (clock w) (umask w) (accesses w) (logged w).
Definition touch (a : access) (w : World) : World :=
  mkWorld (fs w) (env w) (clock w) (umask w) (a :: accesses w) (logged w).
Definition slog (l : level) (msg : string) : M unit :=
  fun w => (Ok tt, mkWorld (fs w) (env w) (clock w) (umask w) (accesses w)
                           ((l, msg) :: logged w)).

Definition base_name (p : path) : string := List.last p "".

Definition info_of (p : path) (n : node) : option FileInfo :=
  match n with
  | File c mode mtime =>
      Some (mkFileInfo (base_name p) (Z.of_nat (length c)) mode mtime false)
  | Dir => Some (mkFileInfo (base_name p) 0 493 0 true)
  | BadLink => None
  end.

Definition no_path (p : path) : bool :=
  match p with
  | [] => true
  | _ => false
  end.

(** What stands in the way to the path [done ++ todo], [done] being
    passed: the first entry above the path that is not a directory (a
    regular file, a link that cannot be resolved) or that is missing. *)
Fixpoint above (f : gmap path node) (done todo : path) : option errno :=
  match todo with
  | [] => None
  | x :: rest =>
      match rest with
      | [] => None
      | _ :: _ =>
          match f !! (done ++ [x]) with
          | Some Dir => above f (done ++ [x]) rest
          | Some (File _ _ _) => Some ENOTDIR
          | Some BadLink => Some ELOOP
          | None => Some ENOENT
          end
      end
  end.

(** The entry a path leads to, through the directories above it. *)
Definition entry (f : gmap path node) (p : path) : errno + node :=
  match above f [] p with
  | Some e => inl e
  | None =>
      match f !! p with
      | Some n => inr n
      | None => inl ENOENT
      end
  end.

(** [os.Stat]: no entry at the empty path. *)
Definition os_Stat (p : path) : M FileInfo :=
  fun w =>
    let w' := touch (AStat p) w in
    if no_path p then (Err (PathError "stat" p ENOENT), w')
    else
      match entry (fs w) p with
      | inl e => (Err (PathError "stat" p e), w')
      | inr n =>
          match info_of p n with
          | Some i => (Ok i, w')
          | None => (Err (PathError "stat" p ELOOP), w')
          end
      end.

(** [os.Open]: the file handle is the entry that was opened. *)
Definition os_Open (p : path) : M node :=
  fun w =>
    let w' := touch (AOpen p) w in
    if no_path p then (Err (PathError "open" p ENOENT), w')
    else
      match entry (fs w) p with
      | inl e => (Err (PathError "open" p e), w')
      | inr BadLink => (Err (PathError "open" p ELOOP), w')
      | inr n => (Ok n, w')
      end.

(** [f.Stat()] on an open file. *)
Definition File_Stat (p : path) (f : node) : M FileInfo :=
  fun w =>
    match info_of p f with
    | Some i => (Ok i, w)
    | None => (Err (PathError "stat" p ELOOP), w)
    end.

Definition is_prefix (p q : path) : bool :=
  bool_decide (take (length p) q = p).

Definition has_entries (f : gmap path node) (p : path) : bool :=
  existsb (fun q => is_prefix p q && negb (bool_decide (q = p))) (map fst (map_to_list f)).

(** [os.Remove]: a file, a link or an empty directory. *)
Definition os_Remove (p : path) : M unit :=
  fun w =>
    let w' := touch (ARemove p) w in
    if no_path p then (Err (PathError "remove" p ENOENT), w')
    else
      match entry (fs w) p with
      | inl e => (Err (PathError "remove" p e), w')
      | inr Dir =>
          if has_entries (fs w) p then (Err (PathError "remove" p ENOTEMPTY), w')
          else (Ok tt, set_fs (delete p (fs w)) w')
      | inr _ => (Ok tt, set_fs (delete p (fs w)) w')
      end.

(** The directories [os.MkdirAll(p)] makes, from the outermost on; the
    empty path is the current directory, which exists. *)
Fixpoint mkdirs (f : gmap path node) (done todo : path) : errno + gmap path node :=
  match todo with
  | [] => inr f
  | d :: todo' =>
      let q := done ++ [d] in
      match f !! q with
      | None => mkdirs (<[q := Dir]> f) q todo'
      | Some Dir => mkdirs f q todo'
      | Some (File _ _ _) => inl ENOTDIR
      | Some BadLink => inl EEXIST
      end
  end.

Definition os_MkdirAll (p : path) : M unit :=
  fun w =>
    let w' := touch (AMkdirAll p) w in
    match mkdirs (fs w) [] p with
    | inr f => (Ok tt, set_fs f w')
    | inl e => (Err (PathError "mkdir" p e), w')
    end.

(** [os.Create]: the file is made, or cut to length zero, in a directory
    that exists. *)
Definition os_Create (p : path) : M unit :=
  fun w =>
    let w' := touch (ACreate p) w in
    if no_path p then (Err (PathError "open" p ENOENT), w')
    else
      match entry (fs w) p with
      | inr Dir => (Err (PathError "open" p EISDIR), w')
      | inr BadLink => (Err (PathError "open" p ELOOP), w')
      | inr (File _ mode _) => (Ok tt, set_fs (<[p := File [] mode (clock w)]> (fs w)) w')
      | inl _ =>
          let made := set_fs (<[p := File [] (Z.land 438 (Z.lnot (umask w))) (clock w)]> (fs w)) w' in
          if no_path (filepath_Dir p) then (Ok tt, made)
          else
            match entry (fs w) (filepath_Dir p) with
            | inr Dir => (Ok tt, made)
            | inr (File _ _ _) => (Err (PathError "open" p ENOTDIR), w')
            | inr BadLink => (Err (PathError "open" p ELOOP), w')
            | inl e => (Err (PathError "open" p e), w')
            end
      end.

(** [f.Write(b)] on the file [os.Create] returned. *)
Definition File_Write (p : path) (b : bytes) : M unit :=
  fun w =>
    let w' := touch (AWrite p) w in
    match fs w !! p with
    | Some (File c mode _) => (Ok tt, set_fs (<[p := File (c ++ b) mode (clock w)]> (fs w)) w')
    | _ => (Err (PathError "write" p ENOENT), w')
    end.

Fixpoint insert_sorted (s : string) (l : list string) : list string :=
  match l with
  | [] => [s]
  | x :: l' => if String.leb s x then s :: l else x :: insert_sorted s l'
  end.

(** The names in the directory [p], sorted as [sort.Strings] sorts them. *)
Definition Readdirnames (f : gmap path node) (p : path) : list string :=
  foldr insert_sorted []
    (omap (fun q => if bool_decide (removelast q = p ∧ q ≠ []) then Some (List.last q "") else None)
          (map fst (map_to_list f))).

(** [os.Stat] finds a directory at [p]; the empty path is the current
    directory. *)
Definition dir_at (f : gmap path node) (p : path) : bool :=
  if no_path p then true
  else match entry f p with
       | inr Dir => true
       | _ => false
       end.

(** The matches of a pattern that ends in [n] stars below the paths
    [found]: level by level, reading the directories among the matches of
    the level above. *)
Fixpoint glob_levels (f : gmap path node) (n : nat) (found : list path) : list path :=
  match n with
  | O => found
  | S n' =>
      glob_levels f n'
        (flat_map (fun d => if dir_at f d
                            then map (fun x => d ++ [x]) (Readdirnames f d)
                            else []) found)
  end.

(** [hasMeta]: the path element holds a character that [filepath.Match]
    gives a meaning to. *)
Definition hasMeta (s : string) : bool :=
  existsb (fun c => is_char c "*" || is_char c "?" || is_char c "[" || is_char c backslash)
          (str s).

(** The elements of two paths after the elements they share. *)
Fixpoint after_common (base target : path) : path * path :=
  match base, target with
  | b :: base', t :: target' =>
      if String.eqb b t then after_common base' target' else (base, target)
  | _, _ => (base, target)
  end.

(** [filepath.Rel(base, target)] for two clean paths, both relative or
    both absolute: up from what is left of the base, then down what is
    left of the target; there is no way up from a [..]. *)
Definition filepath_Rel (base target : path) : result path :=
  match after_common base target with
  | ([], []) => Ok ["."%string]
  | (b, t) =>
      if String.eqb (hd ""%string b) ".." && negb (no_path t)
      then Err (ErrOther (String.append "Rel: can't make "
                            (String.append (path_string target)
                               (String.append " relative to " (path_string base)))))
      else Ok (map (fun _ => ".."%string) b ++ t)
  end.

Definition os_Getenv (k : string) : M string :=
  fun w => (Ok (default "" (env w !! k)), w).

Definition time_Now : M Z := fun w => (Ok (clock w), w).

(** ** What the store takes from the rest of the repository

    [model.Name] and its methods, [GetManifestPath], [PruneDirectory] and
    the type [ConfigV2] are declared outside [src/]: the store is
    modelled over any implementation of them.  One part of the Go library
    is left open in the same way: what [filepath.Glob] returns when the
    root of the store holds pattern characters of its own, the error of a
    malformed pattern or the expansion of a well-formed one. *)
Class Collaborators := {
  Name : Type;
  Name_eq_dec :: EqDecision Name;
  Name_countable :: Countable Name;
  IsFullyQualified : Name -> bool;          (* n.IsFullyQualified() *)
  IsValid : Name -> bool;                   (* n.IsValid() *)
  Filepath : Name -> path;                  (* n.Filepath() *)
  NameString : Name -> string;              (* n.String() *)
  ParseNameFromFilepath : path -> Name;     (* model.ParseNameFromFilepath *)
  ParseName : string -> Name;               (* model.ParseName *)
  GetManifestPath : M path;
  PruneDirectory : path -> M unit;
  Marshal_ConfigV2 : result bytes;          (* json.Marshal(config) *)
  (* filepath.Glob(filepath.Join(root, "*", "*", "*", "*")) on a file
     system, for a root that holds pattern characters *)
  Glob_pattern_root : path -> gmap path node -> result (list path)
}.

Section Store.
Context {C : Collaborators}.

(** [model.Unqualified(n)] *)
Definition Unqualified (n : Name) : error := ErrUnqualifiedName (NameString n).

Definition manifest_MediaType : string :=
  "application/vnd.docker.distribution.manifest.v2+json".

(** [json.NewDecoder(io.TeeReader(f, sha256sum)).Decode(&m)]: the decoded
    manifest and the bytes that went through the tee. *)
Definition Decode_tee (p : path) (f : node) : M (Manifest * bytes) :=
  fun w =>
    let w' := touch (ARead p) w in
    match f with
    | File c _ _ =>
        match Decoder_Decode c with
        | (inr m, read) => (Ok (m, read), w')
        | (inl e, _) => (Err (DecodeError e), w')
        end
    | _ => (Err (PathError "read" p EISDIR), w')
    end.

(** [filepath.Glob(filepath.Join(root, "*", "*", "*", "*"))]: below a
    root with no pattern character the matches are the entries four levels
    down, through directories that can be reached, and there is no error;
    a root with pattern characters is expanded, or refused as a malformed
    pattern, by [Glob_pattern_root]. *)
Definition filepath_Glob4 (root : path) : M (list path) :=
  fun w =>
    (if existsb hasMeta root then Glob_pattern_root root (fs w)
     else Ok (glob_levels (fs w) 4 (if dir_at (fs w) root then [root] else [])),
     touch (AGlob root) w).

(** [func ParseNamedManifest(n model.Name)], returning a manifest or an error *)
Definition ParseNamedManifest (n : Name) : M Manifest :=
  if negb (IsFullyQualified n) then fail (Unqualified n)
  else
    do manifests <- GetManifestPath;
    let p := filepath_Join manifests (Filepath n) in
    do f <- os_Open p;
    do fi <- File_Stat p f;
    do dm <- Decode_tee p f;
    ret (Manifest.mk (Manifest.SchemaVersion (fst dm)) (Manifest.MediaType (fst dm))
           (Manifest.Config (fst dm)) (Manifest.Layers (fst dm))
           (Manifest.IsAppleFoundationModel (fst dm))
           p (Some fi) (hex_EncodeToString (sha256_Sum256 (snd dm)))).

(** [func WriteManifest(name model.Name, config Layer, layers []Layer) error] *)
Definition WriteManifest (name : Name) (config : Layer) (layers : slice Layer) : M unit :=
  do manifests <- GetManifestPath;
  let p := filepath_Join manifests (Filepath name) in
  run os_MkdirAll (filepath_Dir p);
  run os_Create p;
  let m := Manifest.mk 2 manifest_MediaType config layers false [] None "" in
  File_Write p (Encoder_Encode m).

(** [func Remove() error] on a [Manifest] *)
Definition Remove (m : Manifest) : M unit :=
  run os_Remove (Manifest.filepath m);
  do manifests <- GetManifestPath;
  PruneDirectory manifests.

(** [func GenerateFakeDigest(name string) string] *)
Definition GenerateFakeDigest (name : string) : string :=
  hex_EncodeToString (sha256_Sum256 (str (String.append "apple:" name))).

Definition newline : string := String "010" EmptyString.

Definition templateData : string :=
  String.concat newline
    [ "{{ if .System }}<|im_start|>system";
      "{{ .System }}<|im_end|>";
      "{{ end }}{{ if .Prompt }}<|im_start|>user";
      "{{ .Prompt }}<|im_end|>";
      "<|im_start|>assistant";
      "{{ end }}{{ .Response }}<|im_end|>" ].

(** [reflect]: [FieldByName] finds the fields of [Manifest]; [CanSet] holds
    of an addressable value that was not reached through an unexported
    field, one whose name starts with a lower-case letter. *)
Definition Manifest_fields : list string :=
  [ "SchemaVersion"; "MediaType"; "Config"; "Layers"; "IsAppleFoundationModel";
    "filepath"; "fi"; "digest" ].

Definition FieldByName_IsValid (f : string) : bool := bool_decide (f ∈ Manifest_fields).

Definition CanSet (f : string) : bool :=
  match f with
  | String c _ => in_range 65 90 c
  | EmptyString => false
  end.

Definition set_filepath (m : Manifest) (p : path) : Manifest :=
  Manifest.mk (Manifest.SchemaVersion m) (Manifest.MediaType m) (Manifest.Config m)
    (Manifest.Layers m) (Manifest.IsAppleFoundationModel m) p (Manifest.fi m)
    (Manifest.digest m).

Definition set_fi (m : Manifest) (i : FileInfo) : Manifest :=
  Manifest.mk (Manifest.SchemaVersion m) (Manifest.MediaType m) (Manifest.Config m)
    (Manifest.Layers m) (Manifest.IsAppleFoundationModel m) (Manifest.filepath m) (Some i)
    (Manifest.digest m).

(** [func createAppleManifests() (map[model.Name]*Manifest, error)] *)
Definition createAppleManifests : M (gmap Name Manifest) :=
  let name := ParseName "apple" in
  if negb (IsValid name) then fail (Errorf "invalid model name")
  else
    let fakeDigest := GenerateFakeDigest "apple" in
    match Marshal_ConfigV2 with
    | Err e => fail (Wrapf "failed to marshal config: " e)
    | Ok configData =>
        let configLayer :=
          Layer.mk "application/vnd.ollama.image.config" fakeDigest
                   (Z.of_nat (length configData)) in
        let modelLayer :=
          Layer.mk "application/vnd.ollama.image.applefoundationmodel" fakeDigest
                   (1024 * 1024) in
        let templateLayer :=
          Layer.mk "application/vnd.ollama.image.template" fakeDigest
                   (Z.of_nat (String.length templateData)) in
        let manifest :=
          Manifest.mk 2 manifest_MediaType configLayer (Some [modelLayer; templateLayer])
                      true [] None "" in
        let manifest :=
          if FieldByName_IsValid "filepath" && CanSet "filepath"
          then set_filepath manifest [] else manifest in
        do manifest <-
          (if FieldByName_IsValid "fi" && CanSet "fi"
           then (do now <- time_Now;
                 ret (set_fi manifest
                        (mkFileInfo (path_string (Filepath name)) (Size manifest) 420 now false)))
           else ret manifest);
        run slog Info "registered Apple Foundation Model";
        ret ({[ name := manifest ]} : gmap Name Manifest)
    end.

(** The loop of [Manifests] over the matches of the glob. *)
Fixpoint Manifests_loop (manifests : path) (continueOnError : bool)
    (matches : list path) (ms : gmap Name Manifest) : M (gmap Name Manifest) :=
  match matches with
  | [] => ret ms
  | match_ :: rest =>
      do fi <- os_Stat match_;
      if negb (fi_IsDir fi) then
        match filepath_Rel manifests match_ with
        | Err err =>
            if negb continueOnError
            then fail (Wrapf (path_string match_) err)
            else run slog Warn "bad filepath";
                 Manifests_loop manifests continueOnError rest ms
        | Ok rel =>
            let n := ParseNameFromFilepath rel in
            if negb (IsValid n) then
              if negb continueOnError
              then fail (Errorf (path_string rel)) (* the wrapped err is nil here *)
              else run slog Warn "bad manifest name";
                   Manifests_loop manifests continueOnError rest ms
            else
              fun w =>
                match ParseNamedManifest n w with
                | (Err err, w') =>
                    if negb continueOnError
                    then (Err (Wrapf (NameString n) err), w')
                    else (run slog Warn "bad manifest";
                          Manifests_loop manifests continueOnError rest ms) w'
                | (Ok m, w') =>
                    Manifests_loop manifests continueOnError rest (<[n := m]> ms) w'
                end
        end
      else Manifests_loop manifests continueOnError rest ms
  end.

(** The part of [Manifests] after the loop (["Add models"]). *)
Definition Manifests_models (continueOnError : bool) (ms : gmap Name Manifest)
  : M (gmap Name Manifest) :=
  do v <- os_Getenv "OLLAMA_ENABLE_APPLE_FOUNDATION_MODEL";
  let appleFoundationModelEnabled := bool_decide (v = "1") in
  run slog Info "check for Apple Foundation Models";
  if appleFoundationModelEnabled then
    fun w =>
      match createAppleManifests w with
      | (Err err, w') =>
          if negb continueOnError
          then (Err (Wrapf "failed to get models: " err), w')
          else (run slog Warn "failed to get models"; ret ms) w'
      | (Ok manifests, w') =>
          (* for name, manifest := range manifests { ms[name] = manifest } *)
          (Ok (manifests ∪ ms), w')
      end
  else ret ms.

(** [func Manifests(continueOnError bool) (map[model.Name]*Manifest, error)] *)
Definition Manifests (continueOnError : bool) : M (gmap Name Manifest) :=
  do manifests <- GetManifestPath;
  do matches <- filepath_Glob4 manifests;
  do ms <- Manifests_loop manifests continueOnError matches ∅;
  Manifests_models continueOnError ms.

End Store.

(** The value a computation returned, [d] if it failed. *)
Definition returned {A} (d : A) (r : result A) : A :=
  match r with
  | Ok a => a
  | Err _ => d
  end.

(** ** The runner of the Apple Foundation Model (package [proprietary]) *)

Module Server.

(** The conversion [rune(token)] of an [int] to an [int32]: the low 32
    bits, in two's complement. *)
Definition rune_of_int (token : Z) : Z := (token + 2 ^ 31) mod 2 ^ 32 - 2 ^ 31.

(** [for i, char := range content]: the byte offset and the rune of each
    turn, from offset [i] on; a byte that starts no well-formed encoding
    gives U+FFFD and is one byte wide. *)
Fixpoint range_string (fuel i : nat) (content : bytes) : list (nat * Z) :=
  match fuel with
  | O => []
  | S f =>
      match content with
      | [] => []
      | _ :: t =>
          match utf8_DecodeRune content with
          | Some (char, n) => (i, char) :: range_string f (i + n) (skipn n content)
          | None => (i, 0xFFFD) :: range_string f (i + 1) t
          end
      end
  end.

(** [func (s *Server) Tokenize(ctx context.Context, content string) ([]int, error)]:
    the tokens; the error is nil.  [make([]int, len(content))] has one
    zero for each byte, and [tokens[i] = int(char)] stores the rune at the
    offset of its first byte.  ([s.ready.Wait()] returns once the loading
    that [NewServer] started is done.) *)
Definition Tokenize (content : string) : list Z :=
  fold_left (fun tokens ic => <[fst ic := snd ic]> tokens)
            (range_string (String.length content) 0 (str content))
            (replicate (String.length content) 0).

(** [func (s *Server) Detokenize(ctx context.Context, tokens []int) (string, error)]:
    the content; the error is nil.  [string(content)] encodes each rune in
    UTF-8, U+FFFD for a value that is no rune. *)
Definition Detokenize (tokens : list Z) : string :=
  unstr (flat_map (fun token => utf8_EncodeRune (rune_of_int token)) tokens).

(** [llm.ServerStatus] is declared outside [src/]: the runner stores and
    compares three of its values. *)
Inductive ServerStatus :=
| ServerStatusLoadingModel
| ServerStatusReady
| ServerStatusError.

#[global] Instance ServerStatus_eq_dec : EqDecision ServerStatus.
Proof. solve_decision. Defined.

(** [type Server struct]: the fields the methods read and write; [ready]
    and [mu] are the synchronisation described below, [records] the
    messages given to the logger, latest first.  [progress] holds 0 or
    1.0. *)
Record t := mk {
  modelName : string;
  status : ServerStatus;
  progress : Z;
  records : list string }.

(** [func NewServer(modelName string) *Server]: the server it returns.
    The goroutine it starts runs [loaded] once, at some later time. *)
Definition NewServer (modelName : string) : t :=
  mk modelName ServerStatusLoadingModel 0 [].

(** The goroutine of [NewServer], after its sleep: it takes [mu], stores
    the status and the progress, and logs. *)
Definition loaded (s : t) : t :=
  mk (modelName s) ServerStatusReady 1 ("loaded"%string :: records s).

(** [func (s *Server) Ping(ctx context.Context) error]: [None] for nil,
    [Some st] for the error that reports the status [st]. *)
Definition Ping (s : t) : option ServerStatus :=
  if bool_decide (status s <> ServerStatusReady) then Some (status s) else None.

(** [func (s *Server) Close() error]: the server after the call; the error
    is nil. *)
Definition Close (s : t) : t :=
  mk (modelName s) ServerStatusError (progress s) ("closed"%string :: records s).

(** The calls made on a server.  [Ping] and [Close] hold [mu] from their
    first statement to their return, and so does the goroutine while it
    stores: a run of the server is a sequence of these steps. *)
Inductive call := CallPing | CallClose.

Definition after_call (s : t) (c : call) : t :=
  match c with
  | CallPing => s
  | CallClose => Close s
  end.

Definition after_calls (s : t) (cs : list call) : t := fold_left after_call cs s.

Definition is_Close (c : call) : bool :=
  match c with
  | CallClose => true
  | CallPing => false
  end.

End Server.

(** ** Removing the layers of a manifest *)

(** [errors.Is(err, os.ErrNotExist)]. *)
Fixpoint is_ErrNotExist (e : error) : bool :=
  match e with
  | PathError _ _ ENOENT => true
  | Wrapf _ wrapped => is_ErrNotExist wrapped
  | _ => false
  end.

Section Layers.
(** [func (l *Layer) Remove() error] is declared outside [src/]. *)
Variable Layer_Remove : Layer -> M unit.

(** The loop of [RemoveLayers]. *)
Fixpoint RemoveLayers_loop (layers : list Layer) : M unit :=
  match layers with
  | [] => ret tt
  | layer :: rest =>
      if negb (String.eqb (Layer.Digest layer) "") then
        fun w =>
          match Layer_Remove layer w with
          | (Err err, w') =>
              if is_ErrNotExist err
              then (run slog Debug "layer does not exist"; RemoveLayers_loop rest) w'
              else (Err err, w')
          | (Ok _, w') => RemoveLayers_loop rest w'
          end
      else RemoveLayers_loop rest
  end.

(** [func (m *Manifest) RemoveLayers() error] *)
Definition RemoveLayers (m : Manifest) : M unit :=
  RemoveLayers_loop (elems (append (Manifest.Layers m) (Manifest.Config m))).

End Layers.

(** ** An implementation of the collaborators

    Names of four parts laid out as [host/namespace/model/tag], a store
    rooted at [models/manifests], and a pruner that leaves the directories
    in place. *)
Module Demo.

Record name := mkName { host : string; namespace : string; model : string; tag : string }.

#[export] Instance name_eq_dec : EqDecision name.
Proof. solve_decision. Defined.

#[export] Instance name_countable : Countable name :=
  inj_countable' (fun n => (host n, namespace n, model n, tag n))
                 (fun t => match t with (h, ns, m, t) => mkName h ns m t end)
                 (fun n => match n with mkName _ _ _ _ => eq_refl end).

Definition nonempty (s : string) : bool := negb (String.eqb s "").

Definition isFullyQualified (n : name) : bool :=
  nonempty (host n) && nonempty (namespace n) && nonempty (model n) && nonempty (tag n).

(** A part is valid when it is not empty and holds no space. *)
Definition valid_part (s : string) : bool :=
  nonempty s && negb (existsb (fun c => is_char c " ") (str s)).

Definition isValid (n : name) : bool :=
  valid_part (host n) && valid_part (namespace n) && valid_part (model n) && valid_part (tag n).

Definition parseNameFromFilepath (p : path) : name :=
  match p with
  | [h; ns; m; t] => mkName h ns m t
  | _ => mkName "" "" "" ""
  end.

Definition root : path := ["models"; "manifests"].

#[export] Instance collaborators : Collaborators := {|
  Name := name;
  IsFullyQualified := isFullyQualified;
  IsValid := isValid;
  Filepath n := filter (fun s => nonempty s = true) [host n; namespace n; model n; tag n];
  NameString n :=
    String.append (String.concat "/" [host n; namespace n; model n])
                  (String.append ":" (tag n));
  ParseNameFromFilepath := parseNameFromFilepath;
  ParseName s := mkName "registry.ollama.ai" "library" s "latest";
  GetManifestPath := run os_MkdirAll root; ret root;
  PruneDirectory _ := ret tt;
  Marshal_ConfigV2 := Ok (str "{}");
  (* the root has no pattern character *)
  Glob_pattern_root _ _ := Err (ErrOther "syntax error in pattern")
|}.

Definition demo : name := mkName "registry.ollama.ai" "library" "demo" "latest".
Definition apple : name := mkName "registry.ollama.ai" "library" "apple" "latest".
Definition untagged : name := mkName "registry.ollama.ai" "library" "demo" "".

Definition empty_world : World := mkWorld ∅ ∅ 0 18 [] [].

Definition config : Layer := Layer.mk "cfg" "sha256:aa" 10.
Definition weights : Layer := Layer.mk "weights" "sha256:bb" 2048.

(** The world after [WriteManifest(demo, config, [weights])]. *)
Definition written_world : World := snd (WriteManifest demo config (Some [weights]) empty_world).

Definition plant (p : path) (n : node) (w : World) : World := set_fs (<[p := n]> (fs w)) w.

Definition library : path := root ++ ["registry.ollama.ai"; "library"].
Definition p_latest : path := library ++ ["demo"; "latest"].
Definition p_cut : path := library ++ ["demo"; "cut"].
Definition p_old : path := library ++ ["demo"; "old tag"].
Definition p_linked : path := library ++ ["demo"; "linked"].

(** The store with the demo manifest and, beside it, a manifest cut short
    and a manifest under a name with a space. *)
Definition damaged_world : World :=
  plant p_cut (File (str "{") 420 0)
    (plant p_old (File (Encoder_Encode demo_manifest) 420 0) written_world).

(** The store with the demo manifest and a link that cannot be resolved. *)
Definition linked_world : World :=
  plant p_linked BadLink written_world.

(** The listing of [linked_world] up to the link. *)
Definition linked_w0 : World := snd (GetManifestPath linked_world).
Definition linked_loop : result (gmap Name Manifest) * World :=
  Manifests_loop root true [p_latest] ∅ (touch (AGlob root) linked_w0).
Definition linked_ms : gmap Name Manifest := returned ∅ (fst linked_loop).
Definition linked_w1 : World := snd linked_loop.
Definition linked_w2 : World := snd (os_Stat p_linked linked_w1).

(** The listing of [damaged_world] at its first match, the manifest cut
    short. *)
Definition damaged_w0 : World := snd (GetManifestPath damaged_world).
Definition damaged_w1 : World := touch (AGlob root) damaged_w0.
Definition damaged_w2 : World := snd (os_Stat p_cut damaged_w1).
Definition cut : name := mkName "registry.ollama.ai" "library" "demo" "cut".
Definition damaged_w3 : World := snd (ParseNamedManifest cut damaged_w2).

(** The same listing at its last match, the name with a space. *)
Definition damaged_loop : result (gmap Name Manifest) * World :=
  Manifests_loop root true [p_cut; p_latest] ∅ damaged_w1.
Definition damaged_w4 : World := snd (os_Stat p_old (snd damaged_loop)).

(** The store with a manifest file that sets the marker of synthetic
    manifests. *)
Definition marked_file : bytes :=
  str "{" ++ appendString "IsAppleFoundationModel" ++ str ":true}".
Definition marked_world : World := plant p_latest (File marked_file 420 0) written_world.
Definition marked_manifest : Manifest :=
  returned Manifest.zero (fst (ParseNamedManifest demo marked_world)).

(** The store with a manifest file under the name of the synthetic model,
    and the synthetic models switched on or off. *)
Definition apple_world (flag : string) : World :=
  let w := snd (WriteManifest apple config (Some [weights]) empty_world) in
  mkWorld (fs w) (<["OLLAMA_ENABLE_APPLE_FOUNDATION_MODEL" := flag]> (env w))
          (clock w) (umask w) (accesses w) (logged w).

End Demo.

(** ** The vocabulary of the properties *)

(** The sum of the sizes of a list of layers, in unbounded integers. *)
Definition sum_sizes (ls : list Layer) : Z := fold_right Z.add 0 (map Layer.Size ls).

(** The hexadecimal SHA-256 of [apple:apple]. *)
Definition apple_digest : string :=
  "e3c1f162f9719e1bd1abdafe75003d632c70eb52bedc907269d012f221b970d5".

(** The manifest [createAppleManifests] registers, given the marshalled
    config: the reflective stores into [filepath] and [fi] are not made,
    both fields being unexported. *)
Definition apple_manifest (configData : bytes) : Manifest :=
  Manifest.mk 2 manifest_MediaType
    (Layer.mk "application/vnd.ollama.image.config" apple_digest (Z.of_nat (length configData)))
    (Some [ Layer.mk "application/vnd.ollama.image.applefoundationmodel" apple_digest 1048576;
            Layer.mk "application/vnd.ollama.image.template" apple_digest 181 ])
    true [] None "".

(** The environment variable that switches the synthetic models on. *)
Definition flag : string := "OLLAMA_ENABLE_APPLE_FOUNDATION_MODEL".

(** The switch as [Manifests] reads it. *)
Definition enabled (w : World) : bool := bool_decide (default ""%string (env w !! flag) = "1"%string).

(** The world once [Manifests] has logged that it checks for the models. *)
Definition announced (w : World) : World :=
  snd (slog Info "check for Apple Foundation Models" w).

(** The input after a number literal does not go on with the literal. *)
Definition ends_number (rest : bytes) : bool :=
  match rest with
  | [] => true
  | c :: _ => negb (isDigit c || is_char c "." || is_char c "e" || is_char c "E")
  end.

(** The layers that are decoded as they were encoded: strings of
    well-formed UTF-8 and an int64 size. *)
Definition Layer_ok (l : Layer) : bool :=
  utf8_ValidString (Layer.MediaType l) && utf8_ValidString (Layer.Digest l)
  && is_int64 (Layer.Size l).

(** The JSON value the encoder writes for a layer. *)
Definition json_of_Layer (l : Layer) : json :=
  JObject [ (str "mediaType", JString (str (Layer.MediaType l)));
            (str "digest", JString (str (Layer.Digest l)));
            (str "size", JNumber (appendInt (Layer.Size l))) ].

(** The JSON value the encoder writes for a slice of layers. *)
Definition json_of_Layers (ls : slice Layer) : json :=
  match ls with
  | None => JNull
  | Some l => JArray (map json_of_Layer l)
  end.

(** What [Encode] writes of a manifest: its exported fields. *)
Definition exported (m : Manifest) : Manifest :=
  Manifest.mk (Manifest.SchemaVersion m) (Manifest.MediaType m) (Manifest.Config m)
    (Manifest.Layers m) (Manifest.IsAppleFoundationModel m) [] None "".

(** The manifests that are decoded as they were encoded: an int64 schema
    version and sizes, and strings of well-formed UTF-8. *)
Definition Manifest_ok (m : Manifest) : bool :=
  is_int64 (Manifest.SchemaVersion m) && utf8_ValidString (Manifest.MediaType m)
  && Layer_ok (Manifest.Config m) && forallb Layer_ok (elems (Manifest.Layers m)).

(** The JSON value the encoder writes for a manifest. *)
Definition json_of_Manifest (m : Manifest) : json :=
  JObject [ (str "schemaVersion", JNumber (appendInt (Manifest.SchemaVersion m)));
            (str "mediaType", JString (str (Manifest.MediaType m)));
            (str "config", json_of_Layer (Manifest.Config m));
            (str "layers", json_of_Layers (Manifest.Layers m));
            (str "IsAppleFoundationModel", JBool (Manifest.IsAppleFoundationModel m)) ].

(** The manifest [WriteManifest] encodes. *)
Definition written (config : Layer) (layers : slice Layer) : Manifest :=
  Manifest.mk 2 manifest_MediaType config layers false [] None "".

(** The bytes the decoder has read from a file when [Decode] returns. *)
Definition bytes_read (file : bytes) : bytes := snd (Decoder_Decode file).

(** The value of a hexadecimal digit in lower case. *)
Definition unhex_digit (c : ascii) : Z :=
  if in_range 48 57 c then byte_val c - 48 else byte_val c - 87.

(** The tokens byte by byte: a rune at its first byte, zero at the bytes
    that continue it. *)
Fixpoint layout (fuel : nat) (content : bytes) : list Z :=
  match fuel with
  | O => []
  | S f =>
      match content with
      | [] => []
      | _ :: t =>
          match utf8_DecodeRune content with
          | Some (char, n) => char :: replicate (n - 1) 0 ++ layout f (skipn n content)
          | None => 0xFFFD :: layout f t
          end
      end
  end.

(** The bytes and the tokens of ASCII. *)
Definition is_ascii (c : ascii) : bool := byte_val c <? 128.
Definition is_ascii_token (token : Z) : bool := (0 <=? token) && (token <? 128).

(** The bytes [Detokenize] makes of the tokens. *)
Definition spell (tokens : list Z) : bytes :=
  flat_map (fun token => utf8_EncodeRune (Server.rune_of_int token)) tokens.

(** A hexadecimal digit in lower case. *)
Definition is_lower_hex (c : ascii) : bool := in_range 48 57 c || in_range 97 102 c.

Section Rest.
Context {C : Collaborators}.

(** What is left of [Manifests] once the loop has reached [rest] with
    the manifests [ms] in hand. *)
Definition Manifests_rest (manifests : path) (continueOnError : bool)
    (rest : list path) (ms : gmap Name Manifest) : M (gmap Name Manifest) :=
  do ms' <- Manifests_loop manifests continueOnError rest ms;
  Manifests_models continueOnError ms'.

(** The manifest [m] was read under the name [n] in the turn of the loop
    of [Manifests] for one of the [matches], the loop having started in
    the world [start]: the match is not a directory, [n] is the valid name
    of its path below the root, and [ParseNamedManifest] returned [m],
    from a regular file that is then at the [filepath] of [m] and whose
    marker [m] carries. *)
Definition read_in_loop (root : path) (continueOnError : bool) (matches : list path)
    (start : World) (n : Name) (m : Manifest) : Prop :=
  exists pre match_ rest ms w1 fi w2 w3 rel content mode mtime d,
    matches = pre ++ match_ :: rest
    /\ Manifests_loop root continueOnError pre ∅ start = (Ok ms, w1)
    /\ os_Stat match_ w1 = (Ok fi, w2)
    /\ fi_IsDir fi = false
    /\ filepath_Rel root match_ = Ok rel
    /\ n = ParseNameFromFilepath rel
    /\ IsValid n = true
    /\ ParseNamedManifest n w2 = (Ok m, w3)
    /\ entry (fs w3) (Manifest.filepath m) = inr (File content mode mtime)
    /\ fst (Decoder_Decode content) = inr d
    /\ Manifest.IsAppleFoundationModel m = Manifest.IsAppleFoundationModel d.

End Rest.

(** *** Stores and files the properties are evaluated on *)

(** The layer whose digest is the one byte 255, not a UTF-8 sequence. *)
Definition torn : Layer := Layer.mk "cfg" (String (byte_of 255) EmptyString) 10.

(** The world after [WriteManifest(demo, torn, [weights])]. *)
Definition torn_world : World :=
  snd (WriteManifest (C := Demo.collaborators) Demo.demo torn (Some [Demo.weights]) Demo.empty_world).

(** The encoding of the demo manifest, followed by [k] spaces. *)
Definition padded (k : nat) : bytes := Encoder_Encode demo_manifest ++ repeat " "%char k.

(** The store with [padded k] as the manifest of the demo model. *)
Definition padded_world (k : nat) : World :=
  Demo.plant Demo.p_latest (File (padded k) 420 0) Demo.written_world.

Definition padded_manifest (k : nat) : Manifest :=
  returned Manifest.zero
    (fst (ParseNamedManifest (C := Demo.collaborators) Demo.demo (padded_world k))).

(** A [Layer.Remove] to evaluate [RemoveLayers] with: the blob of the
    layer is the file named by its digest in the directory of the blobs. *)
Definition blob_Remove (l : Layer) : M unit := os_Remove ["blobs"%string; Layer.Digest l].

(** The store where a regular file stands where the directory of the
    demo model should be. *)
Definition blocked_world : World :=
  Demo.plant (Demo.library ++ ["demo"%string]) (File [] 420 0)
    (snd (os_MkdirAll Demo.library Demo.empty_world)).

(** The demo store kept below a directory whose name opens a character
    class that is never closed: [filepath.Glob] rejects the pattern. *)
Definition bracket_root : path := ["models["; "manifests"]%string.
Definition bracket_collaborators : Collaborators := {|
  Name := Demo.name;
  Name_eq_dec := @Name_eq_dec Demo.collaborators;
  Name_countable := @Name_countable Demo.collaborators;
  IsFullyQualified := Demo.isFullyQualified;
  IsValid := Demo.isValid;
  Filepath := @Filepath Demo.collaborators;
  NameString := @NameString Demo.collaborators;
  ParseNameFromFilepath := Demo.parseNameFromFilepath;
  ParseName := @ParseName Demo.collaborators;
  GetManifestPath := run os_MkdirAll bracket_root; ret bracket_root;
  PruneDirectory _ := ret tt;
  Marshal_ConfigV2 := @Marshal_ConfigV2 Demo.collaborators;
  Glob_pattern_root _ _ := Err (ErrOther "syntax error in pattern")
|}.

(** The store where the blob of the demo config is a directory that is
    not empty, and the blob of the demo weights is missing. *)
Definition busy_world : World :=
  Demo.plant ["blobs"; "sha256:aa"; "part"]%string (File [] 420 0)
    (Demo.plant ["blobs"; "sha256:aa"]%string Dir
       (Demo.plant ["blobs"]%string Dir Demo.empty_world)).

(** A [Layer.Remove] that fails on a layer with no digest. *)
Definition picky_Remove (l : Layer) : M unit :=
  if String.eqb (Layer.Digest l) "" then fail (ErrOther "no digest") else blob_Remove l.

(** A manifest whose config has no digest. *)
Definition unlabelled : Manifest :=
  Manifest.mk 2 manifest_MediaType (Layer.mk "cfg" "" 10) (Some [Demo.weights])
              false [] None "".

(** The demo manifest as it is read back. *)
Definition written_manifest : Manifest :=
  returned Manifest.zero
    (fst (ParseNamedManifest (C := Demo.collaborators) Demo.demo Demo.written_world)).

(** The listing of the store that holds a manifest under the name of the
    synthetic model, the synthetic models switched on. *)
Definition listing : result (gmap Name Manifest) * World :=
  Manifests (C := Demo.collaborators) true (Demo.apple_world "1").

(** A config whose digest is long enough for the encoding of the manifest
    to fill the first buffer of the decoder, 512 bytes, to the last. *)
Definition long_config : Layer :=
  Layer.mk "cfg" (unstr (str "sha256:aa" ++ repeat "a"%char 267)) 10.

Definition long_world : World :=
  snd (WriteManifest (C := Demo.collaborators) Demo.demo long_config (Some [Demo.weights])
         Demo.empty_world).

Definition long_manifest : Manifest :=
  returned Manifest.zero
    (fst (ParseNamedManifest (C := Demo.collaborators) Demo.demo long_world)).

(** * Properties *)

(** ** The model on concrete inputs *)

Example sha256_abc :
  hex_EncodeToString (sha256_Sum256 (str "abc"))
  = "ba7816bf8f01cfea414140de5dae2223b00361a396177a9cb410ff61f20015ad"%string.
Proof. vm_compute. reflexivity. Qed.

Example sha256_empty :
  hex_EncodeToString (sha256_Sum256 [])
  = "e3b0c44298fc1c149afbf4c8996fb92427ae41e4649b934ca495991b7852b855"%string.
Proof. vm_compute. reflexivity. Qed.

Example Size_demo : Size demo_manifest = 2058.
Proof. reflexivity. Qed.

Example Decode_demo :
  Decoder_Decode (Encoder_Encode demo_manifest)
  = (inr demo_manifest, Encoder_Encode demo_manifest).
Proof. vm_compute. reflexivity. Qed.

(** The file [WriteManifest] leaves for the demo manifest is the line Go's
    encoder writes, 246 bytes long. *)
Example written_file :
  fs Demo.written_world !! (Demo.root ++ @Filepath Demo.collaborators Demo.demo)
  = Some (File (Encoder_Encode demo_manifest) 420 0)
  /\ length (Encoder_Encode demo_manifest) = 246%nat.
Proof. vm_compute. split; reflexivity. Qed.

Example Parse_demo_digest :
  match fst (ParseNamedManifest (C := Demo.collaborators) Demo.demo Demo.written_world) with
  | Ok m => Manifest.digest m
  | Err _ => ""%string
  end = "270611d4bc9dd887f04064438e89f78344f476f6c42b13a201e303dd4f591c55"%string.
Proof. vm_compute. reflexivity. Qed.

(** ** The monad *)

Ltac mstep :=
  repeat first
    [ progress (unfold bind, ret, fail)
    | match goal with
      | H : ?m ?w = (_, _) |- context [?m ?w] => rewrite H
      end
    | progress cbn beta iota ].

(** ** Size *)

Lemma wrap64_add_l (a b : Z) : wrap64 (wrap64 a + b) = wrap64 (a + b).
Proof.
  unfold wrap64.
  change (2 ^ 63) with 9223372036854775808.
  change (2 ^ 64) with 18446744073709551616.
  f_equal.
  replace ((a + 9223372036854775808) mod 18446744073709551616 - 9223372036854775808
           + b + 9223372036854775808)
    with ((a + 9223372036854775808) mod 18446744073709551616 + b) by lia.
  rewrite Zplus_mod_idemp_l. f_equal. lia.
Qed.

Lemma wrap64_id (z : Z) : is_int64 z = true -> wrap64 z = z.
Proof.
  unfold is_int64, int64_min, int64_max, wrap64. intros H.
  apply andb_true_iff in H as [H1 H2].
  apply Z.leb_le in H1, H2.
  change (2 ^ 63) with 9223372036854775808 in *.
  change (2 ^ 64) with 18446744073709551616.
  rewrite Z.mod_small; lia.
Qed.

Lemma fold_add64 (ls : list Layer) (acc : Z) :
  fold_left (fun size layer => add64 size (Layer.Size layer)) ls (wrap64 acc)
  = wrap64 (acc + sum_sizes ls).
Proof.
  revert acc. induction ls as [|l ls IH]; intros acc; cbn.
  - f_equal. lia.
  - unfold add64 at 2. rewrite wrap64_add_l, IH. unfold sum_sizes. cbn. f_equal. lia.
Qed.

Lemma sum_sizes_app (a b : list Layer) : sum_sizes (a ++ b) = sum_sizes a + sum_sizes b.
Proof. unfold sum_sizes. induction a; cbn; lia. Qed.

(** C5 (size invariant).  For every manifest, [Size] is the size of the
    config plus the sum of the sizes of the layers, in Go's int64
    arithmetic (the sum wraps around as int64 addition does); whenever
    that sum is an int64 it is the exact sum. *)
Theorem Size_is_config_plus_layers (m : Manifest) :
  let total := Layer.Size (Manifest.Config m) + sum_sizes (elems (Manifest.Layers m)) in
  Size m = wrap64 total
  /\ (if is_int64 total then Size m = total else True).
Proof.
  intros total.
  assert (E : Size m = wrap64 total).
  { unfold Size, append. cbn [elems default from_option id].
    change 0 with (wrap64 0) at 1.
    rewrite fold_add64, sum_sizes_app. unfold total, sum_sizes at 2. cbn. f_equal. lia. }
  split; [exact E|].
  destruct (is_int64 total) eqn:R; [|exact I].
  rewrite E. now apply wrap64_id.
Qed.

(** ** Synthetic manifests *)

Lemma GenerateFakeDigest_apple :
  GenerateFakeDigest "apple" = apple_digest.
Proof. vm_compute. reflexivity. Qed.

Lemma createAppleManifests_Ok `{C : Collaborators} (w w' : World) (ms : gmap Name Manifest) :
  createAppleManifests w = (Ok ms, w') ->
  exists configData,
    Marshal_ConfigV2 = Ok configData
    /\ IsValid (ParseName "apple") = true
    /\ ms = {[ ParseName "apple" := apple_manifest configData ]}
    /\ fs w' = fs w /\ accesses w' = accesses w.
Proof.
  unfold createAppleManifests.
  destruct (IsValid (ParseName "apple")); cbn [negb]; [|discriminate].
  destruct Marshal_ConfigV2 as [configData|e]; [|discriminate].
  replace (FieldByName_IsValid "filepath" && CanSet "filepath") with false by reflexivity.
  replace (FieldByName_IsValid "fi" && CanSet "fi") with false by reflexivity.
  unfold bind, ret, slog. cbn. intros [= <- <-].
  exists configData. rewrite GenerateFakeDigest_apple. repeat split; reflexivity.
Qed.

(** C10.  Every manifest [createAppleManifests] produces has an empty
    manifest digest and an empty filepath; its config layer and its two
    data layers all carry the same digest, the hex encoding of the SHA-256
    of ["apple:apple"], which has no colon in it, hence no algorithm
    prefix. *)
Theorem createAppleManifests_digests `{C : Collaborators}
    (w w' : World) (ms : gmap Name Manifest) (n : Name) (m : Manifest) :
  createAppleManifests w = (Ok ms, w') ->
  ms !! n = Some m ->
  Manifest.digest m = ""%string
  /\ Manifest.filepath m = []
  /\ (exists l1 l2, Manifest.Layers m = Some [l1; l2]
        /\ Layer.Digest (Manifest.Config m) = GenerateFakeDigest "apple"
        /\ Layer.Digest l1 = GenerateFakeDigest "apple"
        /\ Layer.Digest l2 = GenerateFakeDigest "apple")
  /\ GenerateFakeDigest "apple" = hex_EncodeToString (sha256_Sum256 (str "apple:apple"))
  /\ GenerateFakeDigest "apple" = apple_digest
  /\ String.index 0 ":" (GenerateFakeDigest "apple") = None.
Proof.
  intros Hc Hl.
  apply createAppleManifests_Ok in Hc as (configData & _ & _ & -> & _).
  apply lookup_singleton_Some in Hl as [_ <-].
  rewrite GenerateFakeDigest_apple.
  repeat split; try reflexivity.
  eexists _, _. repeat split; reflexivity.
Qed.

(** C10 at work on the demo collaborators. *)
Lemma createAppleManifests_digests_witness :
  Manifest.digest (apple_manifest (str "{}")) = ""%string
  /\ Manifest.filepath (apple_manifest (str "{}")) = []
  /\ (exists l1 l2, Manifest.Layers (apple_manifest (str "{}")) = Some [l1; l2]
        /\ Layer.Digest (Manifest.Config (apple_manifest (str "{}")))
           = GenerateFakeDigest "apple"
        /\ Layer.Digest l1 = GenerateFakeDigest "apple"
        /\ Layer.Digest l2 = GenerateFakeDigest "apple")
  /\ GenerateFakeDigest "apple"
     = hex_EncodeToString (sha256_Sum256 (str "apple:apple"))
  /\ GenerateFakeDigest "apple" = apple_digest
  /\ String.index 0 ":" (GenerateFakeDigest "apple") = None.
Proof.
  apply (createAppleManifests_digests (C := Demo.collaborators)
           Demo.empty_world
           (snd (createAppleManifests (C := Demo.collaborators) Demo.empty_world))
           {[ Demo.apple := apple_manifest (str "{}") ]} Demo.apple).
  - reflexivity.
  - reflexivity.
Defined.

(** ** Paths and entries *)

Lemma entry_lookup (f : gmap path node) (p : path) (n : node) :
  entry f p = inr n -> f !! p = Some n.
Proof.
  unfold entry. destruct (above f [] p); [discriminate|].
  destruct (f !! p); [|discriminate]. now intros [= ->].
Qed.

Lemma entry_above (f : gmap path node) (p : path) (n : node) :
  entry f p = inr n -> above f [] p = None.
Proof. unfold entry. now destruct (above f [] p). Qed.

Lemma entry_missing (f : gmap path node) (p : path) (e : errno) :
  entry f p = inl e -> above f [] p = None -> f !! p = None.
Proof. unfold entry. intros H A. rewrite A in H. now destruct (f !! p). Qed.

(** The way to a path does not pass through the path. *)
Lemma above_insert (f : gmap path node) (p : path) (v : node) (done todo : path) :
  done ++ todo = p -> above (<[p := v]> f) done todo = above f done todo.
Proof.
  revert done. induction todo as [|x [|y r] IH]; intros done E; [reflexivity..|].
  cbn [above]. rewrite lookup_insert_ne.
  - destruct (f !! (done ++ [x])) as [[| |]|]; try reflexivity.
    apply IH. now rewrite <- app_assoc.
  - rewrite <- E. intros Q. apply app_inv_head in Q. discriminate.
Qed.

Lemma above_delete (f : gmap path node) (p : path) (done todo : path) :
  done ++ todo = p -> above (delete p f) done todo = above f done todo.
Proof.
  revert done. induction todo as [|x [|y r] IH]; intros done E; [reflexivity..|].
  cbn [above]. rewrite lookup_delete_ne.
  - destruct (f !! (done ++ [x])) as [[| |]|]; try reflexivity.
    apply IH. now rewrite <- app_assoc.
  - rewrite <- E. intros Q. apply app_inv_head in Q. discriminate.
Qed.

Lemma entry_insert (f : gmap path node) (p : path) (v : node) :
  above f [] p = None -> entry (<[p := v]> f) p = inr v.
Proof.
  intros H. unfold entry. rewrite above_insert by reflexivity.
  now rewrite H, lookup_insert_eq.
Qed.

(** The way to an entry of a directory is the way to the directory, and
    the directory. *)
Lemma above_snoc (f : gmap path node) (done todo : path) (x : string) :
  todo <> [] ->
  above f done (todo ++ [x])
  = match above f done todo with
    | Some e => Some e
    | None =>
        match f !! (done ++ todo) with
        | Some Dir => None
        | Some (File _ _ _) => Some ENOTDIR
        | Some BadLink => Some ELOOP
        | None => Some ENOENT
        end
    end.
Proof.
  revert done. induction todo as [|a [|b r] IH]; intros done Hne; [congruence| |].
  - cbn [app above]. now destruct (f !! (done ++ [a])) as [[| |]|].
  - change ((a :: b :: r) ++ [x]) with (a :: (b :: r) ++ [x]).
    cbn [above]. change ((b :: r) ++ [x]) with (b :: r ++ [x]).
    cbn iota. destruct (f !! (done ++ [a])) as [[| |]|]; try reflexivity.
    change (b :: r ++ [x]) with ((b :: r) ++ [x]).
    rewrite IH by discriminate. now rewrite <- app_assoc.
Qed.

Lemma above_in_Dir (f : gmap path node) (p : path) :
  p <> [] ->
  (if no_path (filepath_Dir p) then True else entry f (filepath_Dir p) = inr Dir) ->
  above f [] p = None.
Proof.
  intros Hne H. unfold filepath_Dir in H.
  rewrite (app_removelast_last ""%string Hne).
  destruct (removelast p) as [|a r] eqn:E; [reflexivity|].
  cbn [no_path] in H. rewrite above_snoc by discriminate.
  rewrite (entry_above _ _ _ H). cbn [app]. now rewrite (entry_lookup _ _ _ H).
Qed.

(** ** Reading one manifest *)

Section Reading.
Context {C : Collaborators}.

Lemma ParseNamedManifest_unqualified (n : Name) (w : World) :
  IsFullyQualified n = false ->
  ParseNamedManifest n w = (Err (Unqualified n), w).
Proof. intros H. unfold ParseNamedManifest. rewrite H. reflexivity. Qed.

Lemma ParseNamedManifest_no_entry (n : Name) (w w1 : World) (root : path) (e : errno) :
  IsFullyQualified n = true ->
  GetManifestPath w = (Ok root, w1) ->
  entry (fs w1) (root ++ Filepath n) = inl e ->
  ParseNamedManifest n w
  = (Err (PathError "open" (root ++ Filepath n)
            (if no_path (root ++ Filepath n) then ENOENT else e)),
     touch (AOpen (root ++ Filepath n)) w1).
Proof.
  intros Hq Hg Hf. unfold ParseNamedManifest. rewrite Hq. cbn [negb].
  unfold bind at 1. rewrite Hg. unfold filepath_Join, bind at 1, os_Open.
  rewrite Hf. now destruct (no_path (root ++ Filepath n)).
Qed.

Lemma ParseNamedManifest_file (n : Name) (w w1 : World) (root : path)
    (c : bytes) (mode mtime : Z) :
  IsFullyQualified n = true ->
  GetManifestPath w = (Ok root, w1) ->
  root ++ Filepath n <> [] ->
  entry (fs w1) (root ++ Filepath n) = inr (File c mode mtime) ->
  let p := root ++ Filepath n in
  ParseNamedManifest n w
  = (match fst (Decoder_Decode c) with
     | inr m =>
         Ok (Manifest.mk (Manifest.SchemaVersion m) (Manifest.MediaType m) (Manifest.Config m)
               (Manifest.Layers m) (Manifest.IsAppleFoundationModel m) p
               (Some (mkFileInfo (base_name p) (Z.of_nat (length c)) mode mtime false))
               (hex_EncodeToString (sha256_Sum256 (snd (Decoder_Decode c)))))
     | inl e => Err (DecodeError e)
     end, touch (ARead p) (touch (AOpen p) w1)).
Proof.
  intros Hq Hg Hne Hf p. unfold ParseNamedManifest. rewrite Hq. cbn [negb].
  unfold bind at 1. rewrite Hg. unfold filepath_Join. subst p.
  unfold bind at 1, os_Open. rewrite Hf.
  replace (no_path (root ++ Filepath n)) with false
    by (destruct (root ++ Filepath n); [contradiction|reflexivity]).
  unfold bind at 1, File_Stat. cbn [info_of].
  unfold bind, Decode_tee, ret.
  destruct (Decoder_Decode c) as [[e|m] read]; reflexivity.
Qed.


(** A manifest that was read is backed by a file: its filepath is the
    resolved path of its name, where a regular file stood when it was
    opened, and it carries that file's metadata and a digest of 64 hex
    digits. *)
Lemma ParseNamedManifest_Ok (n : Name) (w w' : World) (m : Manifest) :
  ParseNamedManifest n w = (Ok m, w') ->
  exists root w1 c mode mtime,
    IsFullyQualified n = true
    /\ GetManifestPath w = (Ok root, w1)
    /\ Manifest.filepath m = root ++ Filepath n
    /\ fs w1 !! (root ++ Filepath n) = Some (File c mode mtime)
    /\ fs w' = fs w1
    /\ (exists i, Manifest.fi m = Some i)
    /\ Manifest.digest m = hex_EncodeToString (sha256_Sum256 (snd (Decoder_Decode c)))
    /\ (exists d, fst (Decoder_Decode c) = inr d
          /\ Manifest.Config m = Manifest.Config d
          /\ Manifest.Layers m = Manifest.Layers d
          /\ Manifest.IsAppleFoundationModel m = Manifest.IsAppleFoundationModel d)
       /\ entry (fs w1) (root ++ Filepath n) = inr (File c mode mtime).
Proof.
  unfold ParseNamedManifest.
  destruct (IsFullyQualified n); cbn [negb]; [|discriminate].
  unfold bind at 1. destruct (GetManifestPath w) as [[root|e] w1]; [|discriminate].
  unfold filepath_Join, bind at 1, os_Open.
  destruct (no_path (root ++ Filepath n)); [discriminate|].
  destruct (entry (fs w1) (root ++ Filepath n)) as [e|[c mode mtime| |]] eqn:Hf;
    try discriminate.
  unfold bind at 1, File_Stat. cbn [info_of]. unfold bind, Decode_tee, ret.
  destruct (Decoder_Decode c) as [[e|d] read] eqn:Hd; [discriminate|].
  intros [= <- <-]. exists root, w1, c, mode, mtime. rewrite Hd. cbn.
  pose proof (entry_lookup _ _ _ Hf) as Hl.
  repeat split; eauto.
Qed.

Lemma ParseNamedManifest_Ok_path (n : Name) (w w' : World) (m : Manifest) :
  ParseNamedManifest n w = (Ok m, w') -> Manifest.filepath m <> [].
Proof.
  unfold ParseNamedManifest.
  destruct (IsFullyQualified n); cbn [negb]; [|discriminate].
  unfold bind at 1. destruct (GetManifestPath w) as [[root|e] w1]; [|discriminate].
  unfold filepath_Join, bind at 1, os_Open.
  destruct (no_path (root ++ Filepath n)) eqn:Hn; [discriminate|].
  destruct (entry (fs w1) (root ++ Filepath n)) as [e|[c mode mtime| |]]; try discriminate.
  unfold bind at 1, File_Stat. cbn [info_of]. unfold bind, Decode_tee, ret.
  destruct (Decoder_Decode c) as [[e|d] read]; [discriminate|].
  intros [= <- <-]. cbn [Manifest.filepath]. intros E. rewrite E in Hn. discriminate.
Qed.

End Reading.



(** ** Listing *)

Section Listing.
Context {C : Collaborators}.

(** One turn of the loop, case by case. *)
Lemma Manifests_loop_cons (root : path) (c : bool) (p : path) (rest : list path)
    (ms : gmap Name Manifest) (w : World) :
  Manifests_loop root c (p :: rest) ms w
  = match os_Stat p w with
    | (Err e, w1) => (Err e, w1)
    | (Ok fi, w1) =>
        if fi_IsDir fi then Manifests_loop root c rest ms w1
        else
          match filepath_Rel root p with
          | Err err =>
              if c then Manifests_loop root c rest ms (snd (slog Warn "bad filepath" w1))
              else (Err (Wrapf (path_string p) err), w1)
          | Ok rel =>
              if IsValid (ParseNameFromFilepath rel) then
                match ParseNamedManifest (ParseNameFromFilepath rel) w1 with
                | (Ok m, w2) =>
                    Manifests_loop root c rest (<[ParseNameFromFilepath rel := m]> ms) w2
                | (Err err, w2) =>
                    if c then Manifests_loop root c rest ms (snd (slog Warn "bad manifest" w2))
                    else (Err (Wrapf (NameString (ParseNameFromFilepath rel)) err), w2)
                end
              else
                if c then Manifests_loop root c rest ms (snd (slog Warn "bad manifest name" w1))
                else (Err (Errorf (path_string rel)), w1)
          end
    end.
Proof.
  cbn [Manifests_loop]. unfold bind at 1.
  destruct (os_Stat p w) as [[fi|e] w1]; [|reflexivity].
  destruct (fi_IsDir fi); cbn [negb]; [reflexivity|].
  destruct (filepath_Rel root p) as [rel|e].
  - destruct (IsValid (ParseNameFromFilepath rel)); cbn [negb].
    + destruct (ParseNamedManifest (ParseNameFromFilepath rel) w1) as [[m|e] w2];
        [reflexivity|].
      destruct c; reflexivity.
    + destruct c; reflexivity.
  - destruct c; reflexivity.
Qed.

Ltac loop_cases p w :=
  rewrite Manifests_loop_cons;
  let fi := fresh "fi" in let e := fresh "e" in let w1 := fresh "w" in
  let rel := fresh "rel" in let m := fresh "m" in let w2 := fresh "w" in
  let Hs := fresh "Hs" in let Hp := fresh "Hp" in
  destruct (os_Stat p w) as [[fi|e] w1] eqn:Hs;
  [ destruct (fi_IsDir fi);
    [ | destruct (filepath_Rel _ p) as [rel|e];
        [ destruct (IsValid (ParseNameFromFilepath rel));
          [ destruct (ParseNamedManifest (ParseNameFromFilepath rel) w1) as [[m|e] w2] eqn:Hp | ]
        | ] ]
  | ].

Lemma Manifests_loop_app (root : path) (c : bool) (pre l : list path)
    (ms : gmap Name Manifest) (w : World) :
  Manifests_loop root c (pre ++ l) ms w
  = match Manifests_loop root c pre ms w with
    | (Ok ms', w') => Manifests_loop root c l ms' w'
    | (Err e, w') => (Err e, w')
    end.
Proof.
  revert ms w. induction pre as [|p pre IH]; intros ms w; [reflexivity|].
  cbn [app]. rewrite (Manifests_loop_cons root c p pre).
  loop_cases p w; try destruct c; try reflexivity; apply IH.
Qed.

(** Whatever the loop returns was in the map before or was read from a
    file by [ParseNamedManifest]. *)
Lemma Manifests_loop_entries (root : path) (c : bool) (l : list path)
    (ms ms' : gmap Name Manifest) (w w' : World) :
  Manifests_loop root c l ms w = (Ok ms', w') ->
  forall n m, ms' !! n = Some m ->
    ms !! n = Some m \/ exists wa wb, ParseNamedManifest n wa = (Ok m, wb).
Proof.
  revert ms w. induction l as [|p l IH]; intros ms w.
  - cbn. unfold ret. intros [= <- <-]. auto.
  - loop_cases p w; try discriminate; try apply IH;
      try (destruct c; (discriminate || apply IH)).
    intros H n m0 Hl. destruct (IH _ _ H n m0 Hl) as [Hi|Hi]; [|now right].
    destruct (decide (ParseNameFromFilepath rel = n)) as [<-|Hne].
    + rewrite lookup_insert_eq in Hi. injection Hi as <-. right. eauto.
    + rewrite lookup_insert_ne in Hi by done. now left.
Qed.

(** The loop never drops a name it has collected. *)
Lemma Manifests_loop_keeps (root : path) (c : bool) (l : list path)
    (ms ms' : gmap Name Manifest) (w w' : World) :
  Manifests_loop root c l ms w = (Ok ms', w') ->
  forall n, is_Some (ms !! n) -> is_Some (ms' !! n).
Proof.
  revert ms w. induction l as [|p l IH]; intros ms w.
  - cbn. unfold ret. intros [= <- <-]. auto.
  - loop_cases p w; try discriminate; try apply IH;
      try (destruct c; (discriminate || apply IH)).
    intros H n Hn. apply (IH _ _ H).
    destruct (decide (ParseNameFromFilepath rel = n)) as [<-|Hne].
    + rewrite lookup_insert_eq. eauto.
    + now rewrite lookup_insert_ne.
Qed.

(** In tolerant mode the loop fails only where [os.Stat] fails. *)
Lemma Manifests_loop_tolerant (root : path) (l : list path)
    (ms : gmap Name Manifest) (w w' : World) (e : error) :
  Manifests_loop root true l ms w = (Err e, w') ->
  exists p w1, In p l /\ os_Stat p w1 = (Err e, w').
Proof.
  revert ms w. induction l as [|p l IH]; intros ms w.
  - cbn. unfold ret. discriminate.
  - assert (K : forall ms0 w0, Manifests_loop root true l ms0 w0 = (Err e, w') ->
                exists p0 w2, In p0 (p :: l) /\ os_Stat p0 w2 = (Err e, w')).
    { intros ms0 w0 H. destruct (IH _ _ H) as (p0 & w2 & Hin & Hst).
      exists p0, w2. split; [now right|assumption]. }
    loop_cases p w; try apply K.
    intros [= <- <-]. exists p, w. split; [now left|assumption].
Qed.

(** Whatever the loop returns was in the map before or was read in one
    of its turns. *)
Lemma Manifests_loop_read (root : path) (c : bool) (start : World) (l : list path) :
  forall (pre0 : list path) (ms0 ms' : gmap Name Manifest) (w w' : World),
    Manifests_loop root c pre0 ∅ start = (Ok ms0, w) ->
    Manifests_loop root c l ms0 w = (Ok ms', w') ->
    forall n m, ms' !! n = Some m ->
      ms0 !! n = Some m \/ read_in_loop root c (pre0 ++ l) start n m.
Proof.
  induction l as [|p l IH]; intros pre0 ms0 ms' w w' Hpre.
  - cbn. unfold ret. intros [= <- <-]. auto.
  - assert (Step : forall ms1 w1,
              Manifests_loop root c [p] ms0 w = (Ok ms1, w1) ->
              Manifests_loop root c l ms1 w1 = (Ok ms', w') ->
              forall n m, ms' !! n = Some m ->
                ms1 !! n = Some m \/ read_in_loop root c (pre0 ++ p :: l) start n m).
    { intros ms1 w1 H1 Hl n m Hn.
      assert (Hpre' : Manifests_loop root c (pre0 ++ [p]) ∅ start = (Ok ms1, w1))
        by (now rewrite Manifests_loop_app, Hpre).
      destruct (IH _ _ _ _ _ Hpre' Hl n m Hn) as [E|E]; [now left|right].
      now rewrite <- app_assoc in E. }
    rewrite Manifests_loop_cons. pose proof (Manifests_loop_cons root c p [] ms0 w) as One.
    destruct (os_Stat p w) as [[fi|e] w1] eqn:Hs; [|discriminate].
    destruct (fi_IsDir fi) eqn:Hd; [intros Hl; exact (Step _ _ One Hl)|].
    destruct (filepath_Rel root p) as [rel|e] eqn:Hr;
      [|destruct c; [intros Hl; exact (Step _ _ One Hl)|discriminate]].
    destruct (IsValid (ParseNameFromFilepath rel)) eqn:Hv;
      [|destruct c; [intros Hl; exact (Step _ _ One Hl)|discriminate]].
    destruct (ParseNamedManifest (ParseNameFromFilepath rel) w1) as [[m0|e] w2] eqn:Hp;
      [|destruct c; [intros Hl; exact (Step _ _ One Hl)|discriminate]].
    intros Hl n m Hn. destruct (Step _ _ One Hl n m Hn) as [E|E]; [|now right].
    destruct (decide (ParseNameFromFilepath rel = n)) as [<-|Hne].
    + rewrite lookup_insert_eq in E. injection E as <-. right.
      pose proof Hp as Hp'.
      apply ParseNamedManifest_Ok in Hp'
        as (r & wg & content & mode & mtime & _ & _ & Hpath & Hf & Hfs & _ & _
            & (d & Hdec & _ & _ & Hmark) & He).
      exists pre0, p, l, ms0, w, fi, w1, w2, rel, content, mode, mtime, d.
      rewrite Hpath, Hfs. auto 12.
    + rewrite lookup_insert_ne in E by done. now left.
Qed.

Lemma Manifests_unfold (c : bool) (w w0 : World) (root : path) (l : list path) :
  GetManifestPath w = (Ok root, w0) ->
  fst (filepath_Glob4 root w0) = Ok l ->
  Manifests c w = Manifests_rest root c l ∅ (touch (AGlob root) w0).
Proof.
  intros Hg Hl. unfold Manifests, Manifests_rest.
  unfold bind at 1. rewrite Hg. unfold bind at 1.
  unfold filepath_Glob4 in *. cbn [fst] in Hl. now rewrite Hl.
Qed.

Lemma Manifests_rest_app (root : path) (c : bool) (pre l : list path)
    (ms0 ms : gmap Name Manifest) (w w1 : World) :
  Manifests_loop root c pre ms0 w = (Ok ms, w1) ->
  Manifests_rest root c (pre ++ l) ms0 w = Manifests_rest root c l ms w1.
Proof.
  intros H. unfold Manifests_rest, bind. now rewrite Manifests_loop_app, H.
Qed.

(** C9.  A failure of [os.Stat] on a match of the glob ends [Manifests]
    with that error, unwrapped, whatever [continueOnError] is: the match
    is neither logged nor skipped. *)
Theorem Manifests_stat_failure_aborts (continueOnError : bool) (w w0 w1 w2 : World)
    (root : path) (pre rest : list path) (match_ : path)
    (ms : gmap Name Manifest) (e : error) :
  GetManifestPath w = (Ok root, w0) ->
  fst (filepath_Glob4 root w0) = Ok (pre ++ match_ :: rest) ->
  Manifests_loop root continueOnError pre ∅ (touch (AGlob root) w0) = (Ok ms, w1) ->
  os_Stat match_ w1 = (Err e, w2) ->
  Manifests continueOnError w = (Err e, w2) /\ logged w2 = logged w1.
Proof.
  intros Hg Hl Hpre Hs.
  rewrite (Manifests_unfold _ _ _ _ _ Hg Hl), (Manifests_rest_app _ _ _ _ _ _ _ _ Hpre).
  unfold Manifests_rest. cbn [Manifests_loop]. unfold bind. rewrite Hs.
  split; [reflexivity|].
  unfold os_Stat in Hs.
  destruct (no_path match_); [injection Hs as _ <-; reflexivity|].
  destruct (entry (fs w1) match_) as [e0|nd]; [injection Hs as _ <-; reflexivity|].
  destruct (info_of match_ nd); [discriminate|injection Hs as _ <-; reflexivity].
Qed.

End Listing.

Section Tolerance.
Context {C : Collaborators}.

Lemma Manifests_models_keeps (c : bool) (ms final : gmap Name Manifest) (w wf : World) :
  Manifests_models c ms w = (Ok final, wf) ->
  forall k, is_Some (ms !! k) -> is_Some (final !! k).
Proof.
  unfold Manifests_models, bind, os_Getenv, slog, ret.
  destruct (bool_decide _); [|intros [= <- <-]; auto].
  destruct (createAppleManifests _) as [[syn|e] w2].
  - intros [= <- <-] k [m Hk]. destruct (syn !! k) as [m'|] eqn:Hs.
    + exists m'. now apply lookup_union_Some_l.
    + exists m. now rewrite lookup_union_r.
  - destruct c; cbn [negb]; [|discriminate]. intros [= <- <-]. auto.
Qed.

Lemma Manifests_rest_keeps (root : path) (c : bool) (l : list path)
    (ms final : gmap Name Manifest) (w wf : World) :
  Manifests_rest root c l ms w = (Ok final, wf) ->
  forall k, is_Some (ms !! k) -> is_Some (final !! k).
Proof.
  unfold Manifests_rest, bind.
  destruct (Manifests_loop root c l ms w) as [[ms'|e] w1] eqn:Hl; [|discriminate].
  intros H k Hk. eapply Manifests_models_keeps; [exact H|].
  eapply Manifests_loop_keeps; eauto.
Qed.


(** ** Synthetic manifests in the listing *)

Lemma Manifests_models_eq (c : bool) (ms : gmap Name Manifest) (w : World) :
  Manifests_models c ms w
  = if enabled w then
      match createAppleManifests (announced w) with
      | (Ok syn, w2) => (Ok (syn ∪ ms), w2)
      | (Err err, w2) =>
          if c then (Ok ms, snd (slog Warn "failed to get models" w2))
          else (Err (Wrapf "failed to get models: " err), w2)
      end
    else (Ok ms, announced w).
Proof.
  unfold Manifests_models, enabled, announced, bind, os_Getenv, slog, ret. cbn [snd].
  fold flag. destruct (bool_decide _); [|reflexivity].
  destruct (createAppleManifests _) as [[syn|e] w2]; [reflexivity|].
  destruct c; reflexivity.
Qed.

Lemma Manifests_Ok (c : bool) (w wf : World) (final : gmap Name Manifest) :
  Manifests c w = (Ok final, wf) ->
  exists root w0 matches ms w1,
    GetManifestPath w = (Ok root, w0)
    /\ fst (filepath_Glob4 root w0) = Ok matches
    /\ Manifests_loop root c matches ∅ (touch (AGlob root) w0) = (Ok ms, w1)
    /\ Manifests_models c ms w1 = (Ok final, wf).
Proof.
  unfold Manifests. unfold bind at 1.
  destruct (GetManifestPath w) as [[root|e] w0]; [|discriminate].
  unfold bind at 1.
  destruct (filepath_Glob4 root w0) as [[matches|e] wg] eqn:Hg; [|discriminate].
  assert (wg = touch (AGlob root) w0) as -> by (unfold filepath_Glob4 in Hg; congruence).
  unfold bind.
  destruct (Manifests_loop _ _ _ _ _) as [[ms|e] w1] eqn:Hl; [|discriminate].
  intros H. exists root, w0, matches, ms, w1.
  split; [reflexivity|]. split; [now rewrite Hg|]. split; [exact Hl|exact H].
Qed.

(** C4 (amended).  When [Manifests] returns a map, it has collected a map
    [ms] from the matches of the glob on the store, each manifest read by
    [ParseNamedManifest] in a turn of the loop, at a match that is not a
    directory, from a regular file, and has then read the switch.  With
    the switch on, every manifest [createAppleManifests] made is in the
    result under its name, marker set, whatever [ms] held under that name,
    and the other names are as in [ms].  With the switch off
    [createAppleManifests] is not called: the result is [ms], so a name is
    in it only if a file backs it, with a file info and a [filepath], which
    no manifest of [createAppleManifests] has; the marker of a manifest is
    then the one its file carries. *)
Theorem Manifests_synthetic_override (continueOnError : bool) (w wf : World)
    (final : gmap Name Manifest) :
  Manifests continueOnError w = (Ok final, wf) ->
  exists root w0 matches ms w1,
    GetManifestPath w = (Ok root, w0)
    /\ fst (filepath_Glob4 root w0) = Ok matches
    /\ Manifests_loop root continueOnError matches ∅ (touch (AGlob root) w0) = (Ok ms, w1)
    /\ (forall n m, ms !! n = Some m ->
          read_in_loop root continueOnError matches (touch (AGlob root) w0) n m)
    /\ Manifests_models continueOnError ms w1 = (Ok final, wf)
    /\ (if enabled w1 then
          forall syn w2,
            createAppleManifests (announced w1) = (Ok syn, w2) ->
            (forall n m, syn !! n = Some m ->
               final !! n = Some m /\ Manifest.IsAppleFoundationModel m = true)
            /\ (forall n, syn !! n = None -> final !! n = ms !! n)
        else
          final = ms
          /\ wf = announced w1
          /\ forall n m, final !! n = Some m ->
               read_in_loop root continueOnError matches (touch (AGlob root) w0) n m
               /\ (exists i, Manifest.fi m = Some i)
               /\ Manifest.filepath m <> []
               /\ forall configData, m <> apple_manifest configData).
Proof.
  intros H. apply Manifests_Ok in H as (root & w0 & matches & ms & w1 & Hg & Hgl & Hl & Hm).
  exists root, w0, matches, ms, w1.
  assert (Hback : forall n m, ms !! n = Some m ->
                    read_in_loop root continueOnError matches (touch (AGlob root) w0) n m).
  { intros n m Hn.
    destruct (Manifests_loop_read root continueOnError (touch (AGlob root) w0) matches
                [] ∅ ms _ w1 eq_refl Hl n m Hn) as [He|He];
      [now rewrite lookup_empty in He|exact He]. }
  split; [exact Hg|]. split; [exact Hgl|]. split; [exact Hl|].
  split; [exact Hback|]. split; [exact Hm|].
  rewrite Manifests_models_eq in Hm.
  destruct (enabled w1).
  - intros syn w2 Hc. rewrite Hc in Hm. injection Hm as <- <-.
    split.
    + intros n m Hn. split; [now apply lookup_union_Some_l|].
      apply createAppleManifests_Ok in Hc as (cd & _ & _ & -> & _).
      apply lookup_singleton_Some in Hn as [_ <-]. reflexivity.
    + intros n Hn. now apply lookup_union_r.
  - injection Hm as <- <-. split; [reflexivity|]. split; [reflexivity|].
    intros n m Hn. pose proof (Hback n m Hn) as Hr. split; [exact Hr|].
    destruct Hr as (pre & p & rest & ms0 & wa & fi & wb & wc & rel & content & mode & mtime
                    & d & _ & _ & _ & _ & _ & _ & _ & Hp & He & _).
    pose proof Hp as Hp'.
    apply ParseNamedManifest_Ok in Hp'
      as (r & w2 & c & mode' & mtime' & _ & _ & Hpath & _ & _ & [i Hi] & _).
    split; [eauto|]. split.
    + eapply ParseNamedManifest_Ok_path; eauto.
    + intros cd ->. discriminate.
Qed.

End Tolerance.


(** C9 on a store that holds the demo manifest and a link that cannot be
    resolved: the tolerant listing ends with the error of [os.Stat]. *)
Lemma Manifests_stat_failure_aborts_witness :
  Manifests (C := Demo.collaborators) true Demo.linked_world
  = (Err (PathError "stat" Demo.p_linked ELOOP), Demo.linked_w2)
  /\ logged Demo.linked_w2 = logged Demo.linked_w1.
Proof.
  apply (Manifests_stat_failure_aborts (C := Demo.collaborators) true Demo.linked_world
           Demo.linked_w0 Demo.linked_w1 Demo.linked_w2 Demo.root [Demo.p_latest] []
           Demo.p_linked Demo.linked_ms);
    compute_done.
Defined.


(** The tolerant listing of that store returns the one manifest that can
    be read, and no error. *)
Example Manifests_tolerant_demo :
  (fun r => match r with
            | Ok ms => Some (map fst (map_to_list ms))
            | Err _ => None
            end) (fst (Manifests (C := Demo.collaborators) true Demo.damaged_world))
  = Some [Demo.demo].
Proof. vm_compute. reflexivity. Qed.

(** C4 as stated fails on the marker: with the switch off, the store
    that holds a manifest file with the marker set is listed with that
    manifest, marker set. *)
Lemma Manifests_lists_marked_file :
  env Demo.marked_world !! flag = None
  /\ fst (Manifests (C := Demo.collaborators) true Demo.marked_world)
     = Ok (returned ∅ (fst (Manifests (C := Demo.collaborators) true Demo.marked_world)))
  /\ option_map Manifest.IsAppleFoundationModel
       (returned ∅ (fst (Manifests (C := Demo.collaborators) true Demo.marked_world))
          !! Demo.demo)
     = Some true.
Proof. split; [reflexivity|]. split; compute_done. Qed.

(** C4 (amended) on a store with a manifest file under the name of the
    synthetic model, the switch on. *)
Lemma Manifests_synthetic_override_witness :
  exists root w0 matches ms w1,
    @GetManifestPath Demo.collaborators (Demo.apple_world "1") = (Ok root, w0)
    /\ fst (filepath_Glob4 (C := Demo.collaborators) root w0) = Ok matches
    /\ Manifests_loop (C := Demo.collaborators) root true matches ∅ (touch (AGlob root) w0)
       = (Ok ms, w1)
    /\ (forall n m, ms !! n = Some m ->
          read_in_loop (C := Demo.collaborators) root true matches (touch (AGlob root) w0) n m)
    /\ Manifests_models (C := Demo.collaborators) true ms w1
       = (Ok (returned ∅ (fst listing)), snd listing)
    /\ (if enabled w1 then
          forall syn w2,
            createAppleManifests (C := Demo.collaborators) (announced w1) = (Ok syn, w2) ->
            (forall n m, syn !! n = Some m ->
               returned ∅ (fst listing) !! n = Some m
               /\ Manifest.IsAppleFoundationModel m = true)
            /\ (forall n, syn !! n = None -> returned ∅ (fst listing) !! n = ms !! n)
        else
          returned ∅ (fst listing) = ms
          /\ snd listing = announced w1
          /\ forall n m, returned ∅ (fst listing) !! n = Some m ->
               read_in_loop (C := Demo.collaborators) root true matches
                 (touch (AGlob root) w0) n m
               /\ (exists i, Manifest.fi m = Some i)
               /\ Manifest.filepath m <> []
               /\ forall configData, m <> apple_manifest configData).
Proof.
  apply (Manifests_synthetic_override (C := Demo.collaborators) true (Demo.apple_world "1")
           (snd listing) (returned ∅ (fst listing))).
  compute_done.
Defined.

(** With the switch on the synthetic manifest stands under the name where
    the file was read; with it off the manifest read from the file does. *)
Example Manifests_override_demo :
  returned ∅ (fst (Manifests (C := Demo.collaborators) true (Demo.apple_world "1"))) !! Demo.apple
  = Some (apple_manifest (str "{}"))
  /\ option_map Manifest.IsAppleFoundationModel
       (returned ∅ (fst (Manifests (C := Demo.collaborators) true (Demo.apple_world "0")))
          !! Demo.apple)
     = Some false.
Proof. split; vm_compute; reflexivity. Qed.

(** ** Writing and removing *)

Section Writing.
Context {C : Collaborators}.

Lemma os_MkdirAll_accesses (p : path) (w : World) :
  accesses (snd (os_MkdirAll p w)) = AMkdirAll p :: accesses w.
Proof. unfold os_MkdirAll. now destruct (mkdirs (fs w) [] p). Qed.

Lemma os_Create_accesses (p : path) (w : World) :
  accesses (snd (os_Create p w)) = ACreate p :: accesses w.
Proof.
  unfold os_Create. destruct (no_path p); [reflexivity|].
  destruct (entry (fs w) p) as [e|[| |]]; try reflexivity.
  destruct (no_path (filepath_Dir p)); [reflexivity|].
  now destruct (entry (fs w) (filepath_Dir p)) as [e'|[| |]].
Qed.

Lemma File_Write_accesses (p : path) (b : bytes) (w : World) :
  accesses (snd (File_Write p b w)) = AWrite p :: accesses w.
Proof. unfold File_Write. now destruct (fs w !! p) as [[| |]|]. Qed.

(** C7 (the code's behaviour).  [WriteManifest] makes no test of its
    name, fully qualified or not: it starts with [GetManifestPath], whose
    error it returns as it is, and otherwise goes on to [os.MkdirAll],
    [os.Create] and the write at the path [Filepath] gives; the call of
    [os.MkdirAll] is on the record of file-system calls whatever follows. *)
Theorem WriteManifest_has_no_guard (name : Name) (config : Layer) (layers : slice Layer)
    (w : World) :
  WriteManifest name config layers w
  = match GetManifestPath w with
    | (Err e, w') => (Err e, w')
    | (Ok root, w1) =>
        (run os_MkdirAll (filepath_Dir (root ++ Filepath name));
         run os_Create (root ++ Filepath name);
         File_Write (root ++ Filepath name)
           (Encoder_Encode (Manifest.mk 2 manifest_MediaType config layers false [] None "")))
          w1
    end
  /\ match GetManifestPath w with
     | (Err _, _) => True
     | (Ok root, _) =>
         In (AMkdirAll (filepath_Dir (root ++ Filepath name)))
            (accesses (snd (WriteManifest name config layers w)))
     end.
Proof.
  unfold WriteManifest, filepath_Join, bind.
  destruct (GetManifestPath w) as [[root|e] w1] eqn:Hg; [|split; [reflexivity|exact I]].
  split; [reflexivity|].
  pose proof (os_MkdirAll_accesses (filepath_Dir (root ++ Filepath name)) w1) as H1.
  destruct (os_MkdirAll _ w1) as [[[]|e] wa]; cbn [snd] in *; [|rewrite H1; now left].
  pose proof (os_Create_accesses (root ++ Filepath name) wa) as H2.
  destruct (os_Create _ wa) as [[[]|e] wb]; cbn [snd] in *;
    [|rewrite H2, H1; right; now left].
  rewrite File_Write_accesses, H2, H1. right. right. now left.
Qed.

(** [os.Remove] on the empty path fails and changes no file. *)
Lemma Remove_no_path (m : Manifest) (w : World) :
  Manifest.filepath m = [] ->
  Remove m w = (Err (PathError "remove" [] ENOENT), touch (ARemove []) w).
Proof. intros H. unfold Remove, bind, os_Remove. rewrite H. reflexivity. Qed.

(** C8 (amended).  [Remove] has no test of the marker and there is no
    Protected error.  On a manifest [createAppleManifests] made, whose
    filepath is empty, it fails with the not-exist path error of
    [os.Remove], with every file left in place and neither
    [GetManifestPath] nor [PruneDirectory] called. *)
Theorem Remove_synthetic_not_found (w w' w2 : World) (ms : gmap Name Manifest)
    (n : Name) (m : Manifest) :
  createAppleManifests w = (Ok ms, w') ->
  ms !! n = Some m ->
  Manifest.IsAppleFoundationModel m = true
  /\ Remove m w2 = (Err (PathError "remove" [] ENOENT), touch (ARemove []) w2)
  /\ fs (snd (Remove m w2)) = fs w2.
Proof.
  intros Hc Hl.
  apply createAppleManifests_Ok in Hc as (configData & _ & _ & -> & _).
  apply lookup_singleton_Some in Hl as [_ <-].
  split; [reflexivity|].
  now rewrite Remove_no_path.
Qed.

End Writing.

(** C7 at its failing input on the demo collaborators: [WriteManifest]
    on a name with no tag returns no error and leaves a file. *)
Example WriteManifest_untagged_writes :
  fst (WriteManifest (C := Demo.collaborators) Demo.untagged Demo.config (Some [Demo.weights])
         Demo.empty_world) = Ok tt
  /\ fs (snd (WriteManifest (C := Demo.collaborators) Demo.untagged Demo.config
               (Some [Demo.weights]) Demo.empty_world)) !! (Demo.library ++ ["demo"])
     = Some (File (Encoder_Encode demo_manifest) 420 0).
Proof. split; compute_done. Qed.

(** C8 as stated fails: a manifest read from a file that sets the marker
    has the marker, and [Remove] deletes its file and returns no error. *)
Lemma Remove_marked_deletes :
  Manifest.IsAppleFoundationModel Demo.marked_manifest = true
  /\ fs Demo.marked_world !! Demo.p_latest = Some (File Demo.marked_file 420 0)
  /\ fst (Remove (C := Demo.collaborators) Demo.marked_manifest Demo.marked_world) = Ok tt
  /\ fs (snd (Remove (C := Demo.collaborators) Demo.marked_manifest Demo.marked_world))
       !! Demo.p_latest = None.
Proof. repeat split; compute_done. Qed.

(** C8 (amended) on the demo collaborators. *)
Lemma Remove_synthetic_not_found_witness :
  Manifest.IsAppleFoundationModel (apple_manifest (str "{}")) = true
  /\ Remove (C := Demo.collaborators) (apple_manifest (str "{}")) Demo.written_world
     = (Err (PathError "remove" [] ENOENT), touch (ARemove []) Demo.written_world)
  /\ fs (snd (Remove (C := Demo.collaborators) (apple_manifest (str "{}")) Demo.written_world))
     = fs Demo.written_world.
Proof.
  apply (Remove_synthetic_not_found (C := Demo.collaborators) Demo.empty_world
           (snd (createAppleManifests (C := Demo.collaborators) Demo.empty_world))
           Demo.written_world {[ Demo.apple := apple_manifest (str "{}") ]} Demo.apple);
    compute_done.
Defined.

(** ** UTF-8 and quoted strings *)

Lemma byte_val_range (c : ascii) : 0 <= byte_val c < 256.
Proof.
  unfold byte_val. pose proof (N_ascii_bounded c) as H. lia.
Qed.

Lemma byte_of_val (c : ascii) : byte_of (byte_val c) = c.
Proof.
  unfold byte_of, byte_val. pose proof (N_ascii_bounded c) as H.
  rewrite Z.mod_small by lia. rewrite N2Z.id. apply ascii_N_embedding.
Qed.

Lemma byte_val_inj (a b : ascii) : byte_val a = byte_val b -> a = b.
Proof. intros H. rewrite <- (byte_of_val a), <- (byte_of_val b). now rewrite H. Qed.

Lemma lor_shiftl_add (a b n : Z) :
  0 <= n -> 0 <= a -> 0 <= b < 2 ^ n -> Z.lor (Z.shiftl a n) b = a * 2 ^ n + b.
Proof.
  intros Hn Ha Hb.
  rewrite <- Z.shiftl_mul_pow2 by lia.
  assert (H0 : Z.land (Z.shiftl a n) b = 0).
  { apply Z.bits_inj'; intros i Hi; rewrite Z.land_spec, Z.bits_0.
    destruct (Z.lt_ge_cases i n) as [L|G].
    - rewrite Z.shiftl_spec_low by lia. reflexivity.
    - destruct (Z.eq_dec b 0) as [->|Hb0]; [now rewrite Z.bits_0, andb_false_r|].
      assert (Z.log2 b < n) by (apply Z.log2_lt_pow2; lia).
      rewrite (Z.bits_above_log2 b i), andb_false_r; [reflexivity|lia|lia]. }
  now rewrite (Z.add_nocarry_lxor _ _ H0), (Z.lxor_lor _ _ H0).
Qed.


Ltac bool_hyps :=
  repeat match goal with
         | H : _ && _ = true |- _ => apply andb_true_iff in H as [? ?]
         | H : _ || _ = false |- _ => apply orb_false_iff in H as [? ?]
         | H : (_ <=? _) = true |- _ => apply Z.leb_le in H
         | H : (_ <=? _) = false |- _ => apply Z.leb_gt in H
         | H : (_ <? _) = true |- _ => apply Z.ltb_lt in H
         | H : (_ <? _) = false |- _ => apply Z.ltb_ge in H
         | H : (_ =? _) = true |- _ => apply Z.eqb_eq in H
         | H : (_ =? _) = false |- _ => apply Z.eqb_neq in H
         | H : in_range _ _ _ = true |- _ => unfold in_range in H
         end.

Ltac bool_goal :=
  repeat (match goal with
          | |- context [?a <? ?b] =>
              first [ replace (a <? b) with true by (symmetry; apply Z.ltb_lt; lia)
                    | replace (a <? b) with false by (symmetry; apply Z.ltb_ge; lia) ]
          | |- context [?a <=? ?b] =>
              first [ replace (a <=? b) with true by (symmetry; apply Z.leb_le; lia)
                    | replace (a <=? b) with false by (symmetry; apply Z.leb_gt; lia) ]
          | |- context [?a =? ?b] =>
              first [ replace (a =? b) with true by (symmetry; apply Z.eqb_eq; lia)
                    | replace (a =? b) with false by (symmetry; apply Z.eqb_neq; lia) ]
          end; cbn [andb orb negb]).

Lemma land_ones_mod (x n : Z) : 0 <= n -> Z.land x (Z.ones n) = x mod 2 ^ n.
Proof. intros. now apply Z.land_ones. Qed.

Lemma lor_hi (hi k n : Z) :
  0 <= n -> 0 <= hi -> 0 <= k < 2 ^ n -> Z.lor (hi * 2 ^ n) k = hi * 2 ^ n + k.
Proof. intros. rewrite <- lor_shiftl_add by lia. now rewrite Z.shiftl_mul_pow2 by lia. Qed.

Lemma EncodeRune_1 (r : Z) : 0 <= r < 0x80 -> utf8_EncodeRune r = [byte_of r].
Proof. intros H. unfold utf8_EncodeRune. bool_goal. reflexivity. Qed.

Lemma EncodeRune_2 (r : Z) :
  0x80 <= r < 0x800 ->
  utf8_EncodeRune r = [byte_of (192 + r / 64); byte_of (128 + r mod 64)].
Proof.
  intros H. unfold utf8_EncodeRune. bool_goal.
  rewrite Z.shiftr_div_pow2 by lia. change 0x3F with (Z.ones 6).
  rewrite land_ones_mod by lia.
  change 0xC0 with (6 * 2 ^ 5). change 0x80 with (2 * 2 ^ 6).
  rewrite !lor_hi; try lia; [reflexivity| |]; Z.div_mod_to_equations; lia.
Qed.

Lemma EncodeRune_3 (r : Z) :
  0x800 <= r < 0x10000 -> ~ (0xD800 <= r <= 0xDFFF) ->
  utf8_EncodeRune r
  = [byte_of (224 + r / 4096); byte_of (128 + (r / 64) mod 64); byte_of (128 + r mod 64)].
Proof.
  intros H Hs. unfold utf8_EncodeRune.
  replace ((r <? 0) || (1114111 <? r) || (55296 <=? r) && (r <=? 57343)) with false.
  2:{ symmetry. apply orb_false_iff. split; [apply orb_false_iff; split|].
      - apply Z.ltb_ge; lia.
      - apply Z.ltb_ge; lia.
      - destruct (55296 <=? r) eqn:A; destruct (r <=? 57343) eqn:B; try reflexivity.
        apply Z.leb_le in A, B. lia. }
  bool_goal.
  rewrite !Z.shiftr_div_pow2 by lia. change 0x3F with (Z.ones 6).
  rewrite !land_ones_mod by lia.
  change 0xE0 with (14 * 2 ^ 4). change 0x80 with (2 * 2 ^ 6).
  rewrite !lor_hi; try lia; [reflexivity| | |]; Z.div_mod_to_equations; lia.
Qed.

Lemma EncodeRune_4 (r : Z) :
  0x10000 <= r <= 0x10FFFF ->
  utf8_EncodeRune r
  = [byte_of (240 + r / 262144); byte_of (128 + (r / 4096) mod 64);
     byte_of (128 + (r / 64) mod 64); byte_of (128 + r mod 64)].
Proof.
  intros H. unfold utf8_EncodeRune.
  replace ((r <? 0) || (1114111 <? r) || (55296 <=? r) && (r <=? 57343)) with false.
  2:{ symmetry. apply orb_false_iff. split; [apply orb_false_iff; split|].
      - apply Z.ltb_ge; lia.
      - apply Z.ltb_ge; lia.
      - replace (r <=? 57343) with false by (symmetry; apply Z.leb_gt; lia).
        apply andb_false_r. }
  bool_goal.
  rewrite !Z.shiftr_div_pow2 by lia. change 0x3F with (Z.ones 6).
  rewrite !land_ones_mod by lia.
  change 0xF0 with (30 * 2 ^ 3). change 0x80 with (2 * 2 ^ 6).
  rewrite !lor_hi; try lia; [reflexivity| | | |]; Z.div_mod_to_equations; lia.
Qed.

Lemma cont_bits_mod (b : ascii) : cont_bits b = byte_val b mod 64.
Proof. unfold cont_bits. change 0x3F with (Z.ones 6). now rewrite land_ones_mod. Qed.

Lemma byte_of_eq (v : Z) (b : ascii) : v = byte_val b -> byte_of v = b.
Proof. intros ->. apply byte_of_val. Qed.

Ltac pow2 :=
  change (2 ^ 3) with 8 in *; change (2 ^ 4) with 16 in *; change (2 ^ 5) with 32 in *;
  change (2 ^ 6) with 64 in *; change (2 ^ 12) with 4096 in *;
  change (2 ^ 18) with 262144 in *.

Ltac arith := pow2; Z.div_mod_to_equations; lia.

Ltac bytes_eq :=
  cbn [firstn];
  repeat (apply (f_equal2 cons); [apply byte_of_eq; arith|]);
  reflexivity.

(** Re-encoding a rune that was decoded gives back the bytes it was decoded from. *)
Lemma utf8_Encode_Decode (src : bytes) (c : Z) (size : nat) :
  utf8_DecodeRune src = Some (c, size) ->
  utf8_EncodeRune c = firstn size src.
Proof.
  unfold utf8_DecodeRune. destruct src as [|b0 t]; [discriminate|].
  pose proof (byte_val_range b0) as R0.
  destruct (byte_val b0 <? 128) eqn:E1.
  { intros [= <- <-]. bool_hyps. rewrite EncodeRune_1 by lia. bytes_eq. }
  destruct ((194 <=? byte_val b0) && (byte_val b0 <=? 223)) eqn:E2.
  { destruct t as [|b1 t]; [discriminate|].
    destruct (in_range 128 191 b1) eqn:I1; [|discriminate].
    intros [= <- <-]. bool_hyps.
    rewrite cont_bits_mod. change 31 with (Z.ones 5). rewrite land_ones_mod by lia.
    rewrite lor_shiftl_add by (try lia; arith).
    rewrite EncodeRune_2 by arith. bytes_eq. }
  destruct ((224 <=? byte_val b0) && (byte_val b0 <=? 239)) eqn:E3.
  { destruct t as [|b1 [|b2 t]]; try discriminate.
    destruct (in_range _ _ b1 && in_range 128 191 b2) eqn:I1; [|discriminate].
    intros [= <- <-]. bool_hyps.
    pose proof (byte_val_range b1). pose proof (byte_val_range b2).
    rewrite !cont_bits_mod. change 15 with (Z.ones 4). rewrite land_ones_mod by lia.
    rewrite (lor_shiftl_add (byte_val b1 mod 64)) by (try lia; arith).
    rewrite lor_shiftl_add by (try lia; arith).
    destruct (byte_val b0 =? 224) eqn:Q; destruct (byte_val b0 =? 237) eqn:Q'; bool_hyps;
      (rewrite EncodeRune_3; [bytes_eq|arith|arith]). }
  destruct ((240 <=? byte_val b0) && (byte_val b0 <=? 244)) eqn:E4; [|discriminate].
  destruct t as [|b1 [|b2 [|b3 t]]]; try discriminate.
  destruct (in_range _ _ b1 && in_range 128 191 b2 && in_range 128 191 b3) eqn:I1;
    [|discriminate].
  intros [= <- <-]. bool_hyps.
  rewrite !cont_bits_mod. change 7 with (Z.ones 3). rewrite land_ones_mod by lia.
  rewrite (lor_shiftl_add (byte_val b2 mod 64)) by (try lia; arith).
  rewrite (lor_shiftl_add (byte_val b1 mod 64)) by (try lia; arith).
  rewrite lor_shiftl_add by (try lia; arith).
  pose proof (byte_val_range b1). pose proof (byte_val_range b2).
  pose proof (byte_val_range b3).
  destruct (byte_val b0 =? 240) eqn:Q; destruct (byte_val b0 =? 244) eqn:Q'; bool_hyps;
    (rewrite EncodeRune_4; [bytes_eq|arith]).
Qed.

(** What [utf8.DecodeRune] returns depends on the bytes of the rune alone. *)
Lemma utf8_DecodeRune_app (src X : bytes) (c : Z) (size : nat) :
  utf8_DecodeRune src = Some (c, size) ->
  utf8_DecodeRune (firstn size src ++ X) = Some (c, size)
  /\ length (firstn size src) = size
  /\ skipn size (firstn size src ++ X) = X
  /\ (1 <= size)%nat.
Proof.
  unfold utf8_DecodeRune. destruct src as [|b0 t]; [discriminate|].
  destruct (byte_val b0 <? 128) eqn:E1.
  { intros [= <- <-]. cbn. rewrite E1. repeat split; lia. }
  destruct ((194 <=? byte_val b0) && (byte_val b0 <=? 223)) eqn:E2.
  { destruct t as [|b1 t]; [discriminate|].
    destruct (in_range 128 191 b1) eqn:I1; [|discriminate].
    intros [= <- <-]. cbn. rewrite E1, E2, I1. repeat split; lia. }
  destruct ((224 <=? byte_val b0) && (byte_val b0 <=? 239)) eqn:E3.
  { destruct t as [|b1 [|b2 t]]; try discriminate.
    destruct (in_range _ _ b1 && in_range 128 191 b2) eqn:I1; [|discriminate].
    intros [= <- <-]. cbn. rewrite E1, E2, E3, I1. repeat split; lia. }
  destruct ((240 <=? byte_val b0) && (byte_val b0 <=? 244)) eqn:E4; [|discriminate].
  destruct t as [|b1 [|b2 [|b3 t]]]; try discriminate.
  destruct (in_range _ _ b1 && in_range 128 191 b2 && in_range 128 191 b3) eqn:I1;
    [|discriminate].
  intros [= <- <-]. cbn. rewrite E1, E2, E3, E4, I1. repeat split; lia.
Qed.

Lemma utf8_DecodeRune_ascii (b : ascii) (t : bytes) :
  byte_val b < 128 -> utf8_DecodeRune (b :: t) = Some (byte_val b, 1%nat).
Proof. intros H. unfold utf8_DecodeRune. now apply Z.ltb_lt in H as ->. Qed.

Lemma string_body_escape_ascii (b : ascii) (f : nat) (X : bytes) :
  byte_val b < 128 ->
  string_body (S f) (escape_ascii b ++ X) = prepend [b] (string_body f X).
Proof.
  destruct b as [b0 b1 b2 b3 b4 b5 b6 [|]]; intros H;
    [cbv in H; destruct b0, b1, b2, b3, b4, b5, b6; discriminate|].
  clear H. destruct b0, b1, b2, b3, b4, b5, b6; reflexivity.
Qed.

Lemma escape_ascii_length (b : ascii) : (1 <= length (escape_ascii b))%nat.
Proof.
  unfold escape_ascii.
  repeat match goal with |- context [if ?c then _ else _] => destruct c end;
    cbn; rewrite ?length_app; cbn; lia.
Qed.

Lemma is_char_false (c d : ascii) : byte_val c <> byte_val d -> is_char c d = false.
Proof. intros H. unfold is_char. now apply Z.eqb_neq. Qed.

(** A string of well-formed UTF-8 comes back from its quoted form. *)
Lemma string_body_appendString (n : nat) :
  forall (src rest : bytes) (fuel : nat),
    (length src <= n)%nat ->
    utf8_Valid_fuel n src = true ->
    (length (appendString_fuel n src) < fuel)%nat ->
    string_body fuel (appendString_fuel n src ++ quote_char :: rest) = Some (src, rest).
Proof.
  induction n as [|n IH]; intros src rest fuel Hlen Hval Hfuel.
  - destruct src; [|cbn in Hlen; lia]. destruct fuel; [cbn in Hfuel; lia|]. reflexivity.
  - destruct src as [|b t].
    { destruct fuel; [cbn in Hfuel; lia|]. reflexivity. }
    destruct fuel as [|f]; [lia|].
    cbn [appendString_fuel utf8_Valid_fuel] in *.
    destruct (byte_val b <? 128) eqn:E.
    + apply Z.ltb_lt in E. rewrite utf8_DecodeRune_ascii in Hval by assumption.
      cbn [skipn] in Hval. rewrite <- app_assoc, string_body_escape_ascii by assumption.
      rewrite length_app in Hfuel. pose proof (escape_ascii_length b).
      rewrite IH; [reflexivity|cbn in Hlen; lia|assumption|lia].
    + apply Z.ltb_ge in E.
      destruct (utf8_DecodeRune (b :: t)) as [[c k]|] eqn:D; [|discriminate].
      destruct (utf8_DecodeRune_app (b :: t)
                  (appendString_fuel n (skipn k (b :: t)) ++ quote_char :: rest) c k D)
        as (Dapp & Lk & Sk & K1).
      pose proof (utf8_Encode_Decode _ _ _ D) as ED.
      assert (Hl' : (length (skipn k (b :: t)) <= n)%nat).
      { rewrite length_skipn. cbn [length] in *. lia. }
      destruct ((c =? 8232) || (c =? 8233)) eqn:Sp.
      * assert (G : string_body (S f)
                      (str "\u202" ++ hexdigit (Z.land c 15)
                         :: appendString_fuel n (skipn k (b :: t)) ++ quote_char :: rest)
                    = prepend (utf8_EncodeRune c)
                        (string_body f (appendString_fuel n (skipn k (b :: t))
                                          ++ quote_char :: rest))).
        { apply orb_true_iff in Sp as [Sp|Sp]; apply Z.eqb_eq in Sp; subst c; reflexivity. }
        change ((str "\u202" ++ hexdigit (Z.land c 15) :: appendString_fuel n (skipn k (b :: t)))
                ++ quote_char :: rest)
          with (str "\u202" ++ hexdigit (Z.land c 15)
                  :: appendString_fuel n (skipn k (b :: t)) ++ quote_char :: rest).
        rewrite G, IH; [|assumption|assumption|cbn in Hfuel; lia].
        cbn [prepend]. now rewrite ED, firstn_skipn.
      * rewrite <- app_assoc.
        assert (G : string_body (S f)
                      (firstn k (b :: t)
                         ++ appendString_fuel n (skipn k (b :: t)) ++ quote_char :: rest)
                    = prepend (utf8_EncodeRune c)
                        (string_body f (appendString_fuel n (skipn k (b :: t))
                                          ++ quote_char :: rest))).
        { destruct k as [|k']; [lia|]. cbn [firstn app string_body].
          pose proof (byte_val_range b).
          unfold is_char. change (byte_val quote_char) with 34.
          change (byte_val backslash) with 92. bool_goal.
          change (b :: firstn k' t ++ ?Y) with (firstn (S k') (b :: t) ++ Y).
          now rewrite Dapp, Sk. }
        rewrite length_app, Lk in Hfuel.
        rewrite G, IH; [|assumption|assumption|lia].
        cbn [prepend]. now rewrite ED, firstn_skipn.
Qed.

(** ** Integers in decimal *)

Lemma length_str (s : string) : length (str s) = String.length s.
Proof. unfold str. induction s; cbn; congruence. Qed.

Lemma str_unstr (b : bytes) : str (unstr b) = b.
Proof. apply list_ascii_of_string_of_list_ascii. Qed.

Lemma unstr_str (s : string) : unstr (str s) = s.
Proof. apply string_of_list_ascii_of_string. Qed.

(** *** Decimal digits *)

Lemma uint_digits (d : Decimal.uint) :
  forallb isDigit (str (NilEmpty.string_of_uint d)) = true.
Proof. induction d; cbn; try reflexivity; assumption. Qed.

Lemma to_uint_normal (p : positive) : Decimal.nzhead (Pos.to_uint p) = Pos.to_uint p.
Proof.
  pose proof (Unsigned.to_of (Pos.to_uint p)) as H.
  rewrite Unsigned.of_to in H. cbn in H.
  pose proof (Unsigned.to_uint_nonzero p) as Hz.
  unfold Decimal.unorm in H.
  destruct (Decimal.nzhead (Pos.to_uint p)) eqn:E; now symmetry.
Qed.

(** The decimal form of a positive number: a digit that is not [0], then
    digits. *)
Lemma to_uint_shape (p : positive) :
  exists c cs,
    str (NilZero.string_of_uint (Pos.to_uint p)) = c :: cs
    /\ isDigit c = true /\ is_char c "0" = false /\ forallb isDigit cs = true.
Proof.
  pose proof (to_uint_normal p) as N. pose proof (uint_digits (Pos.to_uint p)) as D.
  pose proof (nzhead_nonzero (Pos.to_uint p)) as NZ. rewrite N in NZ.
  pose proof (Unsigned.to_uint_nonnil p) as NN.
  unfold NilZero.string_of_uint.
  destruct (Pos.to_uint p) as [|u|u|u|u|u|u|u|u|u|u]; try congruence;
    try (eexists _, _; split; [reflexivity|]; cbn in D |- *; repeat split; auto; fail).
Qed.

Lemma span_digits_app (ds rest : bytes) :
  forallb isDigit ds = true ->
  match rest with [] => true | c :: _ => negb (isDigit c) end = true ->
  span_digits (ds ++ rest) = (ds, rest).
Proof.
  intros Hd Hr. induction ds as [|d ds IH]; cbn in *.
  - destruct rest as [|c r]; [reflexivity|]. cbn. now apply negb_true_iff in Hr as ->.
  - apply andb_true_iff in Hd as [-> Hd]. now rewrite IH.
Qed.

Lemma ends_number_digit (rest : bytes) :
  ends_number rest = true -> match rest with [] => true | c :: _ => negb (isDigit c) end = true.
Proof.
  destruct rest as [|c r]; [reflexivity|]. cbn. intros H.
  apply negb_true_iff in H. repeat (apply orb_false_iff in H as [H ?]). now rewrite H.
Qed.

Lemma scan_frac_end (acc rest : bytes) :
  ends_number rest = true -> scan_frac acc rest = Some (acc, rest).
Proof.
  destruct rest as [|c r]; [reflexivity|]. cbn. intros H.
  apply negb_true_iff in H. repeat (apply orb_false_iff in H as [H ?]).
  unfold scan_frac, scan_exp.
  repeat match goal with H : _ = false |- _ => rewrite H; clear H end. reflexivity.
Qed.

Lemma isDigit_not_minus (c : ascii) : isDigit c = true -> is_char c "-" = false.
Proof.
  unfold isDigit, in_range, is_char. intros H. apply andb_true_iff in H as [H1 H2].
  apply Z.leb_le in H1, H2. apply Z.eqb_neq. change (byte_val "-") with 45. lia.
Qed.

Lemma scan_number_digits (c : ascii) (cs rest sign : bytes) :
  isDigit c = true -> is_char c "0" = false -> forallb isDigit cs = true ->
  ends_number rest = true ->
  scan_number (c :: cs ++ rest) = Some (c :: cs, rest).
Proof.
  intros Hc H0 Hcs Hr. unfold scan_number.
  rewrite (isDigit_not_minus c Hc), H0, Hc.
  rewrite span_digits_app by auto using ends_number_digit.
  now rewrite scan_frac_end.
Qed.

(** A printed integer is scanned back as one number literal. *)
Lemma scan_number_appendInt (z : Z) (rest : bytes) :
  ends_number rest = true ->
  scan_number (appendInt z ++ rest) = Some (appendInt z, rest).
Proof.
  intros Hr. unfold appendInt. destruct z as [|p|p]; cbn [Z.to_int NilZero.string_of_int].
  - change (scan_number ("0"%char :: rest) = Some (["0"%char], rest)).
    unfold scan_number. change (is_char "0" "-") with false.
    change (is_char "0" "0") with true. cbn iota. cbn [app].
    now rewrite scan_frac_end.
  - destruct (to_uint_shape p) as (c & cs & -> & Hc & H0 & Hcs).
    now apply scan_number_digits.
  - destruct (to_uint_shape p) as (c & cs & E & Hc & H0 & Hcs).
    change (str (String "-" ?s)) with ("-"%char :: str s). rewrite E.
    cbn [app]. unfold scan_number. change (is_char "-" "-") with true. cbn iota.
    rewrite H0, Hc. rewrite span_digits_app by auto using ends_number_digit.
    now rewrite scan_frac_end.
Qed.

(** [strconv.ParseInt] gives back the integer that was printed. *)
Lemma parse_int_appendInt (z : Z) :
  is_int64 z = true -> parse_int (appendInt z) = Some z.
Proof.
  intros H. unfold parse_int, appendInt. rewrite unstr_str.
  assert (E : NilZero.int_of_string (NilZero.string_of_int (Z.to_int z)) = Some (Z.to_int z)).
  { destruct z as [|p|p]; [reflexivity| |]; apply NilZero.isi; cbn;
      intros [= E]; now apply (Unsigned.to_uint_nonnil p). }
  rewrite E, DecimalZ.of_to, H. reflexivity.
Qed.

(** ** Decoding what the encoder wrote *)

Lemma valid_quoted (s : string) (rest : bytes) :
  utf8_ValidString s = true ->
  string_body (length (appendString_fuel (String.length s) (str s) ++ quote_char :: rest))
              (appendString_fuel (String.length s) (str s) ++ quote_char :: rest)
  = Some (str s, rest).
Proof.
  intros H. unfold utf8_ValidString, utf8_Valid in H. rewrite length_str in H.
  apply string_body_appendString; [rewrite length_str; lia|assumption|].
  rewrite length_app. cbn. lia.
Qed.

Lemma appendString_app (s : string) (R : bytes) :
  appendString s ++ R
  = quote_char :: appendString_fuel (String.length s) (str s) ++ quote_char :: R.
Proof. unfold appendString. cbn [app]. now rewrite <- app_assoc. Qed.

Lemma parse_value_quote {dp : Z} (f : nat) (r : bytes) :
  parse_value (S f) dp (quote_char :: r)
  = match string_body (length r) r with
    | Some (s, r') => Some (JString s, r')
    | None => None
    end.
Proof. reflexivity. Qed.

Lemma parse_value_string {dp : Z} (f : nat) (s : string) (R : bytes) :
  utf8_ValidString s = true ->
  parse_value (S f) dp (appendString s ++ R) = Some (JString (str s), R).
Proof.
  intros H. now rewrite appendString_app, parse_value_quote, valid_quoted.
Qed.

Lemma appendInt_head (z : Z) :
  exists c cs, appendInt z = c :: cs /\ (isDigit c = true \/ c = "-"%char).
Proof.
  unfold appendInt. destruct z as [|p|p]; cbn [Z.to_int NilZero.string_of_int].
  - exists "0"%char, []. auto.
  - destruct (to_uint_shape p) as (c & cs & -> & Hc & _). eauto.
  - exists "-"%char. eexists. split; [reflexivity|auto].
Qed.

Lemma parse_value_number_head {dp : Z} (f : nat) (c : ascii) (r : bytes) :
  isDigit c = true \/ c = "-"%char ->
  parse_value (S f) dp (c :: r)
  = match scan_number (c :: r) with
    | Some (lit, r') => Some (JNumber lit, r')
    | None => None
    end.
Proof.
  intros [H| ->]; [|reflexivity].
  unfold isDigit, in_range in H. apply andb_true_iff in H as [H1 H2].
  apply Z.leb_le in H1, H2.
  cbn [parse_value skip_ws]. unfold isSpace, is_char.
  change (byte_val " ") with 32. change (byte_val "009") with 9.
  change (byte_val "013") with 13. change (byte_val "010") with 10.
  change (byte_val "{") with 123. change (byte_val "[") with 91.
  change (byte_val quote_char) with 34. change (byte_val "t") with 116.
  change (byte_val "f") with 102. change (byte_val "n") with 110.
  bool_goal. reflexivity.
Qed.

Lemma parse_value_int {dp : Z} (f : nat) (z : Z) (R : bytes) :
  ends_number R = true ->
  parse_value (S f) dp (appendInt z ++ R) = Some (JNumber (appendInt z), R).
Proof.
  intros H. destruct (appendInt_head z) as (c & cs & E & Hc).
  pose proof (scan_number_appendInt z R H) as Sn. rewrite E in *. cbn [app] in *.
  now rewrite parse_value_number_head, Sn.
Qed.

Lemma parse_value_bool {dp : Z} (f : nat) (b : bool) (R : bytes) :
  parse_value (S f) dp (appendBool b ++ R) = Some (JBool b, R).
Proof. destruct b; reflexivity. Qed.

Lemma parse_value_null {dp : Z} (f : nat) (R : bytes) :
  parse_value (S f) dp (str "null" ++ R) = Some (JNull, R).
Proof. reflexivity. Qed.

(** One member of an object whose value is decoded as [v]. *)
Lemma parse_members_key {dp : Z} (f : nat) (k : string) (vb R : bytes) (v : json) :
  utf8_ValidString k = true ->
  parse_value f dp (vb ++ R) = Some (v, R) ->
  parse_members (S f) dp (appendString k ++ ":"%char :: vb ++ R)
  = match skip_ws R with
    | d :: r4 =>
        if is_char d "," then
          match parse_members f dp (skip_ws r4) with
          | Some (kvs, r5) => Some ((str k, v) :: kvs, r5)
          | None => None
          end
        else if is_char d "}" then Some ([(str k, v)], r4)
        else None
    | [] => None
    end.
Proof.
  intros Hk Hv. rewrite appendString_app.
  cbn [parse_members]. change (is_char quote_char quote_char) with true. cbn iota.
  rewrite valid_quoted by assumption.
  cbn [skip_ws]. change (isSpace ":") with false. cbn iota.
  change (is_char ":" ":") with true. cbn iota.
  now rewrite Hv.
Qed.

Lemma skip_ws_appendString (k : string) (X : bytes) :
  skip_ws (appendString k ++ X) = appendString k ++ X.
Proof. now rewrite appendString_app. Qed.

Lemma parse_members_next {dp : Z} (f : nat) (k : string) (vb N : bytes) (v : json) :
  utf8_ValidString k = true ->
  parse_value f dp (vb ++ ","%char :: N) = Some (v, ","%char :: N) ->
  skip_ws N = N ->
  parse_members (S f) dp (appendString k ++ ":"%char :: vb ++ ","%char :: N)
  = match parse_members f dp N with
    | Some (kvs, r5) => Some ((str k, v) :: kvs, r5)
    | None => None
    end.
Proof.
  intros Hk Hv HN. rewrite (parse_members_key f k vb _ v Hk Hv).
  cbn [skip_ws]. change (isSpace ",") with false. cbn iota.
  change (is_char "," ",") with true. cbn iota. now rewrite HN.
Qed.

Lemma parse_members_last {dp : Z} (f : nat) (k : string) (vb R : bytes) (v : json) :
  utf8_ValidString k = true ->
  parse_value f dp (vb ++ "}"%char :: R) = Some (v, "}"%char :: R) ->
  parse_members (S f) dp (appendString k ++ ":"%char :: vb ++ "}"%char :: R)
  = Some ([(str k, v)], R).
Proof. intros Hk Hv. now rewrite (parse_members_key f k vb _ v Hk Hv). Qed.

Lemma parse_value_object {dp : Z} (f : nat) (k : string) (X : bytes) :
  dp < maxNestingDepth ->
  parse_value (S f) dp ("{"%char :: appendString k ++ X)
  = match parse_members f (dp + 1) (appendString k ++ X) with
    | Some (kvs, r'') => Some (JObject kvs, r'')
    | None => None
    end.
Proof.
  intros H. apply Z.leb_gt in H. rewrite appendString_app.
  cbn [parse_value skip_ws]. change (isSpace "{") with false. cbn iota.
  change (is_char "{" "{") with true. cbn iota. rewrite H.
  cbn [skip_ws]. change (isSpace quote_char) with false. cbn iota.
  change (is_char quote_char "}") with false. cbn iota. reflexivity.
Qed.

Lemma encode_Layer_app (l : Layer) (R : bytes) :
  encode_Layer l ++ R
  = "{"%char :: appendString "mediaType" ++ ":"%char :: appendString (Layer.MediaType l)
      ++ ","%char :: appendString "digest" ++ ":"%char :: appendString (Layer.Digest l)
      ++ ","%char :: appendString "size" ++ ":"%char :: appendInt (Layer.Size l)
      ++ "}"%char :: R.
Proof.
  unfold encode_Layer. change (str "{") with ["{"%char]. change (str ":") with [":"%char].
  change (str ",") with [","%char]. change (str "}") with ["}"%char].
  repeat rewrite <- app_assoc. reflexivity.
Qed.

Lemma parse_value_Layer {dp : Z} (f : nat) (l : Layer) (R : bytes) :
  Layer_ok l = true -> dp < maxNestingDepth ->
  parse_value (S (S (S (S (S f))))) dp (encode_Layer l ++ R) = Some (json_of_Layer l, R).
Proof.
  intros H Hdp. unfold Layer_ok in H.
  apply andb_true_iff in H as [H Hs]. apply andb_true_iff in H as [Hm Hd].
  rewrite encode_Layer_app, parse_value_object by exact Hdp.
  rewrite (parse_members_next _ "mediaType" _ _ (JString (str (Layer.MediaType l))));
    [|reflexivity|now apply parse_value_string|apply skip_ws_appendString].
  rewrite (parse_members_next _ "digest" _ _ (JString (str (Layer.Digest l))));
    [|reflexivity|now apply parse_value_string|apply skip_ws_appendString].
  rewrite (parse_members_last _ "size" _ _ (JNumber (appendInt (Layer.Size l))));
    [reflexivity|reflexivity|now apply parse_value_int].
Qed.

Lemma parse_value_more_fuel_Layer {dp : Z} (f : nat) (l : Layer) (R : bytes) :
  Layer_ok l = true -> (5 <= f)%nat -> dp < maxNestingDepth ->
  parse_value f dp (encode_Layer l ++ R) = Some (json_of_Layer l, R).
Proof.
  intros H Hf Hdp. do 5 (destruct f as [|f]; [lia|]). now apply parse_value_Layer.
Qed.

Lemma parse_elements_Layers {dp : Z} (ls : list Layer) :
  forall (l : Layer) (f : nat) (R : bytes),
    forallb Layer_ok (l :: ls) = true -> (length (l :: ls) + 5 <= f)%nat ->
    dp < maxNestingDepth ->
    parse_elements f dp (encode_elems (l :: ls) ++ "]"%char :: R)
    = Some (map json_of_Layer (l :: ls), R).
Proof.
  induction ls as [|l2 ls IH]; intros l f R Hok Hf Hdp.
  - cbn in Hok, Hf. apply andb_true_iff in Hok as [Hl _].
    destruct f as [|f]; [lia|]. cbn [encode_elems parse_elements].
    rewrite parse_value_more_fuel_Layer by (auto; lia). reflexivity.
  - cbn [forallb] in Hok. apply andb_true_iff in Hok as [Hl Hok].
    destruct f as [|f]; [cbn in Hf; lia|].
    change (encode_elems (l :: l2 :: ls))
      with (encode_Layer l ++ str "," ++ encode_elems (l2 :: ls)).
    change (str ",") with [","%char]. rewrite <- !app_assoc. cbn [app parse_elements].
    rewrite parse_value_more_fuel_Layer by (auto; cbn in Hf; lia).
    cbn [skip_ws]. change (isSpace ",") with false. cbn iota.
    change (is_char "," ",") with true. cbn iota.
    rewrite IH; [reflexivity|assumption|cbn in Hf |- *; lia|assumption].
Qed.

Lemma encode_elems_head (l : Layer) (ls : list Layer) :
  exists X, encode_elems (l :: ls) = "{"%char :: X.
Proof.
  destruct ls; cbn [encode_elems]; unfold encode_Layer; change (str "{") with ["{"%char];
    cbn [app]; eauto.
Qed.

Lemma parse_value_array {dp : Z} (f : nat) (X : bytes) :
  dp < maxNestingDepth ->
  parse_value (S f) dp ("["%char :: "{"%char :: X)
  = match parse_elements f (dp + 1) ("{"%char :: X) with
    | Some (vs, r) => Some (JArray vs, r)
    | None => None
    end.
Proof.
  intros H. apply Z.leb_gt in H.
  cbn [parse_value skip_ws]. change (isSpace "[") with false. cbn iota.
  change (is_char "[" "{") with false. change (is_char "[" "[") with true. cbn iota.
  rewrite H. cbn [skip_ws]. change (isSpace "{") with false. cbn iota.
  change (is_char "{" "]") with false. cbn iota. reflexivity.
Qed.

Lemma parse_value_Layers {dp : Z} (f : nat) (ls : slice Layer) (R : bytes) :
  forallb Layer_ok (elems ls) = true -> (length (elems ls) + 6 <= f)%nat ->
  dp + 1 < maxNestingDepth ->
  parse_value f dp (encode_Layers ls ++ R) = Some (json_of_Layers ls, R).
Proof.
  intros Hok Hf Hdp. destruct f as [|f]; [lia|].
  destruct ls as [[|l ls]|]; cbn [encode_Layers json_of_Layers].
  - assert (H : (maxNestingDepth <=? dp) = false) by (apply Z.leb_gt; lia).
    change (str "[") with ["["%char]. change (str "]") with ["]"%char].
    cbn [encode_elems app parse_value skip_ws]. change (isSpace "[") with false.
    cbn iota. change (is_char "[" "{") with false. change (is_char "[" "[") with true.
    cbn iota. rewrite H. cbn [skip_ws]. change (isSpace "]") with false. cbn iota.
    change (is_char "]" "]") with true. cbn iota. reflexivity.
  - change (str "[") with ["["%char]. change (str "]") with ["]"%char].
    rewrite <- !app_assoc. cbn [app].
    pose proof (@parse_elements_Layers (dp + 1) ls l f R Hok) as P.
    destruct (encode_elems_head l ls) as [X E]. rewrite E in *.
    cbn [app] in *. rewrite parse_value_array by lia.
    rewrite P by (cbn in Hf |- *; lia). reflexivity.
  - reflexivity.
Qed.

(** *** Storing the decoded values *)

Lemma store_Layer_json (l cur : Layer) :
  Layer_ok l = true -> store_Layer (json_of_Layer l) cur = Some l.
Proof.
  intros H. unfold Layer_ok in H.
  apply andb_true_iff in H as [H Hs]. apply andb_true_iff in H as [Hm Hd].
  unfold store_Layer, json_of_Layer. cbn [fold_left].
  unfold store_Layer_field at 3.
  change (key_is "mediaType" (str "mediaType")) with true. cbn iota.
  cbn [store_string option_map]. rewrite unstr_str.
  unfold store_Layer_field at 2.
  change (key_is "mediaType" (str "digest")) with false.
  change (key_is "digest" (str "digest")) with true. cbn iota.
  cbn [store_string option_map Layer.MediaType Layer.Digest Layer.Size]. rewrite unstr_str.
  unfold store_Layer_field.
  change (key_is "mediaType" (str "size")) with false.
  change (key_is "digest" (str "size")) with false.
  change (key_is "size" (str "size")) with true. cbn iota.
  cbn [store_int]. rewrite parse_int_appendInt by assumption.
  cbn. now destruct l.
Qed.

Lemma store_elems_json (ls : list Layer) :
  forallb Layer_ok ls = true ->
  store_elems (map json_of_Layer ls) [] = Some ls.
Proof.
  induction ls as [|l ls IH]; intros H; [reflexivity|].
  cbn [forallb] in H. apply andb_true_iff in H as [Hl H].
  cbn [map store_elems hd tl]. now rewrite store_Layer_json, IH.
Qed.

Lemma store_Layers_json (ls : slice Layer) (m : Manifest) :
  forallb Layer_ok (elems ls) = true ->
  Manifest.Layers m = None ->
  option_map fst (store_Layers (json_of_Layers ls) (m, [])) = Some (set_Layers m ls).
Proof.
  intros H Hm. destruct ls as [[|l ls]|]; cbn [json_of_Layers store_Layers map].
  - reflexivity.
  - change (json_of_Layer l :: map json_of_Layer ls) with (map json_of_Layer (l :: ls)).
    rewrite store_elems_json by assumption. now rewrite length_map, firstn_all.
  - unfold set_Layers. destruct m; cbn in *. now subst.
Qed.

Lemma store_Layers_some (ls : slice Layer) (m : Manifest) :
  forallb Layer_ok (elems ls) = true ->
  Manifest.Layers m = None ->
  exists b, store_Layers (json_of_Layers ls) (m, []) = Some (set_Layers m ls, b).
Proof.
  intros H Hm. pose proof (store_Layers_json ls m H Hm) as SL.
  destruct (store_Layers (json_of_Layers ls) (m, [])) as [[m4 b4]|];
    cbn [option_map fst] in SL; [|discriminate].
  injection SL as ->. now exists b4.
Qed.

Lemma encode_Manifest_app (m : Manifest) (R : bytes) :
  encode_Manifest m ++ R
  = "{"%char :: appendString "schemaVersion" ++ ":"%char :: appendInt (Manifest.SchemaVersion m)
      ++ ","%char :: appendString "mediaType" ++ ":"%char :: appendString (Manifest.MediaType m)
      ++ ","%char :: appendString "config" ++ ":"%char :: encode_Layer (Manifest.Config m)
      ++ ","%char :: appendString "layers" ++ ":"%char :: encode_Layers (Manifest.Layers m)
      ++ ","%char :: appendString "IsAppleFoundationModel" ++ ":"%char
      :: appendBool (Manifest.IsAppleFoundationModel m) ++ "}"%char :: R.
Proof.
  unfold encode_Manifest. change (str "{") with ["{"%char]. change (str ":") with [":"%char].
  change (str ",") with [","%char]. change (str "}") with ["}"%char].
  repeat rewrite <- app_assoc. reflexivity.
Qed.

Lemma parse_value_Manifest {dp : Z} (f : nat) (m : Manifest) (R : bytes) :
  Manifest_ok m = true ->
  (length (elems (Manifest.Layers m)) + 10 <= f)%nat ->
  dp + 2 < maxNestingDepth ->
  parse_value (S f) dp (encode_Manifest m ++ R) = Some (json_of_Manifest m, R).
Proof.
  intros H Hf Hdp. unfold Manifest_ok in H.
  apply andb_true_iff in H as [H Hl]. apply andb_true_iff in H as [H Hc].
  apply andb_true_iff in H as [Hv Hm].
  do 6 (destruct f as [|f]; [lia|]).
  rewrite encode_Manifest_app, parse_value_object by lia.
  rewrite (parse_members_next _ "schemaVersion" _ _
             (JNumber (appendInt (Manifest.SchemaVersion m))));
    [|reflexivity|now apply parse_value_int|apply skip_ws_appendString].
  rewrite (parse_members_next _ "mediaType" _ _ (JString (str (Manifest.MediaType m))));
    [|reflexivity|now apply parse_value_string|apply skip_ws_appendString].
  rewrite (parse_members_next _ "config" _ _ (json_of_Layer (Manifest.Config m)));
    [|reflexivity|apply parse_value_more_fuel_Layer; [assumption|lia|lia]
     |apply skip_ws_appendString].
  rewrite (parse_members_next _ "layers" _ _ (json_of_Layers (Manifest.Layers m)));
    [|reflexivity|apply parse_value_Layers; [assumption|lia|lia]|apply skip_ws_appendString].
  rewrite (parse_members_last _ "IsAppleFoundationModel" _ _
             (JBool (Manifest.IsAppleFoundationModel m)));
    [reflexivity|reflexivity|apply parse_value_bool].
Qed.

Lemma unmarshal_json_of_Manifest (m : Manifest) :
  Manifest_ok m = true ->
  unmarshal_Manifest (json_of_Manifest m) = Some (exported m).
Proof.
  intros H. unfold Manifest_ok in H.
  apply andb_true_iff in H as [H Hl]. apply andb_true_iff in H as [H Hc].
  apply andb_true_iff in H as [Hv Hm].
  unfold unmarshal_Manifest, json_of_Manifest. cbn [fold_left].
  unfold store_Manifest_field at 5.
  change (key_is "schemaVersion" (str "schemaVersion")) with true. cbn iota.
  cbn [store_int]. rewrite parse_int_appendInt by assumption. cbn [option_map].
  unfold store_Manifest_field at 4.
  change (key_is "schemaVersion" (str "mediaType")) with false.
  change (key_is "mediaType" (str "mediaType")) with true. cbn iota.
  cbn [store_string option_map]. rewrite unstr_str.
  unfold store_Manifest_field at 3.
  change (key_is "schemaVersion" (str "config")) with false.
  change (key_is "mediaType" (str "config")) with false.
  change (key_is "config" (str "config")) with true. cbn iota.
  rewrite store_Layer_json by assumption. cbn [option_map].
  unfold store_Manifest_field at 2.
  change (key_is "schemaVersion" (str "layers")) with false.
  change (key_is "mediaType" (str "layers")) with false.
  change (key_is "config" (str "layers")) with false.
  change (key_is "layers" (str "layers")) with true. cbn iota.
  unfold Manifest.zero.
  cbn [Manifest.SchemaVersion Manifest.MediaType Manifest.Config Manifest.Layers
       Manifest.IsAppleFoundationModel Manifest.filepath Manifest.fi Manifest.digest].
  match goal with
  | |- context [store_Layers ?v (?m0, [])] =>
      destruct (store_Layers_some (Manifest.Layers m) m0 Hl eq_refl) as [b4 SL]
  end.
  rewrite SL.
  unfold store_Manifest_field.
  change (key_is "schemaVersion" (str "IsAppleFoundationModel")) with false.
  change (key_is "mediaType" (str "IsAppleFoundationModel")) with false.
  change (key_is "config" (str "IsAppleFoundationModel")) with false.
  change (key_is "layers" (str "IsAppleFoundationModel")) with false.
  change (key_is "IsAppleFoundationModel" (str "IsAppleFoundationModel")) with true.
  cbn iota. reflexivity.
Qed.

Lemma encode_elems_length (ls : list Layer) :
  (length ls <= length (encode_elems ls))%nat.
Proof.
  induction ls as [|l ls IH]; [cbn; lia|].
  destruct ls as [|l' ls].
  - destruct (encode_elems_head l []) as [X ->]. cbn. lia.
  - change (encode_elems (l :: l' :: ls))
      with (encode_Layer l ++ str "," ++ encode_elems (l' :: ls)).
    rewrite !length_app. change (length (str ",")) with 1%nat.
    cbn [length] in IH |- *. lia.
Qed.

Lemma encode_Manifest_length (m : Manifest) :
  (length (elems (Manifest.Layers m)) + 10 <= length (encode_Manifest m))%nat.
Proof.
  rewrite <- (app_nil_r (encode_Manifest m)), encode_Manifest_app.
  cbn [length]. repeat (rewrite length_app; cbn [length]).
  assert (length (elems (Manifest.Layers m)) <= length (encode_Layers (Manifest.Layers m)))%nat.
  { destruct (Manifest.Layers m) as [ls|]; cbn [encode_Layers]; [|cbn; lia].
    change (str "[") with ["["%char]. change (str "]") with ["]"%char].
    rewrite !length_app. pose proof (encode_elems_length ls). cbn [length]. change (elems (Some ls)) with ls. lia. }
  lia.
Qed.

(** Decoding what [Encode] has written gives the exported fields back, and
    the decoder has then read the buffer that holds the encoding up to its
    closing brace. *)
Lemma Decoder_Decode_Encoder_Encode (m : Manifest) :
  Manifest_ok m = true ->
  Decoder_Decode (Encoder_Encode m)
  = (inr (exported m),
     firstn (window (length (encode_Manifest m))) (Encoder_Encode m)).
Proof.
  intros H. unfold Decoder_Decode.
  assert (P : parse_value (S (length (Encoder_Encode m))) 0 (Encoder_Encode m)
              = Some (json_of_Manifest m, ["010"%char])).
  { unfold Encoder_Encode. apply parse_value_Manifest; [assumption| |reflexivity].
    rewrite length_app. pose proof (encode_Manifest_length m). lia. }
  rewrite P. rewrite unmarshal_json_of_Manifest by assumption.
  cbn [composite json_of_Manifest]. unfold Encoder_Encode at 1.
  rewrite length_app. cbn [length].
  replace (length (encode_Manifest m) + 1 - 1)%nat with (length (encode_Manifest m)) by lia.
  reflexivity.
Qed.

Section RoundTrip.
Context {C : Collaborators}.

(** When [WriteManifest] returns no error, the file at the path of the name
    holds the encoding of the manifest, and nothing else. *)
Lemma WriteManifest_Ok (n : Name) (c : Layer) (ls : slice Layer) (w w' : World) :
  WriteManifest n c ls w = (Ok tt, w') ->
  exists root w0 mode mtime,
    GetManifestPath w = (Ok root, w0)
    /\ root ++ Filepath n <> []
    /\ entry (fs w') (root ++ Filepath n)
       = inr (File (Encoder_Encode (written c ls)) mode mtime).
Proof.
  unfold WriteManifest, filepath_Join. unfold bind at 1.
  destruct (GetManifestPath w) as [[root|e] w0]; [|discriminate].
  unfold bind at 1, os_MkdirAll.
  destruct (mkdirs (fs w0) [] (filepath_Dir (root ++ Filepath n))) as [e|f]; [discriminate|].
  unfold bind at 1, os_Create.
  destruct (no_path (root ++ Filepath n)) eqn:Hn; [discriminate|].
  assert (Hne : root ++ Filepath n <> []) by (intros E; rewrite E in Hn; discriminate).
  cbn [fs set_fs touch].
  intros H. exists root, w0.
  assert (W : forall mode w2,
             above f [] (root ++ Filepath n) = None ->
             fs w2 = <[root ++ Filepath n := File [] mode (clock w2)]> f ->
             File_Write (root ++ Filepath n) (Encoder_Encode (written c ls)) w2 = (Ok tt, w') ->
             exists mode mtime,
               entry (fs w') (root ++ Filepath n)
               = inr (File (Encoder_Encode (written c ls)) mode mtime)).
  { intros mode w2 Ha Hl. unfold File_Write. rewrite Hl, lookup_insert_eq.
    cbn [app]. intros [= <-].
    exists mode, (clock w2). cbn [fs set_fs touch].
    apply entry_insert. now rewrite above_insert. }
  revert H.
  destruct (entry f (root ++ Filepath n)) as [e|[c0 mode0 mt0| |]] eqn:Hl; try discriminate.
  - pose proof (above_in_Dir f (root ++ Filepath n) Hne) as A.
    destruct (no_path (filepath_Dir (root ++ Filepath n))).
    + intros H. edestruct W as (mode & mtime & E); [apply A; exact I| |exact H|].
      * reflexivity.
      * now exists mode, mtime.
    + destruct (entry f (filepath_Dir (root ++ Filepath n))) as [e'|[| |]];
        try discriminate.
      intros H. edestruct W as (mode & mtime & E); [apply A; reflexivity| |exact H|].
      * reflexivity.
      * now exists mode, mtime.
  - intros H.
    edestruct W as (mode & mtime & E); [exact (entry_above _ _ _ Hl)| |exact H|].
    + reflexivity.
    + now exists mode, mtime.
Qed.

End RoundTrip.

Section RoundTripClaim.
Context {C : Collaborators}.


End RoundTripClaim.



(** ** The digest of a manifest that was read *)

Lemma unhex_hexdigit (c : ascii) :
  byte_of (16 * unhex_digit (hexdigit (byte_val c / 16))
           + unhex_digit (hexdigit (byte_val c mod 16))) = c.
Proof. destruct c as [[] [] [] [] [] [] [] []]; vm_compute; reflexivity. Qed.

Lemma unstr_inj (a b : bytes) : unstr a = unstr b -> a = b.
Proof. intros H. rewrite <- (str_unstr a), <- (str_unstr b). now rewrite H. Qed.

Lemma hex_EncodeToString_inj (a b : bytes) :
  hex_EncodeToString a = hex_EncodeToString b -> a = b.
Proof.
  unfold hex_EncodeToString. intros H. apply unstr_inj in H. revert b H.
  induction a as [|x a IH]; intros [|y b]; cbn [flat_map app]; try discriminate.
  - reflexivity.
  - intros [= H1 H2 H]. f_equal; [|now apply IH].
    rewrite <- (unhex_hexdigit x), <- (unhex_hexdigit y). now rewrite H1, H2.
Qed.

Lemma bytes_read_prefix (file : bytes) : exists k, bytes_read file = firstn k file.
Proof.
  unfold bytes_read, Decoder_Decode.
  destruct (parse_value (S (length file)) 0 file) as [[v rest]|]; cbn [snd].
  - eauto.
  - exists (length file). now rewrite firstn_all.
Qed.

Section Digest.
Context {C : Collaborators}.


End Digest.



(** ** Tokens *)

Lemma utf8_DecodeRune_cases (b0 : ascii) (t : bytes) (c : Z) (size : nat) :
  utf8_DecodeRune (b0 :: t) = Some (c, size) ->
  (byte_val b0 < 128 /\ c = byte_val b0 /\ size = 1%nat)
  \/ (128 <= byte_val b0 /\ 128 <= c < 2 ^ 21 /\ (2 <= size)%nat).
Proof.
  unfold utf8_DecodeRune. cbv beta iota zeta.
  pose proof (byte_val_range b0) as R0.
  destruct (byte_val b0 <? 128) eqn:E1.
  { intros [= <- <-]. bool_hyps. left. auto. }
  destruct ((194 <=? byte_val b0) && (byte_val b0 <=? 223)) eqn:E2.
  { destruct t as [|b1 t]; [discriminate|].
    destruct (in_range 128 191 b1) eqn:I1; [|discriminate].
    intros [= <- <-]. right. bool_hyps.
    rewrite cont_bits_mod. change 31 with (Z.ones 5). rewrite land_ones_mod by lia.
    rewrite lor_shiftl_add by (try lia; arith).
    change (2 ^ 21) with 2097152. repeat split; try lia; arith. }
  destruct ((224 <=? byte_val b0) && (byte_val b0 <=? 239)) eqn:E3.
  { destruct t as [|b1 [|b2 t]]; try discriminate.
    destruct (in_range _ _ b1 && in_range 128 191 b2) eqn:I1; [|discriminate].
    intros [= <- <-]. right. bool_hyps.
    pose proof (byte_val_range b1). pose proof (byte_val_range b2).
    rewrite !cont_bits_mod. change 15 with (Z.ones 4). rewrite land_ones_mod by lia.
    rewrite (lor_shiftl_add (byte_val b1 mod 64)) by (try lia; arith).
    rewrite lor_shiftl_add by (try lia; arith).
    change (2 ^ 21) with 2097152.
    destruct (byte_val b0 =? 224) eqn:Q; destruct (byte_val b0 =? 237) eqn:Q'; bool_hyps;
      (repeat split; try lia; arith). }
  destruct ((240 <=? byte_val b0) && (byte_val b0 <=? 244)) eqn:E4; [|discriminate].
  destruct t as [|b1 [|b2 [|b3 t]]]; try discriminate.
  destruct (in_range _ _ b1 && in_range 128 191 b2 && in_range 128 191 b3) eqn:I1;
    [|discriminate].
  intros [= <- <-]. right. bool_hyps.
  rewrite !cont_bits_mod. change 7 with (Z.ones 3). rewrite land_ones_mod by lia.
  rewrite (lor_shiftl_add (byte_val b2 mod 64)) by (try lia; arith).
  rewrite (lor_shiftl_add (byte_val b1 mod 64)) by (try lia; arith).
  rewrite lor_shiftl_add by (try lia; arith).
  pose proof (byte_val_range b1). pose proof (byte_val_range b2).
  pose proof (byte_val_range b3).
  change (2 ^ 21) with 2097152.
  destruct (byte_val b0 =? 240) eqn:Q; destruct (byte_val b0 =? 244) eqn:Q'; bool_hyps;
    (repeat split; try lia; arith).
Qed.

Lemma utf8_DecodeRune_width (b : bytes) (c : Z) (size : nat) :
  utf8_DecodeRune b = Some (c, size) -> (1 <= size <= length b)%nat.
Proof.
  intros H. destruct (utf8_DecodeRune_app b [] c size H) as (_ & L & _ & G).
  rewrite length_firstn in L. lia.
Qed.

Lemma fold_insert_length (l : list (nat * Z)) (acc : list Z) :
  length (fold_left (fun tokens ic => <[fst ic := snd ic]> tokens) l acc) = length acc.
Proof.
  revert acc. induction l as [|x l IH]; intros acc; [reflexivity|].
  cbn [fold_left]. now rewrite IH, length_insert.
Qed.

(** The stores of [Tokenize], one after the other, fill in the layout. *)
Lemma fold_insert_layout (f : nat) (b : bytes) (pre : list Z) :
  (length b <= f)%nat ->
  fold_left (fun tokens ic => <[fst ic := snd ic]> tokens)
            (Server.range_string f (length pre) b) (pre ++ replicate (length b) 0)
  = pre ++ layout f b.
Proof.
  revert b pre. induction f as [|f IH]; intros b pre Hf.
  - destruct b; [|cbn in Hf; lia]. reflexivity.
  - destruct b as [|b0 t]; [reflexivity|].
    cbn [Server.range_string layout].
    destruct (utf8_DecodeRune (b0 :: t)) as [[char n]|] eqn:D.
    + pose proof (utf8_DecodeRune_width _ _ _ D) as W. cbn [length] in W.
      cbn [fold_left fst snd length replicate].
      rewrite insert_app_r_alt by lia. rewrite Nat.sub_diag. cbn [insert list_insert].
      replace (length t) with ((n - 1) + length (skipn n (b0 :: t)))%nat
        by (rewrite length_skipn; cbn [length]; lia).
      rewrite replicate_add.
      replace (pre ++ char :: replicate (n - 1) 0
                 ++ replicate (length (skipn n (b0 :: t))) 0)
        with ((pre ++ char :: replicate (n - 1) 0)
                ++ replicate (length (skipn n (b0 :: t))) 0)
        by (now rewrite <- app_assoc).
      replace (length pre + n)%nat with (length (pre ++ char :: replicate (n - 1) 0))
        by (rewrite length_app; cbn [length]; rewrite length_replicate; lia).
      rewrite IH by (rewrite length_skipn; cbn [length] in *; lia).
      now rewrite <- app_assoc.
    + cbn [fold_left fst snd length replicate].
      rewrite insert_app_r_alt by lia. rewrite Nat.sub_diag. cbn [insert list_insert].
      replace (pre ++ 65533 :: replicate (length t) 0)
        with ((pre ++ [65533]) ++ replicate (length t) 0) by (now rewrite <- app_assoc).
      replace (length pre + 1)%nat with (length (pre ++ [65533]))
        by (rewrite length_app; reflexivity).
      rewrite IH by (cbn [length] in Hf; lia).
      now rewrite <- app_assoc.
Qed.

Lemma Tokenize_layout (content : string) :
  Server.Tokenize content = layout (String.length content) (str content).
Proof.
  unfold Server.Tokenize.
  pose proof (fold_insert_layout (String.length content) (str content) []) as H.
  rewrite length_str in H. cbn [length app] in H. apply H. lia.
Qed.

Lemma rune_of_int_small (r : Z) : - 2 ^ 31 <= r < 2 ^ 31 -> Server.rune_of_int r = r.
Proof.
  intros H. unfold Server.rune_of_int.
  change (2 ^ 31) with 2147483648 in *. change (2 ^ 32) with 4294967296.
  rewrite Z.mod_small by lia. lia.
Qed.

Lemma utf8_EncodeRune_length (r : Z) :
  (1 <= length (utf8_EncodeRune r))%nat
  /\ (length (utf8_EncodeRune r) = 1%nat -> 0 <= r < 128).
Proof.
  unfold utf8_EncodeRune.
  destruct ((r <? 0) || (1114111 <? r) || (55296 <=? r) && (r <=? 57343)) eqn:E.
  - cbn. split; [lia|discriminate].
  - apply orb_false_iff in E as [E _]. bool_hyps.
    destruct (r <? 128) eqn:E1; [cbn; bool_hyps; split; [lia|intros _; lia]|].
    destruct (r <? 2048); [cbn; split; [lia|discriminate]|].
    destruct (r <? 65536); cbn; (split; [lia|discriminate]).
Qed.

Lemma spell_length (tokens : list Z) : (length tokens <= length (spell tokens))%nat.
Proof.
  induction tokens as [|t ts IH]; [reflexivity|].
  unfold spell in *. cbn [flat_map length]. rewrite length_app.
  pose proof (proj1 (utf8_EncodeRune_length (Server.rune_of_int t))). lia.
Qed.

Lemma spell_app (a b : list Z) : spell (a ++ b) = spell a ++ spell b.
Proof. unfold spell. apply flat_map_app. Qed.

Lemma spell_one (t : Z) : spell [t] = utf8_EncodeRune (Server.rune_of_int t).
Proof. unfold spell. cbn [flat_map]. apply app_nil_r. Qed.

Lemma spell_zeros (k : nat) : length (spell (replicate k 0)) = k.
Proof.
  induction k as [|k IH]; [reflexivity|].
  change (spell (replicate (S k) 0))
    with (utf8_EncodeRune (Server.rune_of_int 0) ++ spell (replicate k 0)).
  rewrite length_app, IH. reflexivity.
Qed.

Lemma layout_ascii (f : nat) (b : bytes) :
  (length b <= f)%nat -> forallb is_ascii b = true -> layout f b = map byte_val b.
Proof.
  revert b. induction f as [|f IH]; intros b Hf Ha.
  - destruct b; [reflexivity|cbn in Hf; lia].
  - destruct b as [|b0 t]; [reflexivity|].
    cbn [forallb] in Ha. apply andb_true_iff in Ha as [A0 At].
    cbn [layout]. unfold utf8_DecodeRune. unfold is_ascii in A0. rewrite A0.
    cbn [Nat.sub replicate app skipn map]. f_equal. apply IH; [cbn in Hf; lia|assumption].
Qed.

Lemma spell_ascii (b : bytes) :
  forallb is_ascii b = true -> spell (map byte_val b) = b.
Proof.
  induction b as [|b0 t IH]; [reflexivity|].
  cbn [forallb]. intros Ha. apply andb_true_iff in Ha as [A0 At].
  unfold is_ascii in A0. bool_hyps. pose proof (byte_val_range b0).
  unfold spell in *. cbn [map flat_map].
  rewrite rune_of_int_small by (change (2 ^ 31) with 2147483648; lia).
  rewrite EncodeRune_1 by lia. rewrite byte_of_val. cbn [app]. now rewrite IH.
Qed.

(** What [Detokenize] spells from the tokens of a content is at least as
    long as the content, and of the same length only for ASCII. *)
Lemma spell_layout (f : nat) (b : bytes) :
  (length b <= f)%nat ->
  (length b <= length (spell (layout f b)))%nat
  /\ (length (spell (layout f b)) = length b -> forallb is_ascii b = true).
Proof.
  revert b. induction f as [|f IH]; intros b Hf.
  - destruct b; [|cbn in Hf; lia]. cbn. auto.
  - destruct b as [|b0 t]; [cbn; auto|].
    cbn [layout].
    destruct (utf8_DecodeRune (b0 :: t)) as [[char n]|] eqn:D.
    + pose proof (utf8_DecodeRune_width _ _ _ D) as W.
      destruct (IH (skipn n (b0 :: t))) as [L1 L2];
        [rewrite length_skipn; cbn [length] in *; lia|].
      rewrite length_skipn in L1, L2.
      change (char :: replicate (n - 1) 0 ++ layout f (skipn n (b0 :: t)))
        with ([char] ++ replicate (n - 1) 0 ++ layout f (skipn n (b0 :: t))).
      rewrite !spell_app, !length_app, spell_zeros.
      rewrite spell_one.
      destruct (utf8_DecodeRune_cases _ _ _ _ D) as [(A & -> & ->)|(A & R & S2)].
      * pose proof (byte_val_range b0).
        rewrite rune_of_int_small by (change (2 ^ 31) with 2147483648; lia).
        rewrite EncodeRune_1 by lia.
        change (skipn 1 (b0 :: t)) with t in *. cbn [length] in *.
        split; [lia|]. intros E. cbn [forallb]. unfold is_ascii at 1.
        replace (byte_val b0 <? 128) with true by (symmetry; apply Z.ltb_lt; lia).
        apply L2. lia.
      * rewrite rune_of_int_small
          by (change (2 ^ 31) with 2147483648; change (2 ^ 21) with 2097152 in R; lia).
        rewrite (utf8_Encode_Decode _ _ _ D), length_firstn.
        cbn [length] in *. split; [lia|]. intros E. exfalso. lia.
    + destruct (IH t) as [L1 L2]; [cbn [length] in Hf; lia|].
      change (65533 :: layout f t) with ([65533] ++ layout f t).
      rewrite spell_app, length_app. change (length (spell [65533])) with 3%nat.
      cbn [length]. split; [lia|]. intros E. exfalso. lia.
Qed.

Lemma Tokenize_bytes (content : string) :
  length (Server.Tokenize content) = String.length content.
Proof.
  unfold Server.Tokenize. now rewrite fold_insert_length, length_replicate.
Qed.

(** X1.  [Tokenize] returns one token for each byte of the content, not
    one for each character; the tokens of an ASCII content are the codes
    of its characters. *)
Theorem Tokenize_length (content : string) :
  length (Server.Tokenize content) = String.length content
  /\ (forallb is_ascii (str content) = true ->
      Server.Tokenize content = map byte_val (str content)).
Proof.
  split; [apply Tokenize_bytes|].
  intros Ha. rewrite Tokenize_layout. apply layout_ascii; [|assumption].
  rewrite length_str. lia.
Qed.

(** X2.  [Detokenize] gives back the content that [Tokenize] was given
    exactly when the content is ASCII: a rune of several bytes leaves
    zero tokens behind it, which come back as NUL bytes, and a byte that is
    no UTF-8 comes back as U+FFFD. *)
Theorem Detokenize_Tokenize (content : string) :
  Server.Detokenize (Server.Tokenize content) = content
  <-> forallb is_ascii (str content) = true.
Proof.
  rewrite Tokenize_layout. unfold Server.Detokenize.
  fold (spell (layout (String.length content) (str content))).
  pose proof (spell_layout (String.length content) (str content)) as [L1 L2];
    [rewrite length_str; lia|].
  split.
  - intros E. apply L2. apply (f_equal str) in E. rewrite str_unstr in E. now rewrite E.
  - intros Ha. rewrite layout_ascii by (rewrite ?length_str; auto).
    rewrite spell_ascii by assumption. apply unstr_str.
Qed.

Lemma byte_val_of (z : Z) : 0 <= z < 256 -> byte_val (byte_of z) = z.
Proof.
  intros H. unfold byte_val, byte_of. rewrite Z.mod_small by lia.
  rewrite N_ascii_embedding; [lia|]. change 256%N with (Z.to_N 256). lia.
Qed.

Lemma spell_runes (ts : list Z) :
  forallb (fun t => is_ascii_token (Server.rune_of_int t)) ts = true ->
  spell ts = map (fun t => byte_of (Server.rune_of_int t)) ts
  /\ forallb is_ascii (spell ts) = true
  /\ map byte_val (spell ts) = map Server.rune_of_int ts.
Proof.
  induction ts as [|t ts IH]; [cbn; auto|].
  cbn [forallb]. intros H. apply andb_true_iff in H as [H0 H].
  destruct (IH H) as (I1 & I2 & I3).
  unfold is_ascii_token in H0. bool_hyps.
  change (spell (t :: ts)) with (utf8_EncodeRune (Server.rune_of_int t) ++ spell ts).
  rewrite EncodeRune_1 by lia. cbn [app map forallb].
  rewrite I1 at 1. rewrite I2, I3.
  unfold is_ascii. rewrite byte_val_of by lia.
  replace (Server.rune_of_int t <? 128) with true by (symmetry; apply Z.ltb_lt; lia).
  auto.
Qed.

Lemma spell_same_length (ts : list Z) :
  length (spell ts) = length ts ->
  forallb (fun t => is_ascii_token (Server.rune_of_int t)) ts = true.
Proof.
  induction ts as [|t ts IH]; [reflexivity|].
  change (spell (t :: ts)) with (utf8_EncodeRune (Server.rune_of_int t) ++ spell ts).
  rewrite length_app. cbn [length forallb]. intros E.
  pose proof (spell_length ts).
  destruct (utf8_EncodeRune_length (Server.rune_of_int t)) as [L1 L2].
  rewrite IH by lia. rewrite andb_true_r.
  unfold is_ascii_token. assert (0 <= Server.rune_of_int t < 128) by (apply L2; lia).
  apply andb_true_iff. split; [apply Z.leb_le|apply Z.ltb_lt]; lia.
Qed.

Lemma Tokenize_spell (ts : list Z) :
  Server.Tokenize (Server.Detokenize ts) = layout (length (spell ts)) (spell ts).
Proof.
  rewrite Tokenize_layout. unfold Server.Detokenize. fold (spell ts).
  now rewrite <- length_str, str_unstr.
Qed.

(** X3.  [Tokenize] gives back the tokens that [Detokenize] was given
    exactly when every token is an ASCII code: any other token is spelled
    in several bytes, and each of them gets a token. *)
Theorem Tokenize_Detokenize (tokens : list Z) :
  Server.Tokenize (Server.Detokenize tokens) = tokens
  <-> forallb is_ascii_token tokens = true.
Proof.
  rewrite Tokenize_spell. split.
  - intros E.
    assert (L : length (spell tokens) = length tokens).
    { rewrite <- E at 2. rewrite <- Tokenize_spell, Tokenize_bytes.
      unfold Server.Detokenize. fold (spell tokens).
      now rewrite <- length_str, str_unstr. }
    pose proof (spell_same_length tokens L) as R.
    destruct (spell_runes tokens R) as (_ & A & V).
    rewrite layout_ascii in E by (auto; lia). rewrite V in E.
    clear L A V. induction tokens as [|t ts IH]; [reflexivity|].
    cbn [map forallb] in *. injection E as E0 E.
    apply andb_true_iff in R as [R0 R]. rewrite E0 in R0. rewrite R0.
    now apply IH.
  - intros H.
    assert (R : forallb (fun t => is_ascii_token (Server.rune_of_int t)) tokens = true
                /\ map Server.rune_of_int tokens = tokens).
    { induction tokens as [|t ts IH]; [auto|].
      cbn [forallb map] in *. apply andb_true_iff in H as [H0 H].
      destruct (IH H) as [I1 I2]. rewrite I1, I2.
      unfold is_ascii_token in H0. bool_hyps.
      rewrite rune_of_int_small by (change (2 ^ 31) with 2147483648; lia).
      unfold is_ascii_token.
      replace (0 <=? t) with true by (symmetry; apply Z.leb_le; lia).
      replace (t <? 128) with true by (symmetry; apply Z.ltb_lt; lia). auto. }
    destruct R as [R1 R2]. destruct (spell_runes tokens R1) as (_ & A & V).
    rewrite layout_ascii by (auto; lia). now rewrite V.
Qed.

(** ** The life of a server *)

Lemma after_calls_status (s : Server.t) (cs : list Server.call) :
  Server.status (Server.after_calls s cs)
  = if existsb Server.is_Close cs then Server.ServerStatusError else Server.status s.
Proof.
  unfold Server.after_calls. revert s.
  induction cs as [|c cs IH]; intros s; [reflexivity|].
  cbn [fold_left existsb]. rewrite IH. destruct c; cbn; [reflexivity|].
  now destruct (existsb Server.is_Close cs).
Qed.

(** X4.  [Close] does not stop the loading that [NewServer] started: once
    the loading is done, [Ping] returns nil exactly when no [Close] came
    after it, whatever was called before, a [Close] included; before the
    loading is done, [Ping] fails, with the loading status or, after a
    [Close], with the error status. *)
Theorem Ping_after_loading (modelName : string) (before since : list Server.call) :
  (Server.Ping (Server.after_calls
                  (Server.loaded (Server.after_calls (Server.NewServer modelName) before))
                  since) = None
   <-> existsb Server.is_Close since = false)
  /\ Server.Ping (Server.after_calls (Server.NewServer modelName) before)
     = Some (if existsb Server.is_Close before
             then Server.ServerStatusError else Server.ServerStatusLoadingModel).
Proof.
  unfold Server.Ping. rewrite !after_calls_status. cbn [Server.status Server.loaded Server.NewServer].
  split.
  - destruct (existsb Server.is_Close since); cbn; split; (discriminate || reflexivity).
  - destruct (existsb Server.is_Close before); reflexivity.
Qed.

(** ** Removing layers *)

Section LayersProperties.
Variable Layer_Remove : Layer -> M unit.

Lemma RemoveLayers_loop_error (ls : list Layer) (w w' : World) (e : error) :
  RemoveLayers_loop Layer_Remove ls w = (Err e, w') ->
  exists l w1,
    In l ls /\ Layer.Digest l <> ""%string
    /\ Layer_Remove l w1 = (Err e, w') /\ is_ErrNotExist e = false.
Proof.
  revert w. induction ls as [|l ls IH]; intros w; [discriminate|].
  cbn [RemoveLayers_loop].
  assert (K : forall w0, RemoveLayers_loop Layer_Remove ls w0 = (Err e, w') ->
                exists l0 w1, In l0 (l :: ls) /\ Layer.Digest l0 <> ""%string
                  /\ Layer_Remove l0 w1 = (Err e, w') /\ is_ErrNotExist e = false).
  { intros w0 H. destruct (IH _ H) as (l0 & w1 & Hin & R). exists l0, w1.
    split; [now right|exact R]. }
  destruct (String.eqb (Layer.Digest l) "") eqn:Ed; cbn [negb]; [apply K|].
  destruct (Layer_Remove l w) as [[[]|err] w1] eqn:Hr; [apply K|].
  destruct (is_ErrNotExist err) eqn:Hn.
  - unfold bind, slog. apply K.
  - intros [= <- <-]. exists l, w. split; [now left|]. split; [|auto].
    intros E. rewrite E in Ed. discriminate.
Qed.

(** X5.  [RemoveLayers] fails only where the removal of a layer with a
    digest, the config last, fails with an error that is not a not-exist
    error: it returns that error as it is and stops there. *)
Theorem RemoveLayers_error (m : Manifest) (w w' : World) (e : error) :
  RemoveLayers Layer_Remove m w = (Err e, w') ->
  exists l w1,
    In l (elems (Manifest.Layers m) ++ [Manifest.Config m])
    /\ Layer.Digest l <> ""%string
    /\ Layer_Remove l w1 = (Err e, w')
    /\ is_ErrNotExist e = false.
Proof. unfold RemoveLayers, append, elems. apply RemoveLayers_loop_error. Qed.

End LayersProperties.

(** X6.  [RemoveLayers] never calls [Remove] on a layer with an empty
    digest: two implementations of [Layer.Remove] that agree on the layers
    with a digest give the same outcome. *)
Theorem RemoveLayers_skips_empty_digests (remove remove' : Layer -> M unit) (m : Manifest)
    (w : World) :
  (forall l w0, Layer.Digest l <> ""%string -> remove l w0 = remove' l w0) ->
  RemoveLayers remove m w = RemoveLayers remove' m w.
Proof.
  intros Hagree. unfold RemoveLayers.
  generalize (elems (append (Manifest.Layers m) (Manifest.Config m))). intros ls.
  revert w. induction ls as [|l ls IH]; intros w; [reflexivity|].
  cbn [RemoveLayers_loop].
  destruct (String.eqb (Layer.Digest l) "") eqn:Ed; cbn [negb]; [apply IH|].
  rewrite <- (Hagree l w) by (intros E; rewrite E in Ed; discriminate).
  destruct (remove l w) as [[[]|err] w1]; [apply IH|].
  destruct (is_ErrNotExist err); [|reflexivity].
  unfold bind, slog. apply IH.
Qed.

(** ** More on reading and writing one manifest *)

Section ReadingMore.
Context {C : Collaborators}.

(** X7.  [ParseNamedManifest] changes no file, whatever it returns: the
    files after it are those [GetManifestPath] left, and for a name that
    is not fully qualified the world is as it was. *)
Theorem ParseNamedManifest_changes_no_file (n : Name) (w : World) :
  if IsFullyQualified n
  then fs (snd (ParseNamedManifest n w)) = fs (snd (GetManifestPath w))
  else snd (ParseNamedManifest n w) = w.
Proof.
  unfold ParseNamedManifest.
  destruct (IsFullyQualified n); cbn [negb]; [|reflexivity].
  unfold bind at 1. destruct (GetManifestPath w) as [[root|e] w1]; [|reflexivity].
  unfold filepath_Join, bind at 1, os_Open. cbn [snd].
  destruct (no_path (root ++ Filepath n)); [reflexivity|].
  destruct (entry (fs w1) (root ++ Filepath n)) as [e|[c mode mtime| |]]; try reflexivity.
  unfold bind at 1, File_Stat. cbn [info_of]. unfold bind, Decode_tee, ret.
  destruct (Decoder_Decode c) as [[e|d] read]; reflexivity.
Qed.

(** X8.  A manifest that [ParseNamedManifest] returns is backed by a
    file: its [filepath] is the path of the name below the root, where a
    regular file is, and its file info has the last element of the path as
    name, the length of the file as size, and its mode and time; it is not
    a directory. *)
Theorem ParseNamedManifest_file_backed (n : Name) (w w' : World) (m : Manifest) :
  ParseNamedManifest n w = (Ok m, w') ->
  exists root content mode mtime,
    fst (GetManifestPath w) = Ok root
    /\ Manifest.filepath m = root ++ Filepath n
    /\ fs w' !! Manifest.filepath m = Some (File content mode mtime)
    /\ entry (fs w') (Manifest.filepath m) = inr (File content mode mtime)
    /\ Manifest.fi m
       = Some (mkFileInfo (base_name (Manifest.filepath m)) (Z.of_nat (length content))
                          mode mtime false).
Proof.
  unfold ParseNamedManifest.
  destruct (IsFullyQualified n); cbn [negb]; [|discriminate].
  unfold bind at 1. destruct (GetManifestPath w) as [[root|e] w1]; [|discriminate].
  unfold filepath_Join, bind at 1, os_Open.
  destruct (no_path (root ++ Filepath n)); [discriminate|].
  destruct (entry (fs w1) (root ++ Filepath n)) as [e|[c mode mtime| |]] eqn:Hf;
    try discriminate.
  unfold bind at 1, File_Stat. cbn [info_of]. unfold bind, Decode_tee, ret.
  destruct (Decoder_Decode c) as [[e|d] read] eqn:Hd; [discriminate|].
  intros [= <- <-]. exists root, c, mode, mtime. cbn.
  pose proof (entry_lookup _ _ _ Hf). auto.
Qed.

End ReadingMore.

Lemma mkdirs_lookup (todo done : path) (f f' : gmap path node) :
  mkdirs f done todo = inr f' ->
  forall q, f' !! q = f !! q \/ (f !! q = None /\ f' !! q = Some Dir).
Proof.
  revert done f. induction todo as [|d todo IH]; intros done f.
  - cbn. intros [= <-]. auto.
  - cbn [mkdirs]. destruct (f !! (done ++ [d])) as [[| |]|] eqn:Hq; try discriminate.
    + apply IH.
    + intros H q. destruct (IH _ _ H q) as [E|[E1 E2]].
      * destruct (decide (q = done ++ [d])) as [->|Hne].
        -- rewrite lookup_insert_eq in E. right. auto.
        -- rewrite lookup_insert_ne in E by done. now left.
      * destruct (decide (q = done ++ [d])) as [->|Hne].
        -- rewrite lookup_insert_eq in E1. discriminate.
        -- rewrite lookup_insert_ne in E1 by done. right. auto.
Qed.

Section WritingMore.
Context {C : Collaborators}.

(** X9.  When [WriteManifest] returns no error, the file of the name
    holds the encoding of the manifest and nothing of what it held
    before; it keeps its mode if it was there, and is made with mode 0666
    less the umask if not.  Every other path is as [GetManifestPath] left
    it, or is a directory that was made. *)
Theorem WriteManifest_writes_one_file (n : Name) (c : Layer) (ls : slice Layer)
    (w w' : World) :
  WriteManifest n c ls w = (Ok tt, w') ->
  exists root w0 mode mtime,
    GetManifestPath w = (Ok root, w0)
    /\ fs w' !! (root ++ Filepath n)
       = Some (File (Encoder_Encode (written c ls)) mode mtime)
    /\ mode = match fs w0 !! (root ++ Filepath n) with
              | Some (File _ old _) => old
              | _ => Z.land 438 (Z.lnot (umask w0))
              end
    /\ forall q, q <> root ++ Filepath n ->
         fs w' !! q = fs w0 !! q \/ (fs w0 !! q = None /\ fs w' !! q = Some Dir).
Proof.
  unfold WriteManifest, filepath_Join. unfold bind at 1.
  destruct (GetManifestPath w) as [[root|e] w0]; [|discriminate].
  unfold bind at 1, os_MkdirAll.
  destruct (mkdirs (fs w0) [] (filepath_Dir (root ++ Filepath n))) as [e|f] eqn:Hm;
    [discriminate|].
  pose proof (mkdirs_lookup _ _ _ _ Hm) as Hdirs.
  unfold bind at 1, os_Create.
  destruct (no_path (root ++ Filepath n)) eqn:Hn; [discriminate|].
  cbn [fs set_fs touch umask clock].
  set (p := root ++ Filepath n) in *.
  assert (W : forall mode wc,
             File_Write p (Encoder_Encode (written c ls))
               (set_fs (<[p := File [] mode (clock wc)]> f) wc) = (Ok tt, w') ->
             fs w' !! p = Some (File (Encoder_Encode (written c ls)) mode (clock wc))
             /\ forall q, q <> p ->
                  fs w' !! q = fs w0 !! q \/ (fs w0 !! q = None /\ fs w' !! q = Some Dir)).
  { intros mode wc. unfold File_Write. cbn [fs set_fs clock]. rewrite lookup_insert_eq.
    cbn [app]. intros [= <-]. cbn [fs set_fs touch]. split; [apply lookup_insert_eq|].
    intros q Hq. rewrite !lookup_insert_ne by done. apply Hdirs. }
  intros H. exists root, w0. fold p.
  assert (Hne : p <> []) by (intros E; rewrite E in Hn; discriminate).
  pose proof (above_in_Dir f p Hne) as A.
  destruct (entry f p) as [e0|[c0 mode0 mt0| |]] eqn:Hl'; try discriminate.
  2: { pose proof (entry_lookup _ _ _ Hl') as Hl.
    match type of H with File_Write _ _ (set_fs _ ?wc) = _ =>
      destruct (W mode0 wc H) as [E1 E2] end.
    exists mode0, (clock w0). split; [reflexivity|]. split; [exact E1|].
    split; [|exact E2].
    destruct (Hdirs p) as [E|[_ E]]; rewrite Hl in E; [|discriminate].
    now rewrite <- E. }
  assert (Hmode : f !! p = None ->
                  Z.land 438 (Z.lnot (umask w0))
                  = match fs w0 !! p with
                    | Some (File _ old _) => old
                    | _ => Z.land 438 (Z.lnot (umask w0))
                    end).
  { intros Hl.
    destruct (Hdirs p) as [E|[E _]]; [rewrite Hl in E; now rewrite <- E|now rewrite E]. }
  destruct (no_path (filepath_Dir p)).
  - pose proof (Hmode (entry_missing _ _ _ Hl' (A I))) as Hm'.
    match type of H with File_Write _ _ (set_fs _ ?wc) = _ =>
      destruct (W (Z.land 438 (Z.lnot (umask w0))) wc H) as [E1 E2] end.
    exists (Z.land 438 (Z.lnot (umask w0))), (clock w0).
    split; [reflexivity|]. split; [exact E1|]. split; [exact Hm'|exact E2].
  - destruct (entry f (filepath_Dir p)) as [e1|[| |]]; try discriminate.
    pose proof (Hmode (entry_missing _ _ _ Hl' (A eq_refl))) as Hm'.
    match type of H with File_Write _ _ (set_fs _ ?wc) = _ =>
      destruct (W (Z.land 438 (Z.lnot (umask w0))) wc H) as [E1 E2] end.
    exists (Z.land 438 (Z.lnot (umask w0))), (clock w0).
    split; [reflexivity|]. split; [exact E1|]. split; [exact Hm'|exact E2].
Qed.

End WritingMore.

(** ** The digest of a manifest that was written *)

Lemma window_from_ge (fuel cap need : nat) :
  (need <= fuel + cap)%nat -> (need <= window_from fuel cap need)%nat.
Proof.
  revert cap. induction fuel as [|fuel IH]; intros cap H; cbn [window_from]; [lia|].
  destruct (need <=? cap)%nat eqn:E; [now apply Nat.leb_le|].
  apply IH. lia.
Qed.

Lemma window_ge (need : nat) : (need <= window need)%nat.
Proof. apply window_from_ge. lia. Qed.

Section DigestOfWritten.
Context {C : Collaborators}.


End DigestOfWritten.

(** ** The shape of a digest *)

Lemma round_length (st : list Z) (kw : Z * Z) :
  length st = 8%nat -> length (SHA256.round st kw) = 8%nat.
Proof.
  intros H. do 9 (destruct st as [|? st]; try discriminate). reflexivity.
Qed.

Lemma fold_round_length (kws : list (Z * Z)) (st : list Z) :
  length st = 8%nat -> length (fold_left SHA256.round kws st) = 8%nat.
Proof.
  revert st. induction kws as [|kw kws IH]; intros st H; [exact H|].
  cbn [fold_left]. apply IH. now apply round_length.
Qed.

Lemma zip_add_length (xs ys : list Z) :
  length (SHA256.zip_add xs ys) = Nat.min (length xs) (length ys).
Proof.
  revert ys. induction xs as [|x xs IH]; intros [|y ys]; cbn; try reflexivity.
  now rewrite IH.
Qed.

Lemma block_length (h blk : list Z) :
  length h = 8%nat -> length (SHA256.block h blk) = 8%nat.
Proof.
  intros H. unfold SHA256.block. rewrite zip_add_length, fold_round_length by exact H.
  rewrite H. reflexivity.
Qed.

Lemma blocks_length (fuel : nat) (h bs : list Z) :
  length h = 8%nat -> length (SHA256.blocks fuel h bs) = 8%nat.
Proof.
  revert h bs. induction fuel as [|fuel IH]; intros h bs H; [exact H|].
  cbn [SHA256.blocks]. destruct bs; [exact H|]. apply IH. now apply block_length.
Qed.

Lemma sha256_Sum256_length (b : bytes) : length (sha256_Sum256 b) = 32%nat.
Proof.
  unfold sha256_Sum256, SHA256.digest. rewrite length_map.
  pose proof (blocks_length (length (SHA256.pad (map byte_val b))) SHA256.H0
                (SHA256.pad (map byte_val b)) eq_refl) as H.
  destruct (SHA256.blocks _ _ _) as [|a0 [|a1 [|a2 [|a3 [|a4 [|a5 [|a6 [|a7 [|a8 l]]]]]]]]];
    try discriminate.
  reflexivity.
Qed.

Lemma hexdigit_lower (c : ascii) :
  is_lower_hex (hexdigit (byte_val c / 16)) = true
  /\ is_lower_hex (hexdigit (byte_val c mod 16)) = true.
Proof. destruct c as [[] [] [] [] [] [] [] []]; vm_compute; split; reflexivity. Qed.

Lemma hex_EncodeToString_shape (b : bytes) :
  String.length (hex_EncodeToString b) = (2 * length b)%nat
  /\ forallb is_lower_hex (str (hex_EncodeToString b)) = true.
Proof.
  unfold hex_EncodeToString. rewrite <- length_str, str_unstr.
  induction b as [|c b [IH1 IH2]]; [split; reflexivity|].
  cbn [flat_map app length forallb]. rewrite IH1, IH2.
  destruct (hexdigit_lower c) as [-> ->]. split; [lia|reflexivity].
Qed.

(** X11.  Whatever the name, [GenerateFakeDigest] returns 64 hexadecimal
    digits in lower case: it is never empty and has no algorithm prefix,
    the colon not being a digit. *)
Theorem GenerateFakeDigest_shape (name : string) :
  String.length (GenerateFakeDigest name) = 64%nat
  /\ forallb is_lower_hex (str (GenerateFakeDigest name)) = true
  /\ GenerateFakeDigest name <> ""%string
  /\ String.index 0 ":" (GenerateFakeDigest name) = None.
Proof.
  unfold GenerateFakeDigest.
  set (h := sha256_Sum256 (str (String.append "apple:" name))).
  destruct (hex_EncodeToString_shape h) as [L D].
  unfold h in L at 2. rewrite sha256_Sum256_length in L. change (2 * 32)%nat with 64%nat in L.
  split; [exact L|]. split; [exact D|]. split.
  - intros E. rewrite E in L. discriminate.
  - clear L. generalize dependent (hex_EncodeToString h). intros s.
    generalize 0%nat.
    induction s as [|c s IH]; intros k D; [now destruct k|].
    cbn [str list_ascii_of_string forallb] in D. apply andb_true_iff in D as [Dc Ds].
    fold (str s) in Ds.
    destruct k as [|k]; cbn [String.index]; [|now rewrite (IH _ Ds)].
    cbn [String.prefix]. destruct (ascii_dec ":" c) as [<-|Hc]; [discriminate|].
    now rewrite (IH _ Ds).
Qed.

(** ** More on the synthetic manifests *)

(** X12.  When [createAppleManifests] returns a map, the map has one
    manifest, under the name of ["apple"]; the manifest has no file info
    (the reflective store into the unexported field [fi] is never made),
    its marker is set, and its size is 1 MiB for the model, 181 bytes for
    the template and the length of the marshalled config.  The call made
    no file-system call and changed no file; it logged one record. *)
Theorem createAppleManifests_registers_one `{C : Collaborators}
    (w w' : World) (ms : gmap Name Manifest) :
  createAppleManifests w = (Ok ms, w') ->
  exists configData m,
    Marshal_ConfigV2 = Ok configData
    /\ ms = {[ ParseName "apple" := m ]}
    /\ IsValid (ParseName "apple") = true
    /\ Manifest.fi m = None
    /\ Manifest.IsAppleFoundationModel m = true
    /\ Size m = wrap64 (1048576 + 181 + Z.of_nat (length configData))
    /\ fs w' = fs w
    /\ accesses w' = accesses w
    /\ logged w' = (Info, "registered Apple Foundation Model"%string) :: logged w.
Proof.
  unfold createAppleManifests.
  destruct (IsValid (ParseName "apple")); cbn [negb]; [|discriminate].
  destruct Marshal_ConfigV2 as [configData|e]; [|discriminate].
  replace (FieldByName_IsValid "filepath" && CanSet "filepath") with false by reflexivity.
  replace (FieldByName_IsValid "fi" && CanSet "fi") with false by reflexivity.
  unfold bind, ret, slog. cbn. intros [= <- <-].
  eexists configData, _. split; [reflexivity|]. split; [reflexivity|].
  split; [reflexivity|]. split; [reflexivity|]. split; [reflexivity|].
  split; [|cbn; auto].
  unfold Size, append, elems.
  cbn [Manifest.Layers Manifest.Config default id app fold_left Layer.Size].
  unfold add64. rewrite !wrap64_add_l. reflexivity.
Qed.

(** ** The names of a listing *)

Section Names.
Context {C : Collaborators}.

Lemma Manifests_loop_valid (root : path) (c : bool) (l : list path)
    (ms ms' : gmap Name Manifest) (w w' : World) :
  (forall n, is_Some (ms !! n) -> IsValid n = true /\ IsFullyQualified n = true) ->
  Manifests_loop root c l ms w = (Ok ms', w') ->
  forall n, is_Some (ms' !! n) -> IsValid n = true /\ IsFullyQualified n = true.
Proof.
  revert ms w. induction l as [|p l IH]; intros ms w Hms.
  - cbn. unfold ret. intros [= <- <-]. exact Hms.
  - rewrite Manifests_loop_cons.
    destruct (os_Stat p w) as [[fi|e] w1]; [|discriminate].
    destruct (fi_IsDir fi); [now apply IH|].
    destruct (filepath_Rel root p) as [rel|e]; [|destruct c; [now apply IH|discriminate]].
    destruct (IsValid (ParseNameFromFilepath rel)) eqn:Hv;
      [|destruct c; [now apply IH|discriminate]].
    destruct (ParseNamedManifest (ParseNameFromFilepath rel) w1) as [[m|e] w2] eqn:Hp;
      [|destruct c; [now apply IH|discriminate]].
    apply IH. intros n Hn.
    destruct (decide (ParseNameFromFilepath rel = n)) as [<-|Hne].
    + split; [exact Hv|].
      apply ParseNamedManifest_Ok in Hp as (_ & _ & _ & _ & _ & Hq & _). exact Hq.
    + rewrite lookup_insert_ne in Hn by done. now apply Hms.
Qed.

(** X13.  Every name in the map [Manifests] returns is valid, and is
    fully qualified unless it is the name of the synthetic model. *)
Theorem Manifests_names_valid (continueOnError : bool) (w wf : World)
    (final : gmap Name Manifest) :
  Manifests continueOnError w = (Ok final, wf) ->
  forall n, is_Some (final !! n) ->
    IsValid n = true /\ (IsFullyQualified n = true \/ n = ParseName "apple").
Proof.
  intros H. apply Manifests_Ok in H as (root & w0 & matches & ms & w1 & Hr & Hg & Hl & Hm).
  assert (Hms : forall n, is_Some (ms !! n) -> IsValid n = true /\ IsFullyQualified n = true).
  { refine (Manifests_loop_valid _ _ _ ∅ _ _ _ _ Hl).
    intros n Hn. now apply lookup_empty_is_Some in Hn. }
  assert (Hfile : forall n, is_Some (ms !! n) ->
            IsValid n = true /\ (IsFullyQualified n = true \/ n = ParseName "apple")).
  { intros n Hn. destruct (Hms n Hn). auto. }
  rewrite Manifests_models_eq in Hm.
  destruct (enabled w1); [|injection Hm as <- <-; exact Hfile].
  destruct (createAppleManifests (announced w1)) as [[syn|e] w2] eqn:Hc.
  - injection Hm as <- <-.
    apply createAppleManifests_Ok in Hc as (configData & _ & Hv & -> & _).
    intros n Hn. apply lookup_union_is_Some in Hn as [Hn|Hn]; [|now apply Hfile].
    destruct Hn as [m Hn]. apply lookup_singleton_Some in Hn as [<- _]. auto.
  - destruct continueOnError; [|discriminate]. injection Hm as <- <-. exact Hfile.
Qed.

End Names.

(** ** More on listing and removing *)

Section ListingMore.
Context {C : Collaborators}.

(** X14.  With [continueOnError] set, [Manifests] returns an error only
    where [GetManifestPath] fails, where [filepath.Glob] fails (on a
    malformed pattern, before the flag is looked at), or where [os.Stat]
    fails on a match of the glob: a name that is invalid, a manifest that
    cannot be read and a failure to make the synthetic manifests are logged,
    never returned. *)
Theorem Manifests_tolerant_errors (w w' : World) (e : error) :
  Manifests true w = (Err e, w') ->
  GetManifestPath w = (Err e, w')
  \/ exists root w0,
       GetManifestPath w = (Ok root, w0)
       /\ (filepath_Glob4 root w0 = (Err e, w')
           \/ exists matches p w1,
                fst (filepath_Glob4 root w0) = Ok matches
                /\ In p matches
                /\ os_Stat p w1 = (Err e, w')).
Proof.
  unfold Manifests. unfold bind at 1.
  destruct (GetManifestPath w) as [[root|e0] w0]; [|intros [= <- <-]; now left].
  intros H. right. exists root, w0. split; [reflexivity|]. revert H.
  unfold bind at 1.
  destruct (filepath_Glob4 root w0) as [[matches|e0] wg]; [|intros [= <- <-]; now left].
  unfold bind.
  destruct (Manifests_loop _ _ _ _ _) as [[ms|e1] w1] eqn:Hl.
  - rewrite Manifests_models_eq. destruct (enabled w1); [|discriminate].
    destruct (createAppleManifests (announced w1)) as [[syn|e2] w2]; discriminate.
  - intros [= <- <-]. right.
    apply Manifests_loop_tolerant in Hl as (p & w2 & Hin & Hs).
    exists matches, p, w2. cbn [fst]. auto.
Qed.

(** X15.  When [Remove] returns no error, there was a file, or an empty
    directory, at the [filepath] of the manifest; [os.Remove] has deleted
    that entry and no other, and [GetManifestPath] and [PruneDirectory]
    were then called, in this order, and returned no error. *)
Theorem Remove_deletes_the_file (m : Manifest) (w w' : World) :
  Remove m w = (Ok tt, w') ->
  exists w1 root w2,
    is_Some (fs w !! Manifest.filepath m)
    /\ os_Remove (Manifest.filepath m) w = (Ok tt, w1)
    /\ fs w1 = delete (Manifest.filepath m) (fs w)
    /\ GetManifestPath w1 = (Ok root, w2)
    /\ PruneDirectory root w2 = (Ok tt, w').
Proof.
  unfold Remove. unfold bind at 1.
  destruct (os_Remove (Manifest.filepath m) w) as [[[]|e] w1] eqn:Hr; [|discriminate].
  unfold bind. destruct (GetManifestPath w1) as [[root|e] w2] eqn:Hg; [|discriminate].
  intros Hp. exists w1, root, w2.
  unfold os_Remove in Hr.
  destruct (no_path (Manifest.filepath m)); [discriminate|].
  destruct (entry (fs w) (Manifest.filepath m)) as [e|[c mode mtime| |]] eqn:Hf';
    try discriminate; pose proof (entry_lookup _ _ _ Hf') as Hf.
  - injection Hr as <-. cbn [fs set_fs touch]. eauto 10.
  - destruct (has_entries (fs w) (Manifest.filepath m)); [discriminate|].
    injection Hr as <-. cbn [fs set_fs touch]. eauto 10.
  - injection Hr as <-. cbn [fs set_fs touch]. eauto 10.
Qed.

End ListingMore.

(** ** The properties at work on the demo store *)

(** A rune of two bytes gives its code and a zero, and the zero is
    spelled as a NUL byte. *)
Example Tokenize_two_bytes :
  Server.Tokenize (String (byte_of 195) (String (byte_of 169) EmptyString)) = [233; 0]
  /\ Server.Detokenize [233; 0]
     = String (byte_of 195) (String (byte_of 169) (String (byte_of 0) EmptyString)).
Proof. split; vm_compute; reflexivity. Qed.

(** A byte that is no UTF-8 gives U+FFFD. *)
Example Tokenize_not_utf8 :
  Server.Tokenize (String (byte_of 255) EmptyString) = [65533].
Proof. vm_compute. reflexivity. Qed.

(** X5 on the store where the blob of the weights is missing and the
    blob of the config is a directory that is not empty. *)
Lemma RemoveLayers_error_witness :
  exists l w1,
    In l (elems (Manifest.Layers demo_manifest) ++ [Manifest.Config demo_manifest])
    /\ Layer.Digest l <> ""%string
    /\ blob_Remove l w1
       = (Err (PathError "remove" ["blobs"; "sha256:aa"]%string ENOTEMPTY),
          snd (RemoveLayers blob_Remove demo_manifest busy_world))
    /\ is_ErrNotExist (PathError "remove" ["blobs"; "sha256:aa"]%string ENOTEMPTY) = false.
Proof.
  apply (RemoveLayers_error blob_Remove demo_manifest busy_world). compute_done.
Defined.

(** X6 on a manifest whose config has no digest. *)
Lemma RemoveLayers_skips_empty_digests_witness :
  RemoveLayers blob_Remove unlabelled busy_world
  = RemoveLayers picky_Remove unlabelled busy_world.
Proof.
  apply (RemoveLayers_skips_empty_digests blob_Remove picky_Remove unlabelled busy_world).
  intros l w0 H. unfold picky_Remove.
  destruct (String.eqb_spec (Layer.Digest l) ""); [contradiction|reflexivity].
Defined.

(** X8 on the demo manifest. *)
Lemma ParseNamedManifest_file_backed_witness :
  exists root content mode mtime,
    fst (@GetManifestPath Demo.collaborators Demo.written_world) = Ok root
    /\ Manifest.filepath written_manifest = root ++ @Filepath Demo.collaborators Demo.demo
    /\ fs (snd (ParseNamedManifest (C := Demo.collaborators) Demo.demo Demo.written_world))
         !! Manifest.filepath written_manifest = Some (File content mode mtime)
    /\ entry (fs (snd (ParseNamedManifest (C := Demo.collaborators) Demo.demo
                         Demo.written_world)))
             (Manifest.filepath written_manifest) = inr (File content mode mtime)
    /\ Manifest.fi written_manifest
       = Some (mkFileInfo (base_name (Manifest.filepath written_manifest))
                          (Z.of_nat (length content)) mode mtime false).
Proof.
  apply (ParseNamedManifest_file_backed (C := Demo.collaborators) Demo.demo
           Demo.written_world
           (snd (ParseNamedManifest (C := Demo.collaborators) Demo.demo Demo.written_world))
           written_manifest).
  compute_done.
Defined.

(** X9 on the first write into the empty store. *)
Lemma WriteManifest_writes_one_file_witness :
  exists root w0 mode mtime,
    @GetManifestPath Demo.collaborators Demo.empty_world = (Ok root, w0)
    /\ fs Demo.written_world !! (root ++ @Filepath Demo.collaborators Demo.demo)
       = Some (File (Encoder_Encode (written Demo.config (Some [Demo.weights]))) mode mtime)
    /\ mode = match fs w0 !! (root ++ @Filepath Demo.collaborators Demo.demo) with
              | Some (File _ old _) => old
              | _ => Z.land 438 (Z.lnot (umask w0))
              end
    /\ forall q, q <> root ++ @Filepath Demo.collaborators Demo.demo ->
         fs Demo.written_world !! q = fs w0 !! q
         \/ (fs w0 !! q = None /\ fs Demo.written_world !! q = Some Dir).
Proof.
  apply (WriteManifest_writes_one_file (C := Demo.collaborators) Demo.demo Demo.config
           (Some [Demo.weights]) Demo.empty_world Demo.written_world).
  compute_done.
Defined.


(** X12 on the demo collaborators. *)
Lemma createAppleManifests_registers_one_witness :
  exists configData m,
    @Marshal_ConfigV2 Demo.collaborators = Ok configData
    /\ returned ∅ (fst (createAppleManifests (C := Demo.collaborators) Demo.empty_world))
       = {[ @ParseName Demo.collaborators "apple" := m ]}
    /\ @IsValid Demo.collaborators (@ParseName Demo.collaborators "apple") = true
    /\ Manifest.fi m = None
    /\ Manifest.IsAppleFoundationModel m = true
    /\ Size m = wrap64 (1048576 + 181 + Z.of_nat (length configData))
    /\ fs (snd (createAppleManifests (C := Demo.collaborators) Demo.empty_world))
       = fs Demo.empty_world
    /\ accesses (snd (createAppleManifests (C := Demo.collaborators) Demo.empty_world))
       = accesses Demo.empty_world
    /\ logged (snd (createAppleManifests (C := Demo.collaborators) Demo.empty_world))
       = (Info, "registered Apple Foundation Model"%string) :: logged Demo.empty_world.
Proof.
  apply (createAppleManifests_registers_one (C := Demo.collaborators) Demo.empty_world
           (snd (createAppleManifests (C := Demo.collaborators) Demo.empty_world))
           (returned ∅ (fst (createAppleManifests (C := Demo.collaborators) Demo.empty_world)))).
  compute_done.
Defined.

(** X13 on the listing with the synthetic models switched on. *)
Lemma Manifests_names_valid_witness :
  @IsValid Demo.collaborators Demo.apple = true
  /\ (@IsFullyQualified Demo.collaborators Demo.apple = true
      \/ Demo.apple = @ParseName Demo.collaborators "apple").
Proof.
  refine (Manifests_names_valid (C := Demo.collaborators) true (Demo.apple_world "1")
            (snd listing) (returned ∅ (fst listing)) _ Demo.apple _).
  - compute_done.
  - exists (apple_manifest (str "{}")). compute_done.
Defined.

(** X14 on the store with a link that cannot be resolved. *)
Lemma Manifests_tolerant_errors_witness :
  @GetManifestPath Demo.collaborators Demo.linked_world
  = (Err (PathError "stat" Demo.p_linked ELOOP), Demo.linked_w2)
  \/ exists root w0,
       @GetManifestPath Demo.collaborators Demo.linked_world = (Ok root, w0)
       /\ (filepath_Glob4 (C := Demo.collaborators) root w0
           = (Err (PathError "stat" Demo.p_linked ELOOP), Demo.linked_w2)
           \/ exists matches p w1,
                fst (filepath_Glob4 (C := Demo.collaborators) root w0) = Ok matches
                /\ In p matches
                /\ os_Stat p w1 = (Err (PathError "stat" Demo.p_linked ELOOP), Demo.linked_w2)).
Proof.
  apply (Manifests_tolerant_errors (C := Demo.collaborators) Demo.linked_world
           Demo.linked_w2 (PathError "stat" Demo.p_linked ELOOP)).
  compute_done.
Defined.

(** A root that is no well-formed pattern: the error of [filepath.Glob]
    is returned, with [continueOnError] set or not. *)
Example Manifests_bad_pattern (continueOnError : bool) :
  fst (Manifests (C := bracket_collaborators) continueOnError Demo.empty_world)
  = Err (ErrOther "syntax error in pattern").
Proof. destruct continueOnError; vm_compute; reflexivity. Qed.

(** X15 on the demo manifest. *)
Lemma Remove_deletes_the_file_witness :
  exists w1 root w2,
    is_Some (fs Demo.written_world !! Manifest.filepath written_manifest)
    /\ os_Remove (Manifest.filepath written_manifest) Demo.written_world = (Ok tt, w1)
    /\ fs w1 = delete (Manifest.filepath written_manifest) (fs Demo.written_world)
    /\ @GetManifestPath Demo.collaborators w1 = (Ok root, w2)
    /\ @PruneDirectory Demo.collaborators root w2
       = (Ok tt, snd (Remove (C := Demo.collaborators) written_manifest Demo.written_world)).
Proof.
  apply (Remove_deletes_the_file (C := Demo.collaborators) written_manifest
           Demo.written_world
           (snd (Remove (C := Demo.collaborators) written_manifest Demo.written_world))).
  compute_done.
Defined.

(** At the size of a buffer the digest leaves the final newline out. *)
Example WriteManifest_digest_at_buffer_size :
  length (encode_Manifest (written long_config (Some [Demo.weights]))) = 512%nat
  /\ fst (ParseNamedManifest (C := Demo.collaborators) Demo.demo long_world)
     = Ok long_manifest
  /\ Manifest.digest long_manifest
     = hex_EncodeToString
         (sha256_Sum256 (encode_Manifest (written long_config (Some [Demo.weights]))))
  /\ Manifest.digest long_manifest
     <> hex_EncodeToString
          (sha256_Sum256 (Encoder_Encode (written long_config (Some [Demo.weights])))).
Proof.
  split; [vm_compute; reflexivity|]. split; [compute_done|]. split; compute_done.
Qed.
